(** * ModelForge: the run execution engine of the API server

    A shallow embedding of the API server's run engine: the retry wrapper,
    the provider adapters, the judge verdict parser, the per-model worker,
    the scheduler behind [POST /api/runs/:id/execute], and the routes that
    cancel, review and delete.  The SQLite tables are lists of rows in
    storage order, SQL statements are functions on them, and everything
    the server obtains from outside (clock readings, generated ids, the
    provider's HTTP answers, the state of the abort signals when the
    worker looks at them) is an explicit argument.

    Text is modelled as ASCII: a [string] is a sequence of code units, and
    case mapping, trimming and word boundaries are those of JavaScript on
    the ASCII range.  Numbers read from JSON are exact decimals; rounding
    to a double is outside the model. *)

From Stdlib Require Import ZArith Ascii String List Bool Lia DecimalString.
From stdpp Require Import base option list strings gmap sorting.

Local Open Scope string_scope.
Local Open Scope Z_scope.

(** ** JavaScript strings (ASCII) *)

Module JsString.

Definition code (c : ascii) : N := N_of_ascii c.

Definition is_upper (c : ascii) : bool := ((65 <=? code c) && (code c <=? 90))%N.
Definition is_lower (c : ascii) : bool := ((97 <=? code c) && (code c <=? 122))%N.
Definition is_digit (c : ascii) : bool := ((48 <=? code c) && (code c <=? 57))%N.

(** [\w] of a regular expression: letters, digits and the underscore. *)
Definition is_word (c : ascii) : bool :=
  is_upper c || is_lower c || is_digit c || (code c =? 95)%N.

(** White space removed by [String.prototype.trim] within ASCII:
    tab, line feed, vertical tab, form feed, carriage return, space. *)
Definition is_space (c : ascii) : bool :=
  ((9 <=? code c) && (code c <=? 13) || (code c =? 32))%N.

Definition lower_char (c : ascii) : ascii :=
  if is_upper c then ascii_of_N (code c + 32) else c.
Definition upper_char (c : ascii) : ascii :=
  if is_lower c then ascii_of_N (code c - 32) else c.

Fixpoint map_chars (f : ascii -> ascii) (s : string) : string :=
  match s with
  | EmptyString => EmptyString
  | String c r => String (f c) (map_chars f r)
  end.

Definition toLowerCase : string -> string := map_chars lower_char.
Definition toUpperCase : string -> string := map_chars upper_char.

Fixpoint filter_chars (p : ascii -> bool) (s : string) : string :=
  match s with
  | EmptyString => EmptyString
  | String c r => if p c then String c (filter_chars p r) else filter_chars p r
  end.

Fixpoint trimStart (s : string) : string :=
  match s with
  | String c r => if is_space c then trimStart r else s
  | EmptyString => EmptyString
  end.

(** Drops the longest suffix whose characters all satisfy [p]. *)
Fixpoint drop_trailing (p : ascii -> bool) (s : string) : string :=
  match s with
  | EmptyString => EmptyString
  | String c r =>
      match drop_trailing p r with
      | EmptyString => if p c then EmptyString else String c EmptyString
      | r' => String c r'
      end
  end.

Definition trimEnd : string -> string := drop_trailing is_space.
Definition trim (s : string) : string := trimEnd (trimStart s).

Fixpoint startsWith (s p : string) : bool :=
  match p, s with
  | EmptyString, _ => true
  | String a p', String b s' => Ascii.eqb a b && startsWith s' p'
  | String _ _, EmptyString => false
  end.

Fixpoint includes (s p : string) : bool :=
  startsWith s p ||
  match s with
  | EmptyString => false
  | String _ r => includes r p
  end.

Definition endsWith (s p : string) : bool :=
  let n := String.length s in
  let k := String.length p in
  (k <=? n)%nat && String.eqb (substring (n - k) k s) p.

(** [s.slice(0, n)] and [s.slice(n)] for [0 <= n]. *)
Definition slice_to (n : nat) (s : string) : string := substring 0 n s.
Fixpoint slice_from (n : nat) (s : string) : string :=
  match n, s with
  | O, _ => s
  | S _, EmptyString => EmptyString
  | S k, String _ r => slice_from k r
  end.

(** First character of [s] is not a word character, or [s] is empty:
    the right-hand condition of a [\b] that follows a word character. *)
Definition boundary_after (s : string) : bool :=
  match s with
  | EmptyString => true
  | String c _ => negb (is_word c)
  end.

(** [/^w\b/.test(s)] for a word [w] of word characters. *)
Definition starts_with_word (w s : string) : bool :=
  startsWith s w && boundary_after (slice_from (String.length w) s).

(** [/\bw\b/.test(s)]: [w] occurs with no word character on either side.
    [prev] tells whether the character before [s] is a word character. *)
Fixpoint contains_word_from (prev : bool) (w s : string) : bool :=
  (negb prev && starts_with_word w s) ||
  match s with
  | EmptyString => false
  | String c r => contains_word_from (is_word c) w r
  end.

Definition contains_word (w s : string) : bool := contains_word_from false w s.

(** [s.split(/\r?\n/)]: always at least one part. *)
Fixpoint split_lines_acc (cur : string) (s : string) : list string :=
  match s with
  | EmptyString => [String.rev cur]
  | String c r =>
      if Ascii.eqb c "010" then String.rev cur :: split_lines_acc EmptyString r
      else if Ascii.eqb c "013" then
        match r with
        | String c' r' =>
            if Ascii.eqb c' "010" then String.rev cur :: split_lines_acc EmptyString r'
            else split_lines_acc (String c cur) r
        | EmptyString => split_lines_acc (String c cur) r
        end
      else split_lines_acc (String c cur) r
  end.

Definition split_lines : string -> list string := split_lines_acc EmptyString.

(** The double quote character, and a text between two of them. *)
Definition dquote : ascii := "034"%char.
Definition in_quotes (s : string) : string := String dquote (s +:+ String dquote EmptyString).

(** A text written with ['] where it has a double quote. *)
Definition quoting (s : string) : string :=
  map_chars (fun c => if Ascii.eqb c "'" then dquote else c) s.

(** Decimal text of an integer, as [String(n)] prints it. *)
Definition of_Z (z : Z) : string := NilZero.string_of_int (Z.to_int z).
Definition of_nat (n : nat) : string := of_Z (Z.of_nat n).

End JsString.

(** ** JSON values and [JSON.parse] *)

(** A number [JNum m e] is the exact decimal [m * 10^e]. *)
#[warnings="-register-all"]
Inductive json : Type :=
| JNull
| JBool (b : bool)
| JNum (m e : Z)
| JStr (s : string)
| JArr (items : list json)
| JObj (fields : list (string * json)).

(** A JavaScript value read out of parsed JSON: [None] is [undefined]. *)
Definition jsval := option json.

Module Json.

Import JsString.

Definition is_ws (c : ascii) : bool :=
  ((code c =? 32) || (code c =? 9) || (code c =? 10) || (code c =? 13))%N.

Fixpoint skip_ws (s : string) : string :=
  match s with
  | String c r => if is_ws c then skip_ws r else s
  | EmptyString => EmptyString
  end.

Definition hex_val (c : ascii) : option N :=
  let n := code c in
  if is_digit c then Some (n - 48)%N
  else if ((97 <=? n) && (n <=? 102))%N then Some (n - 87)%N
  else if ((65 <=? n) && (n <=? 70))%N then Some (n - 55)%N
  else None.

(** The character kept for the code unit [n] of a [\uXXXX] escape.  Code
    units outside ASCII are kept apart from every ASCII character and are
    not tracked further. *)
Definition unit_char (n : N) : ascii :=
  if (n <? 128)%N then ascii_of_N n else ascii_of_N (128 + n mod 128).

Definition hex4 (a b c d : ascii) : option N :=
  match hex_val a, hex_val b, hex_val c, hex_val d with
  | Some x, Some y, Some z, Some w => Some (((x * 16 + y) * 16 + z) * 16 + w)%N
  | _, _, _, _ => None
  end.

(** After the opening quote: the decoded text and what follows the
    closing quote.  [acc] holds the text read so far, reversed. *)
Fixpoint parse_string_body (s : string) (acc : string) : option (string * string) :=
  match s with
  | EmptyString => None
  | String c r =>
      if Ascii.eqb c dquote then Some (String.rev acc, r)
      else if Ascii.eqb c "\" then
        match r with
        | String e r' =>
            if Ascii.eqb e dquote then parse_string_body r' (String dquote acc)
            else if Ascii.eqb e "\" then parse_string_body r' (String "\" acc)
            else if Ascii.eqb e "/" then parse_string_body r' (String "/" acc)
            else if Ascii.eqb e "b" then parse_string_body r' (String "008" acc)
            else if Ascii.eqb e "f" then parse_string_body r' (String "012" acc)
            else if Ascii.eqb e "n" then parse_string_body r' (String "010" acc)
            else if Ascii.eqb e "r" then parse_string_body r' (String "013" acc)
            else if Ascii.eqb e "t" then parse_string_body r' (String "009" acc)
            else if Ascii.eqb e "u" then
              match r' with
              | String h1 (String h2 (String h3 (String h4 r''))) =>
                  match hex4 h1 h2 h3 h4 with
                  | Some n => parse_string_body r'' (String (unit_char n) acc)
                  | None => None
                  end
              | _ => None
              end
            else None
        | EmptyString => None
        end
      else if (code c <? 32)%N then None
      else parse_string_body r (String c acc)
  end.

(** Leading decimal digits of [s], reversed into [acc], and the rest. *)
Fixpoint take_digits (s : string) (acc : string) : string * string :=
  match s with
  | String c r => if is_digit c then take_digits r (String c acc) else (String.rev acc, s)
  | EmptyString => (String.rev acc, EmptyString)
  end.

Fixpoint digits_val (s : string) (acc : Z) : Z :=
  match s with
  | String c r => digits_val r (acc * 10 + Z.of_N (code c - 48))
  | EmptyString => acc
  end.

(** The integer part: a single [0], or a non-zero digit and more digits. *)
Definition parse_int_part (s : string) : option (string * string) :=
  match s with
  | String c r =>
      if Ascii.eqb c "0" then Some ("0", r)
      else if is_digit c then Some (take_digits s EmptyString)
      else None
  | EmptyString => None
  end.

Definition parse_frac_part (s : string) : option (string * string) :=
  match s with
  | String "." r =>
      match take_digits r EmptyString with
      | (EmptyString, _) => None
      | (ds, r') => Some (ds, r')
      end
  | _ => Some (EmptyString, s)
  end.

Definition parse_exp_part (s : string) : option (Z * string) :=
  let digits (neg : bool) (r : string) :=
    match take_digits r EmptyString with
    | (EmptyString, _) => None
    | (ds, r') => Some (if neg then - digits_val ds 0 else digits_val ds 0, r')
    end in
  match s with
  | String c r =>
      if Ascii.eqb c "e" || Ascii.eqb c "E" then
        match r with
        | String "+" r' => digits false r'
        | String "-" r' => digits true r'
        | _ => digits false r
        end
      else Some (0, s)
  | EmptyString => Some (0, s)
  end.

Definition parse_number (s : string) : option (json * string) :=
  let '(neg, s1) := match s with String "-" r => (true, r) | _ => (false, s) end in
  '(ip, s2) ← parse_int_part s1;
  '(fp, s3) ← parse_frac_part s2;
  '(ex, s4) ← parse_exp_part s3;
  let m := digits_val (ip +:+ fp) 0 in
  Some (JNum (if neg then - m else m) (ex - Z.of_nat (String.length fp)), s4).

(** Elements of an array after [[]: [pv] parses one value, [n] bounds the
    number of elements. *)
Fixpoint parse_elements (pv : string -> option (json * string)) (n : nat)
    (s : string) (acc : list json) : option (list json * string) :=
  match n with
  | O => None
  | S n' =>
      '(v, r) ← pv s;
      match skip_ws r with
      | String "," r' => parse_elements pv n' r' (v :: acc)
      | String "]" r' => Some (rev (v :: acc), r')
      | _ => None
      end
  end.

(** Members of an object after [{]. *)
Fixpoint parse_members (pv : string -> option (json * string)) (n : nat)
    (s : string) (acc : list (string * json)) : option (list (string * json) * string) :=
  match n with
  | O => None
  | S n' =>
      match skip_ws s with
      | String "034" r =>
          '(k, r1) ← parse_string_body r EmptyString;
          match skip_ws r1 with
          | String ":" r2 =>
              '(v, r3) ← pv r2;
              match skip_ws r3 with
              | String "," r4 => parse_members pv n' r4 ((k, v) :: acc)
              | String "}" r4 => Some (rev ((k, v) :: acc), r4)
              | _ => None
              end
          | _ => None
          end
      | _ => None
      end
  end.

(** One value, with leading white space; [fuel] bounds the nesting depth. *)
Fixpoint parse_value (fuel : nat) (s : string) : option (json * string) :=
  match fuel with
  | O => None
  | S f =>
      let s := skip_ws s in
      match s with
      | EmptyString => None
      | String c r =>
          if Ascii.eqb c dquote then
            '(t, r') ← parse_string_body r EmptyString; Some (JStr t, r')
          else if Ascii.eqb c "[" then
            match skip_ws r with
            | String "]" r' => Some (JArr [], r')
            | _ => '(vs, r') ← parse_elements (parse_value f) (S (String.length r)) r []; Some (JArr vs, r')
            end
          else if Ascii.eqb c "{" then
            match skip_ws r with
            | String "}" r' => Some (JObj [], r')
            | _ => '(kvs, r') ← parse_members (parse_value f) (S (String.length r)) r []; Some (JObj kvs, r')
            end
          else if startsWith s "null" then Some (JNull, slice_from 4 s)
          else if startsWith s "true" then Some (JBool true, slice_from 4 s)
          else if startsWith s "false" then Some (JBool false, slice_from 5 s)
          else parse_number s
      end
  end.

(** [JSON.parse(text)]: [None] stands for the [SyntaxError] it throws. *)
Definition parse (text : string) : option json :=
  '(v, r) ← parse_value (S (String.length text)) text;
  match skip_ws r with
  | EmptyString => Some v
  | _ => None
  end.

End Json.

(** ** Reading parsed JSON the way the JavaScript does *)

Module Js.

Import JsString.

(** Last binding of [k]: a repeated key keeps its last value. *)
Fixpoint field (k : string) (fs : list (string * json)) : jsval :=
  match fs with
  | [] => None
  | (k', v) :: r =>
      match field k r with
      | Some v' => Some v'
      | None => if String.eqb k' k then Some v else None
      end
  end.

(** [v?.k] for the property names the server reads, none of which is a
    built-in property of a string, number, boolean or array. *)
Definition opt_prop (v : jsval) (k : string) : jsval :=
  match v with
  | Some (JObj fs) => field k fs
  | _ => None
  end.

(** [v.k] on a parsed value: [None] is the [TypeError] thrown on [null]. *)
Definition prop (v : json) (k : string) : option jsval :=
  match v with
  | JNull => None
  | _ => Some (opt_prop (Some v) k)
  end.

(** [v?.[0]]: the first element of an array, the first character of a
    non-empty string. *)
Definition opt_first (v : jsval) : jsval :=
  match v with
  | Some (JArr (x :: _)) => Some x
  | Some (JStr (String c _)) => Some (JStr (String c EmptyString))
  | Some (JObj fs) => field "0" fs
  | _ => None
  end.

Definition truthy (v : jsval) : bool :=
  match v with
  | None | Some JNull => false
  | Some (JBool b) => b
  | Some (JNum m _) => negb (m =? 0)
  | Some (JStr s) => negb (String.eqb s EmptyString)
  | Some (JArr _) | Some (JObj _) => true
  end.

(** [a || b] and [a ?? b]. *)
Definition or_else (a : jsval) (b : json) : json :=
  match a with
  | Some v => if truthy a then v else b
  | None => b
  end.
Definition nullish_else (a : jsval) (b : json) : json :=
  match a with
  | Some JNull | None => b
  | Some v => v
  end.

Fixpoint zeros (n : nat) : string :=
  match n with O => EmptyString | S k => String "0" (zeros k) end.

(** Significant digits of [m > 0] without trailing zeros, and how many
    zeros were dropped. *)
Definition sig_digits (m : Z) : string * nat :=
  let ds := of_Z m in
  let kept := drop_trailing (fun c => Ascii.eqb c "0") ds in
  (kept, (String.length ds - String.length kept)%nat).

(** [Number.prototype.toString] on the decimal [m * 10^e]. *)
Definition number_to_string (m e : Z) : string :=
  if m =? 0 then "0" else
  let '(ds, dropped) := sig_digits (Z.abs m) in
  let k := Z.of_nat (String.length ds) in
  let n := k + e + Z.of_nat dropped in
  let sign := if m <? 0 then "-" else EmptyString in
  sign +:+
  (if (k <=? n) && (n <=? 21) then ds +:+ zeros (Z.to_nat (n - k))
   else if (0 <? n) && (n <=? 21) then
     slice_to (Z.to_nat n) ds +:+ "." +:+ slice_from (Z.to_nat n) ds
   else if (-6 <? n) && (n <=? 0) then "0." +:+ zeros (Z.to_nat (- n)) +:+ ds
   else
     let x := n - 1 in
     let tail := (if x <? 0 then "e-" else "e+") +:+ of_Z (Z.abs x) in
     if k =? 1 then ds +:+ tail
     else slice_to 1 ds +:+ "." +:+ slice_from 1 ds +:+ tail).

Fixpoint join (sep : string) (l : list string) : string :=
  match l with
  | [] => EmptyString
  | [x] => x
  | x :: r => x +:+ sep +:+ join sep r
  end.

(** [String(v)] on a parsed value (also what [+=] appends). *)
Fixpoint to_string (v : json) : string :=
  match v with
  | JNull => "null"
  | JBool true => "true"
  | JBool false => "false"
  | JNum m e => number_to_string m e
  | JStr s => s
  | JArr items =>
      join "," (List.map (fun x => match x with JNull => EmptyString | _ => to_string x end) items)
  | JObj _ => "[object Object]"
  end.

(** [v === s] for a string literal [s]. *)
Definition is_string (v : jsval) (s : string) : bool :=
  match v with
  | Some (JStr t) => String.eqb t s
  | _ => false
  end.

End Js.

(** ** Thrown errors and results of asynchronous operations *)

(** An [Error] object; the server reads nothing of it but its message. *)
Record JsError := { message : string }.

Inductive outcome (T : Type) : Type :=
| Returned (v : T)
| Thrown (e : JsError).
Arguments Returned {T} v.
Arguments Thrown {T} e.

(** ** [withRetry]: retry with exponential backoff *)

Module Retry.

Import JsString.

(** What one call of [withRetry] did: its result, how many times it
    invoked the operation, and the delays (ms) it slept, in order. *)
Record run (T : Type) := {
  result : outcome T;
  attempts : nat;
  sleeps : list Z;
}.
Arguments result {T} r.
Arguments attempts {T} r.
Arguments sleeps {T} r.

(** [error.message?.includes('401') || ... '403' || ... '404'] *)
Definition non_retriable (e : JsError) : bool :=
  includes (message e) "401" || includes (message e) "403" || includes (message e) "404".

Section WithRetry.
Context {T : Type}.
(** [operation k] is what the [k]-th invocation (from 0) of the wrapped
    operation does. *)
Variable operation : nat -> outcome T.
(** The budget is a whole number of retries and the base delay a whole
    number of milliseconds, as at every call in the server (3 and 1000);
    other JavaScript numbers are outside the model. *)
Variable maxRetries : nat.
Variable baseDelay : Z.

(** One more invocation and one more sleep in front of [r]. *)
Definition after_sleep (delay : Z) (r : run T) : run T :=
  {| result := result r; attempts := S (attempts r); sleeps := delay :: sleeps r |}.

(** The [for] loop from iteration [attempt] on; [fuel] is the number of
    iterations left before [attempt <= maxRetries] fails.  [lastError]
    is the variable of that name. *)
Fixpoint loop (fuel attempt : nat) (lastError : JsError) : run T :=
  match fuel with
  | O => {| result := Thrown lastError; attempts := 0; sleeps := [] |}
  | S fuel' =>
      match operation attempt with
      | Returned v => {| result := Returned v; attempts := 1; sleeps := [] |}
      | Thrown error =>
          if non_retriable error then
            {| result := Thrown error; attempts := 1; sleeps := [] |}
          else if (attempt =? maxRetries)%nat then
            {| result := Thrown error; attempts := 1; sleeps := [] |}
          else
            let delay := baseDelay * 2 ^ Z.of_nat attempt in
            after_sleep delay (loop fuel' (S attempt) error)
      end
  end.

(** [lastError] is unassigned before the first failure; the loop body
    runs at least once, so that value is never thrown. *)
Definition withRetry : run T :=
  loop (S maxRetries) 0 {| message := EmptyString |}.
End WithRetry.

(** Every adapter call wraps its request as [withRetry(op, 3, 1000, ...)]. *)
Definition adapter_retry {T} (operation : nat -> outcome T) : run T :=
  withRetry operation 3 1000.

Definition total_sleep {T} (r : run T) : Z := foldr Z.add 0 (sleeps r).

Definition retriable_failure {T} (o : outcome T) : bool :=
  match o with
  | Returned _ => false
  | Thrown e => negb (non_retriable e)
  end.

End Retry.

(** ** The store: tables and rows *)

(** A value bound to a statement parameter or held in a column.  A
    column holds a value as it was bound: the conversions of SQLite's
    column affinity are outside the model. *)
Inductive sqlval : Type :=
| SqlNull
| SqlNum (m e : Z)
| SqlText (s : string).

(** What the SQLite driver accepts as a parameter: numbers, strings and
    [null]; a boolean, array or object makes [run] throw a [TypeError]
    before anything is written. *)
Definition bind (v : json) : option sqlval :=
  match v with
  | JNull => Some SqlNull
  | JNum m e => Some (SqlNum m e)
  | JStr s => Some (SqlText s)
  | JBool _ | JArr _ | JObj _ => None
  end.

Module RunStatus.
Inductive t := queued | running | completed | cancelled | error.
Definition to_string (s : t) : string :=
  match s with
  | queued => "queued" | running => "running" | completed => "completed"
  | cancelled => "cancelled" | error => "error"
  end.
End RunStatus.

Module ResultStatus.
Inductive t := pending | manual | completed | cancelled | error.
End ResultStatus.

Module Provider.
Record t := {
  id : string;
  name : string;
  adapter : string;
  base_url : string;
  api_key_enc : option string;
}.
End Provider.

Module Model.
Record t := {
  id : string;
  provider_id : string;
  label : string;
  model_id : string;
  settings : option string;
}.
End Model.

Module ProblemSet.
Record t := {
  id : string;
  name : string;
  created_at : Z;
}.
End ProblemSet.

Module Problem.
Record t := {
  id : string;
  problem_set_id : string;
  type : string;
  prompt : string;
  expected_answer : option string;
  created_at : Z;
}.
Definition is_html (p : t) : bool := String.eqb (type p) "html".
End Problem.

Module Run.
Record t := {
  id : string;
  name : option string;
  problem_set_id : string;
  model_ids : list string;
  judge_model_id : string;
  status : RunStatus.t;
  created_at : Z;
  stream : bool;
  cancelled_at : option Z;
  cancelled_by : option string;
}.
Definition set_status (s : RunStatus.t) (r : t) : t :=
  {| id := id r; name := name r; problem_set_id := problem_set_id r;
     model_ids := model_ids r; judge_model_id := judge_model_id r;
     status := s; created_at := created_at r; stream := stream r;
     cancelled_at := cancelled_at r; cancelled_by := cancelled_by r |}.
Definition set_cancelled (at_ : Z) (by_ : string) (r : t) : t :=
  {| id := id r; name := name r; problem_set_id := problem_set_id r;
     model_ids := model_ids r; judge_model_id := judge_model_id r;
     status := RunStatus.cancelled; created_at := created_at r; stream := stream r;
     cancelled_at := Some at_; cancelled_by := Some by_ |}.
End Run.

Module RunResult.
Record t := {
  id : string;
  run_id : string;
  problem_id : string;
  model_id : string;
  output : option string;
  score : sqlval;
  status : ResultStatus.t;
  judged_by : option string;
  judge_reasoning : sqlval;
  created_at : Z;
  cancelled_at : option Z;
}.
(** [SET status = 'cancelled', cancelled_at = ?] *)
Definition set_cancelled (at_ : Z) (r : t) : t :=
  {| id := id r; run_id := run_id r; problem_id := problem_id r; model_id := model_id r;
     output := output r; score := score r; status := ResultStatus.cancelled;
     judged_by := judged_by r; judge_reasoning := judge_reasoning r;
     created_at := created_at r; cancelled_at := Some at_ |}.
(** [SET status = 'error'] *)
Definition set_error (r : t) : t :=
  {| id := id r; run_id := run_id r; problem_id := problem_id r; model_id := model_id r;
     output := output r; score := score r; status := ResultStatus.error;
     judged_by := judged_by r; judge_reasoning := judge_reasoning r;
     created_at := created_at r; cancelled_at := cancelled_at r |}.
(** [SET output = ?] *)
Definition set_output (o : string) (r : t) : t :=
  {| id := id r; run_id := run_id r; problem_id := problem_id r; model_id := model_id r;
     output := Some o; score := score r; status := status r;
     judged_by := judged_by r; judge_reasoning := judge_reasoning r;
     created_at := created_at r; cancelled_at := cancelled_at r |}.
(** [SET output = ?, score = ?, status = 'completed', judged_by = ?,
    judge_reasoning = ?] *)
Definition set_judged (o : string) (sc : sqlval) (by_ : string) (why : sqlval) (r : t) : t :=
  {| id := id r; run_id := run_id r; problem_id := problem_id r; model_id := model_id r;
     output := Some o; score := sc; status := ResultStatus.completed;
     judged_by := Some by_; judge_reasoning := why;
     created_at := created_at r; cancelled_at := cancelled_at r |}.
(** [SET score = ?, status = 'completed', judged_by = 'human'] *)
Definition set_reviewed (sc : sqlval) (r : t) : t :=
  {| id := id r; run_id := run_id r; problem_id := problem_id r; model_id := model_id r;
     output := output r; score := sc; status := ResultStatus.completed;
     judged_by := Some "human"; judge_reasoning := judge_reasoning r;
     created_at := created_at r; cancelled_at := cancelled_at r |}.
(** [status IN ('pending', 'manual')] *)
Definition is_open (r : t) : bool :=
  match status r with
  | ResultStatus.pending | ResultStatus.manual => true
  | _ => false
  end.
End RunResult.

(** The database: each table is the list of its rows in storage (rowid)
    order, new rows going to the end; [foreign_keys] is the connection's
    [PRAGMA foreign_keys]. *)
Record Db := {
  providers : list Provider.t;
  models : list Model.t;
  problem_sets : list ProblemSet.t;
  problems : list Problem.t;
  runs : list Run.t;
  run_results : list RunResult.t;
  foreign_keys : bool;
}.

Definition with_runs (rs : list Run.t) (db : Db) : Db :=
  {| providers := providers db; models := models db; problem_sets := problem_sets db;
     problems := problems db; runs := rs; run_results := run_results db;
     foreign_keys := foreign_keys db |}.
Definition with_run_results (rr : list RunResult.t) (db : Db) : Db :=
  {| providers := providers db; models := models db; problem_sets := problem_sets db;
     problems := problems db; runs := runs db; run_results := rr;
     foreign_keys := foreign_keys db |}.
Definition with_problems (ps : list Problem.t) (db : Db) : Db :=
  {| providers := providers db; models := models db; problem_sets := problem_sets db;
     problems := ps; runs := runs db; run_results := run_results db;
     foreign_keys := foreign_keys db |}.
Definition with_problem_sets (ss : list ProblemSet.t) (db : Db) : Db :=
  {| providers := providers db; models := models db; problem_sets := ss;
     problems := problems db; runs := runs db; run_results := run_results db;
     foreign_keys := foreign_keys db |}.
Definition with_foreign_keys (b : bool) (db : Db) : Db :=
  {| providers := providers db; models := models db; problem_sets := problem_sets db;
     problems := problems db; runs := runs db; run_results := run_results db;
     foreign_keys := b |}.

(** ** SQL statements *)

Module Sql.

(** [SELECT ... WHERE p].get(): the first matching row in storage order. *)
Definition get {A} (p : A -> bool) (rows : list A) : option A := List.find p rows.
(** [SELECT ... WHERE p].all(), with no [ORDER BY]: the matching rows in
    storage order. *)
Definition all {A} (p : A -> bool) (rows : list A) : list A := List.filter p rows.
(** [UPDATE ... SET f WHERE p] *)
Definition update {A} (p : A -> bool) (f : A -> A) (rows : list A) : list A :=
  List.map (fun r => if p r then f r else r) rows.
(** [DELETE ... WHERE p] *)
Definition delete {A} (p : A -> bool) (rows : list A) : list A :=
  List.filter (fun r => negb (p r)) rows.

(** [ORDER BY]: [before a b] tells that [a] may come before [b].  The
    sort is stable: rows the order does not tell apart stay in storage
    order. *)
Fixpoint insert_by {A} (before : relation A) `{!RelDecision before}
    (x : A) (sorted : list A) : list A :=
  match sorted with
  | [] => [x]
  | y :: rest => if decide_rel before x y then x :: y :: rest
                 else y :: insert_by before x rest
  end.

Definition order_by {A} (before : relation A) `{!RelDecision before}
    (rows : list A) : list A :=
  foldr (insert_by before) [] rows.

Definition run_by_id (id : string) (r : Run.t) : bool := String.eqb (Run.id r) id.
Definition result_by_id (id : string) (r : RunResult.t) : bool := String.eqb (RunResult.id r) id.
Definition model_by_id (id : string) (m : Model.t) : bool := String.eqb (Model.id m) id.
Definition provider_by_id (id : string) (p : Provider.t) : bool := String.eqb (Provider.id p) id.
Definition problem_by_id (id : string) (p : Problem.t) : bool := String.eqb (Problem.id p) id.
Definition problem_in_set (set : string) (p : Problem.t) : bool :=
  String.eqb (Problem.problem_set_id p) set.
Definition run_in_set (set : string) (r : Run.t) : bool :=
  String.eqb (Run.problem_set_id r) set.

(** The statements the server runs against [run_results]. *)
Inductive rr_write : Type :=
| InsertResult (row : RunResult.t)
| SetCancelled (id : string) (cancelled_at : Z)
| SetOutput (id : string) (output : string)
| SetJudged (id : string) (output : string) (score : sqlval) (judged_by : string)
    (judge_reasoning : sqlval)
| SetError (id : string)
| SetReviewed (id : string) (score : sqlval)
| CancelOpenOfRun (run_id : string) (cancelled_at : Z)
| CancelOpenOfModel (run_id model_id : string) (cancelled_at : Z)
| DeleteOfRun (run_id : string)
| DeleteOfProblem (problem_id : string).

Definition exec (w : rr_write) (rows : list RunResult.t) : list RunResult.t :=
  match w with
  | InsertResult row => rows ++ [row]
  | SetCancelled id at_ => update (result_by_id id) (RunResult.set_cancelled at_) rows
  | SetOutput id o => update (result_by_id id) (RunResult.set_output o) rows
  | SetJudged id o sc by_ why => update (result_by_id id) (RunResult.set_judged o sc by_ why) rows
  | SetError id => update (result_by_id id) RunResult.set_error rows
  | SetReviewed id sc => update (result_by_id id) (RunResult.set_reviewed sc) rows
  | CancelOpenOfRun run at_ =>
      update (fun r => String.eqb (RunResult.run_id r) run && RunResult.is_open r)
             (RunResult.set_cancelled at_) rows
  | CancelOpenOfModel run model at_ =>
      update (fun r => String.eqb (RunResult.run_id r) run &&
                       String.eqb (RunResult.model_id r) model && RunResult.is_open r)
             (RunResult.set_cancelled at_) rows
  | DeleteOfRun run => delete (fun r => String.eqb (RunResult.run_id r) run) rows
  | DeleteOfProblem p => delete (fun r => String.eqb (RunResult.problem_id r) p) rows
  end.

Definition exec_all (ws : list rr_write) (rows : list RunResult.t) : list RunResult.t :=
  foldl (fun t w => exec w t) rows ws.

(** Whether [INSERT INTO run_results] accepts [row]: the primary key is
    fresh and, with foreign keys enforced, the run and the problem exist. *)
Definition insert_allowed (db : Db) (row : RunResult.t) : bool :=
  negb (existsb (result_by_id (RunResult.id row)) (run_results db)) &&
  (negb (foreign_keys db) ||
   (existsb (run_by_id (RunResult.run_id row)) (runs db) &&
    existsb (problem_by_id (RunResult.problem_id row)) (problems db))).

End Sql.

(** ** The kill-switch registry *)

(** An [AbortController] lives at an address of [controllers], which holds
    its [signal.aborted] flag; the two [Map]s hold addresses, so a worker
    that kept a controller still sees it after its key is deleted. *)
Module Cancellation.

Import JsString.

Record registry := {
  controllers : list bool;
  runCancellations : gmap string nat;
  modelCancellations : gmap string nat;
}.

Definition empty : registry :=
  {| controllers := []; runCancellations := ∅; modelCancellations := ∅ |}.

Definition aborted (reg : registry) (c : nat) : bool := default false (controllers reg !! c).

Definition model_key (runId modelId : string) : string := runId +:+ "-" +:+ modelId.

Definition createRunCancellation (runId : string) (reg : registry) : registry * nat :=
  let c := length (controllers reg) in
  ({| controllers := controllers reg ++ [false];
      runCancellations := <[runId := c]> (runCancellations reg);
      modelCancellations := modelCancellations reg |}, c).

Definition createModelCancellation (runId modelId : string) (reg : registry) : registry * nat :=
  let c := length (controllers reg) in
  ({| controllers := controllers reg ++ [false];
      runCancellations := runCancellations reg;
      modelCancellations := <[model_key runId modelId := c]> (modelCancellations reg) |}, c).

Definition abort_all (cs : list nat) (flags : list bool) : list bool :=
  foldr (fun c fl => <[c := true]> fl) flags cs.

(** Keys of this run's model controllers: those starting with [runId-]. *)
Definition of_run (runId : string) (m : gmap string nat) : gmap string nat :=
  filter (fun kv => startsWith (fst kv) (runId +:+ "-") = true) m.

Definition cancelRun (runId : string) (reg : registry) : registry * bool :=
  match runCancellations reg !! runId with
  | Some c =>
      let mine := of_run runId (modelCancellations reg) in
      ({| controllers := abort_all (c :: map snd (map_to_list mine)) (controllers reg);
          runCancellations := delete runId (runCancellations reg);
          modelCancellations := modelCancellations reg ∖ mine |}, true)
  | None => (reg, false)
  end.

Definition cancelModel (runId modelId : string) (reg : registry) : registry * bool :=
  let key := model_key runId modelId in
  match modelCancellations reg !! key with
  | Some c =>
      ({| controllers := <[c := true]> (controllers reg);
          runCancellations := runCancellations reg;
          modelCancellations := delete key (modelCancellations reg) |}, true)
  | None => (reg, false)
  end.

Definition cleanupCancellations (runId : string) (reg : registry) : registry :=
  {| controllers := controllers reg;
     runCancellations := delete runId (runCancellations reg);
     modelCancellations := modelCancellations reg ∖ of_run runId (modelCancellations reg) |}.

End Cancellation.

(** ** The HTTP client, as the adapters use it *)

Module Http.

Record Request := {
  url : string;
  method : string;
  headers : list (string * string);
  body : json;
  (** the [signal] option of [fetch]: the address of an [AbortController] *)
  signal : option nat;
}.

(** A response body arrives in chunks; [failure] is the error with which
    the read after the last chunk rejects, if the connection breaks. *)
Record Body := {
  chunks : list string;
  failure : option JsError;
}.

Record Response := {
  status : nat;
  body_of : option Body;
}.

Definition ok (r : Response) : bool := (200 <=? status r)%nat && (status r <=? 299)%nat.

(** The provider and the runtime, for one adapter call: [respond req k]
    answers the [k]-th attempt, and [syntax_error text] is the
    [SyntaxError] that parsing the malformed [text] throws. *)
Record Net := {
  respond : Request -> nat -> outcome Response;
  syntax_error : string -> JsError;
}.

(** [schedule c k s]: the controller at address [c] has been aborted by the
    time step [s] of attempt [k] settles; step 0 is sending the request,
    step [j+1] the read that yields chunk [j] (or the end of the body). *)
Definition schedule := nat -> nat -> nat -> bool.

Definition abort_error : JsError := {| message := "This operation was aborted" |}.

(** A step of a request is cut short exactly when the request carries a
    signal and that signal is aborted before the step settles. *)
Definition interrupted (sched : schedule) (req : Request) (attempt step : nat) : bool :=
  match signal req with
  | Some c => sched c attempt step
  | None => false
  end.

Definition fetch (net : Net) (sched : schedule) (attempt : nat) (req : Request) : outcome Response :=
  if interrupted sched req attempt 0 then Thrown abort_error else respond net req attempt.

Definition whole (b : Body) : string := foldr String.append EmptyString (chunks b).

(** [await res.text()]: the whole body in one step. *)
Definition text (sched : schedule) (attempt : nat) (req : Request) (r : Response) : outcome string :=
  if interrupted sched req attempt 1 then Thrown abort_error
  else match body_of r with
       | None => Returned EmptyString
       | Some b => match failure b with
                   | Some e => Thrown e
                   | None => Returned (whole b)
                   end
       end.

(** [await res.json()] *)
Definition json_of (net : Net) (sched : schedule) (attempt : nat) (req : Request) (r : Response)
    : outcome json :=
  match text sched attempt req r with
  | Thrown e => Thrown e
  | Returned t => match Json.parse t with
                  | Some v => Returned v
                  | None => Thrown (syntax_error net t)
                  end
  end.

End Http.

(** ** Provider adapters: [callModel] and [callModelWithStreaming] *)

Inductive role := system | user | assistant.

Record ChatMessage := { msg_role : role; content : string }.

Module Adapter.

Import JsString.

(** [s.toLowerCase().replace(/[^a-z0-9]+/g, '')] *)
Definition norm (s : string) : string :=
  filter_chars (fun c => is_lower c || is_digit c) (toLowerCase s).

(** [s.replace(/\/+$/, '')] *)
Definition strip_trailing_slashes (s : string) : string :=
  drop_trailing (fun c => Ascii.eqb c "/") s.

Definition hex_digit (n : N) : ascii :=
  if (n <? 10)%N then ascii_of_N (48 + n) else ascii_of_N (55 + n).

Fixpoint encodeURIComponent (s : string) : string :=
  match s with
  | EmptyString => EmptyString
  | String c r =>
      if is_word c || existsb (Ascii.eqb c) ["-"; "."; "!"; "~"; "*"; "'"; "("; ")"]%char
      then String c (encodeURIComponent r)
      else String "%" (String (hex_digit (code c / 16)) (String (hex_digit (code c mod 16))
             (encodeURIComponent r)))
  end.

(** An object under construction: keys in insertion order, [None] for a
    property set to [undefined]. *)
Definition obj := list (string * jsval).

Fixpoint obj_set (k : string) (v : jsval) (o : obj) : obj :=
  match o with
  | [] => [(k, v)]
  | (k', v') :: r => if String.eqb k' k then (k, v) :: r else (k', v') :: obj_set k v r
  end.

Definition obj_get (k : string) (o : obj) : jsval :=
  match List.find (fun kv => String.eqb (fst kv) k) o with
  | Some (_, v) => v
  | None => None
  end.

Definition obj_delete (k : string) (o : obj) : obj :=
  List.filter (fun kv => negb (String.eqb (fst kv) k)) o.

(** [{...a, ...b}] *)
Definition spread (a b : obj) : obj := foldl (fun o kv => obj_set (fst kv) (snd kv) o) a b.

(** What [JSON.stringify] keeps of an object: properties that are not
    [undefined]. *)
Definition stringified (o : obj) : json :=
  JObj (omap (fun kv => match snd kv with Some v => Some (fst kv, v) | None => None end) o).

Definition message_json (role_name : string) (text : string) : json :=
  JObj [("role", JStr role_name); ("content", JStr text)].

Definition role_name (r : role) : string :=
  match r with system => "system" | user => "user" | assistant => "assistant" end.

Definition is_system (m : ChatMessage) : bool :=
  match msg_role m with system => true | _ => false end.

(** [buildApiParams]: only parameters whose setting is enabled.
    [streaming] is the variant inside [callModelWithStreaming], which
    starts from [{ stream: true }] and always names the stop list [stop]. *)
Definition buildApiParams (streaming : bool) (parameters : json) (adapter : string) : obj :=
  let setting name := Js.opt_prop (Some parameters) name in
  let enabled name := Js.truthy (Js.opt_prop (setting name) "enabled") in
  let value name := Js.opt_prop (setting name) "value" in
  let one_of (l : list string) := existsb (String.eqb adapter) l in
  let p0 : obj := if streaming then [("stream", Some (JBool true))] else [] in
  let p1 := if enabled "temperature" then obj_set "temperature" (value "temperature") p0 else p0 in
  let p2 := if enabled "max_tokens" then
              if String.eqb adapter "gemini"
              then obj_set "max_output_tokens" (value "max_tokens") p1
              else obj_set "max_tokens" (value "max_tokens") p1
            else p1 in
  let p3 := if enabled "top_p" && one_of ["openai_compat"; "anthropic"; "gemini"]%string
            then obj_set "top_p" (value "top_p") p2 else p2 in
  let p4 := if enabled "top_k" && one_of ["anthropic"; "gemini"]%string
            then obj_set "top_k" (value "top_k") p3 else p3 in
  let p5 := if enabled "frequency_penalty" && one_of ["openai_compat"; "gemini"]%string
            then obj_set "frequency_penalty" (value "frequency_penalty") p4 else p4 in
  let p6 := if enabled "presence_penalty" && one_of ["openai_compat"; "gemini"]%string
            then obj_set "presence_penalty" (value "presence_penalty") p5 else p5 in
  match value "stop_sequences" with
  | Some (JArr (x :: xs)) =>
      if enabled "stop_sequences" then
        if negb streaming && String.eqb adapter "anthropic"
        then obj_set "stop_sequences" (Some (JArr (x :: xs))) p6
        else obj_set "stop" (Some (JArr (x :: xs))) p6
      else p6
  | _ => p6
  end.

(** When [onToken] is invoked: while step [step] of attempt [attempt] of a
    streaming request is being processed, or once after the fallback call
    has returned. *)
Inductive moment := InStream (attempt step : nat) | AfterFallback.

(** What one adapter call did. *)
Record call := {
  returned : outcome string;
  tokens : list (moment * json);
  sent : list Http.Request;
  slept : list Z;
}.

Definition failed (e : JsError) : call :=
  {| returned := Thrown e; tokens := []; sent := []; slept := [] |}.

Definition type_error (prop_name : string) : JsError :=
  {| message := "Cannot read properties of null (reading '" +:+ prop_name +:+ "')" |}.

Section Calls.
Variable db : Db.
Variable net : Http.Net.
Variable sched : Http.schedule.

(** [modelSettings.parameters || {}] for the model row of this provider
    with this vendor model id. *)
Definition parameters_of (providerId modelId : string) : outcome json :=
  let model := Sql.get (fun m => String.eqb (Model.provider_id m) providerId &&
                                 String.eqb (Model.model_id m) modelId) (models db) in
  let settings_text :=
    match model with
    | Some m => match Model.settings m with
                | Some t => if String.eqb t EmptyString then None else Some t
                | None => None
                end
    | None => None
    end in
  match settings_text with
  | None => Returned (JObj [])
  | Some t =>
      match Json.parse t with
      | None => Thrown (Http.syntax_error net t)
      | Some modelSettings =>
          match Js.prop modelSettings "parameters" with
          | None => Thrown (type_error "parameters")
          | Some ps => Returned (Js.or_else ps (JObj []))
          end
      end
  end.

(** The body of one non-streaming attempt: send, check the status, parse
    the JSON envelope and pull the text out with [extract] ([None] when
    the envelope is [null] and the first property access throws). *)
Definition complete_attempt (req : Http.Request) (label first_prop : string)
    (extract : json -> option jsval) (k : nat) : outcome string :=
  match Http.fetch net sched k req with
  | Thrown e => Thrown e
  | Returned res =>
      if negb (Http.ok res) then
        match Http.text sched k req res with
        | Thrown e => Thrown e
        | Returned t =>
            Thrown {| message := label +:+ " error: " +:+ of_nat (Http.status res) +:+ " " +:+ t |}
        end
      else
        match Http.json_of net sched k req res with
        | Thrown e => Thrown e
        | Returned j =>
            match extract j with
            | None => Thrown (type_error first_prop)
            | Some v => Returned (Js.to_string (Js.nullish_else v (JStr EmptyString)))
            end
        end
  end.

Definition retried (req : Http.Request) (attempt : nat -> list (moment * json) * outcome string)
    : call :=
  let r := Retry.adapter_retry (fun k => snd (attempt k)) in
  {| returned := Retry.result r;
     tokens := flat_map (fun k => fst (attempt k)) (seq 0 (Retry.attempts r));
     sent := repeat req (Retry.attempts r);
     slept := Retry.sleeps r |}.

Definition post (url : string) (headers : list (string * string)) (body : json) : Http.Request :=
  {| Http.url := url; Http.method := "POST"; Http.headers := headers; Http.body := body;
     Http.signal := None |}.

Definition callModel (providerId modelId : string) (messages : list ChatMessage) : call :=
  match Sql.get (Sql.provider_by_id providerId) (providers db) with
  | None => failed {| message := "Provider not found" |}
  | Some provider =>
      match parameters_of providerId modelId with
      | Thrown e => failed e
      | Returned parameters =>
          let rawAdapter := Provider.adapter provider in
          let a := norm rawAdapter in
          let baseUrl := Provider.base_url provider in
          let apiKey := default EmptyString (Provider.api_key_enc provider) in
          let sys := content <$> List.find is_system messages in
          let userParts := List.filter (fun m => negb (is_system m)) messages in
          let sys_truthy := match sys with Some t => negb (String.eqb t EmptyString) | None => false end in
          if existsb (String.eqb a)
               ["openai"; "openaicompatible"; "openai_compat"; "openaicompat"; "oai"; "compatible"]%string
          then
            let url := strip_trailing_slashes baseUrl +:+ "/chat/completions" in
            let apiParams := buildApiParams false parameters "openai_compat" in
            let body := spread
              [("model", Some (JStr modelId));
               ("messages", Some (JArr
                  ((if sys_truthy then [message_json "system" (default EmptyString sys)] else []) ++
                   List.map (fun m => message_json (role_name (msg_role m)) (content m)) userParts)))]
              apiParams in
            let req := post url
              (("Content-Type", "application/json") ::
               (if String.eqb apiKey EmptyString then [] else [("Authorization", "Bearer " +:+ apiKey)]))
              (stringified body) in
            retried req (fun k => ([], complete_attempt req "OpenAI-compatible" "choices"
              (fun j => ch ← Js.prop j "choices";
                        Some (Js.opt_prop (Js.opt_prop (Js.opt_first ch) "message") "content")) k))
          else if existsb (String.eqb a) ["anthropic"; "claude"]%string then
            let url := strip_trailing_slashes baseUrl +:+ "/v1/messages" in
            let apiParams0 := buildApiParams false parameters "anthropic" in
            let apiParams := if Js.truthy (obj_get "max_tokens" apiParams0) then apiParams0
                             else obj_set "max_tokens" (Some (JNum 1024 0)) apiParams0 in
            let body := spread
              [("model", Some (JStr modelId));
               ("system", JStr <$> sys);
               ("messages", Some (JArr (List.map
                  (fun m => message_json
                     (match msg_role m with assistant => "assistant" | _ => "user" end) (content m))
                  userParts)))]
              apiParams in
            let req := post url
              [("Content-Type", "application/json"); ("x-api-key", apiKey);
               ("anthropic-version", "2023-06-01")]
              (stringified body) in
            retried req (fun k => ([], complete_attempt req "Anthropic" "content"
              (fun j => c ← Js.prop j "content";
                        Some (Js.opt_prop (Js.opt_first c) "text")) k))
          else if existsb (String.eqb a) ["google"; "gemini"; "googlegenai"; "googleai"]%string then
            let prompt := Js.join (String "010" (String "010" EmptyString))
              (List.filter (fun t => negb (String.eqb t EmptyString))
                 (match sys with Some t => [t] | None => [] end ++ List.map content userParts)) in
            let url := strip_trailing_slashes baseUrl +:+ "/v1beta/models/" +:+
                       encodeURIComponent modelId +:+ ":generateContent?key=" +:+
                       encodeURIComponent apiKey in
            let apiParams := buildApiParams false parameters "gemini" in
            let body := JObj
              [("contents", JArr [JObj [("role", JStr "user");
                                        ("parts", JArr [JObj [("text", JStr prompt)]])]]);
               ("generationConfig", stringified apiParams)] in
            let req := post url [("Content-Type", "application/json")] body in
            retried req (fun k => ([], complete_attempt req "Gemini" "candidates"
              (fun j => c ← Js.prop j "candidates";
                        Some (Js.opt_prop (Js.opt_first (Js.opt_prop
                                (Js.opt_prop (Js.opt_first c) "content") "parts")) "text")) k))
          else failed {| message := "Unsupported adapter: " +:+ rawAdapter |}
      end
  end.

(** The [for (const rawLine of parts)] loop over the complete lines of
    one chunk.  [delta obj] is the text a parsed event carries, when it
    carries any ([None] also when reading it throws, which the inner
    [catch] ignores).  The boolean tells that a done marker was met and
    the attempt returns. *)
Fixpoint process_lines (done_marks : list string) (delta : json -> jsval) (here : moment)
    (lines : list string) (accumulated : string) (emitted : list (moment * json))
    : bool * string * list (moment * json) :=
  match lines with
  | [] => (false, accumulated, emitted)
  | rawLine :: rest =>
      let line := trim rawLine in
      if String.eqb line EmptyString || startsWith line ":" then
        process_lines done_marks delta here rest accumulated emitted
      else if negb (startsWith (toLowerCase line) "data:") then
        process_lines done_marks delta here rest accumulated emitted
      else
        let dataStr := trim (slice_from 5 line) in
        if existsb (String.eqb dataStr) done_marks then (true, accumulated, emitted)
        else
          match Json.parse dataStr with
          | Some obj =>
              match delta obj with
              | Some piece =>
                  process_lines done_marks delta here rest
                    (accumulated +:+ Js.to_string piece) (emitted ++ [(here, piece)])
              | None => process_lines done_marks delta here rest accumulated emitted
              end
          | None => process_lines done_marks delta here rest accumulated emitted
          end
  end.

(** The [while (true)] read loop of attempt [k], from read number [step]
    on, over the chunks still to come. *)
Fixpoint read_loop (req : Http.Request) (done_marks : list string) (delta : json -> jsval)
    (k step : nat) (coming : list string) (failure : option JsError)
    (buf accumulated : string) (emitted : list (moment * json))
    : list (moment * json) * outcome string :=
  if Http.interrupted sched req k step then (emitted, Thrown Http.abort_error) else
  match coming with
  | [] =>
      match failure with
      | Some e => (emitted, Thrown e)
      | None => (emitted, Returned accumulated)
      end
  | value :: coming' =>
      let parts := split_lines (buf +:+ value) in
      match process_lines done_marks delta (InStream k step) (removelast parts) accumulated emitted with
      | (true, accumulated', emitted') => (emitted', Returned accumulated')
      | (false, accumulated', emitted') =>
          read_loop req done_marks delta k (S step) coming' failure
            (List.last parts EmptyString) accumulated' emitted'
      end
  end.

(** One streaming attempt. *)
Definition stream_attempt (req : Http.Request) (label : string) (done_marks : list string)
    (delta : json -> jsval) (k : nat) : list (moment * json) * outcome string :=
  match Http.fetch net sched k req with
  | Thrown e => ([], Thrown e)
  | Returned res =>
      match (if Http.ok res then Http.body_of res else None) with
      | None =>
          let txt := match Http.text sched k req res with
                     | Returned t => t
                     | Thrown _ => EmptyString
                     end in
          ([], Thrown {| message := label +:+ " stream error: " +:+ of_nat (Http.status res)
                                    +:+ " " +:+ txt |})
      | Some b =>
          read_loop req done_marks delta k 1 (Http.chunks b) (Http.failure b)
            EmptyString EmptyString []
      end
  end.

(** [obj.choices?.[0]?.delta?.content], kept when truthy. *)
Definition openai_delta (obj : json) : jsval :=
  match Js.prop obj "choices" with
  | None => None
  | Some ch =>
      let c := Js.opt_prop (Js.opt_prop (Js.opt_first ch) "delta") "content" in
      if Js.truthy c then c else None
  end.

(** [obj.type === 'content_block_delta' && obj.delta?.text], kept when
    truthy. *)
Definition anthropic_delta (obj : json) : jsval :=
  match Js.prop obj "type" with
  | None => None
  | Some ty =>
      if Js.is_string ty "content_block_delta" then
        let t := Js.opt_prop (Js.opt_prop (Some obj) "delta") "text" in
        if Js.truthy t then t else None
      else None
  end.

Definition chat_json (m : ChatMessage) : json :=
  message_json (role_name (msg_role m)) (content m).

Definition callModelWithStreaming (providerId modelId : string) (messages : list ChatMessage)
    : call :=
  match Sql.get (Sql.provider_by_id providerId) (providers db) with
  | None => failed {| message := "Provider not found" |}
  | Some provider =>
      match parameters_of providerId modelId with
      | Thrown e => failed e
      | Returned parameters =>
          let rawAdapter := Provider.adapter provider in
          let a := norm rawAdapter in
          let baseUrl := Provider.base_url provider in
          let apiKey := default EmptyString (Provider.api_key_enc provider) in
          let sys := content <$> List.find is_system messages in
          let userParts := List.filter (fun m => negb (is_system m)) messages in
          let sys_truthy := match sys with Some t => negb (String.eqb t EmptyString) | None => false end in
          if existsb (String.eqb a) ["openaicompat"; "openai_compat"; "openai"]%string then
            let url := if endsWith baseUrl "/" then baseUrl +:+ "chat/completions"
                       else baseUrl +:+ "/chat/completions" in
            let apiParams := buildApiParams true parameters "openai_compat" in
            let body := spread
              [("model", Some (JStr modelId));
               ("messages", Some (JArr (List.map chat_json messages)))]
              apiParams in
            let req := post url
              ([("Content-Type", "application/json"); ("Accept", "text/event-stream");
                ("Connection", "keep-alive")] ++
               (if String.eqb apiKey EmptyString then [] else [("Authorization", "Bearer " +:+ apiKey)]))%list
              (stringified body) in
            retried req (stream_attempt req "OpenAI-compatible" ["[DONE]"; in_quotes "[DONE]"]%string
                           openai_delta)
          else if String.eqb a "anthropic" then
            let url := if endsWith baseUrl "/" then baseUrl +:+ "messages"
                       else baseUrl +:+ "/messages" in
            let apiParams := obj_delete "stream" (buildApiParams true parameters "anthropic") in
            let max_tokens := obj_get "max_tokens" apiParams in
            let body := spread
              ([("model", Some (JStr modelId));
                ("max_tokens", Some (Js.or_else max_tokens (JNum 1024 0)));
                ("messages", Some (JArr (List.map chat_json userParts)));
                ("stream", Some (JBool true))] ++
               (if sys_truthy then [("system", JStr <$> sys)] else []))%list
              apiParams in
            let req := post url
              ([("Content-Type", "application/json"); ("Accept", "text/event-stream");
                ("anthropic-version", "2023-06-01")] ++
               (if String.eqb apiKey EmptyString then [] else [("x-api-key", apiKey)]))%list
              (stringified body) in
            retried req (stream_attempt req "Anthropic" ["[DONE]"]%string anthropic_delta)
          else
            (* every other adapter string goes through callModel, and
               the whole result is handed to onToken once *)
            let c := callModel providerId modelId messages in
            match returned c with
            | Returned result =>
                {| returned := Returned result;
                   tokens := [(AfterFallback, JStr result)];
                   sent := sent c; slept := slept c |}
            | Thrown e => c
            end
      end
  end.
End Calls.

End Adapter.

(** ** The judge: prompt and verdict parsing *)

Module Judge.

Import JsString.

Record verdict := {
  pass : bool;
  reasoning : json;
  score : json;
}.

Definition default_score (pass : bool) : json := JNum (if pass then 100 else 0) 0.

(** The [catch] branch: the textual rule on the trimmed, upper-cased
    response. *)
Definition fallback_verdict (verdictText : string) : verdict :=
  let normalized := toUpperCase (trim verdictText) in
  let isFail := contains_word "FAIL" normalized in
  let isPass := contains_word "PASS" normalized || starts_with_word "YES" normalized in
  let pass := isPass && negb isFail in
  {| pass := pass;
     reasoning := JStr ("Simple verdict: " +:+ (if pass then "PASS" else "FAIL") +:+
                        ". Full response: " +:+ slice_to 200 verdictText);
     score := default_score pass |}.

(** The [try] branch, entered when [JSON.parse] succeeded; reading
    [judgeResponse.verdict] of [null] throws and lands in the fallback. *)
Definition parse_verdict (verdictText : string) : verdict :=
  match Json.parse (trim verdictText) with
  | Some judgeResponse =>
      match Js.prop judgeResponse "verdict" with
      | Some v =>
          let pass := Js.is_string v "PASS" in
          {| pass := pass;
             reasoning := Js.or_else (Js.opt_prop (Some judgeResponse) "reasoning")
                                     (JStr "No reasoning provided");
             score := Js.or_else (Js.opt_prop (Some judgeResponse) "score") (default_score pass) |}
      | None => fallback_verdict verdictText
      end
  | None => fallback_verdict verdictText
  end.

(** The verdict as the specification words it: the fields are read from
    the JSON, and the score is defaulted exactly when the response has
    none (the field is absent or [null]); otherwise the textual rule.  Where the specification is silent
    (the default reasoning, a response that is JSON [null]) this follows
    [parse_verdict]. *)
Definition spec_verdict (verdictText : string) : verdict :=
  match Json.parse (trim verdictText) with
  | Some judgeResponse =>
      match Js.prop judgeResponse "verdict" with
      | Some v =>
          let pass := Js.is_string v "PASS" in
          {| pass := pass;
             reasoning := Js.or_else (Js.opt_prop (Some judgeResponse) "reasoning")
                                     (JStr "No reasoning provided");
             score := match Js.opt_prop (Some judgeResponse) "score" with
                      | Some JNull | None => default_score pass
                      | Some given => given
                      end |}
      | None => fallback_verdict verdictText
      end
  | None => fallback_verdict verdictText
  end.

Definition nl : string := String "010" EmptyString.

(** The user message sent to the judge. *)
Definition judgePrompt (prompt : string) (expected_answer : option string) (output : string)
    : string :=
  let expected :=
    match expected_answer with
    | Some t => if String.eqb t EmptyString
                then "No specific expected answer provided - judge based on correctness and completeness."
                else t
    | None => "No specific expected answer provided - judge based on correctness and completeness."
    end in
  "You are an expert AI evaluator. Your task is to judge whether a candidate answer correctly solves the given problem." +:+ nl +:+
  nl +:+
  "EVALUATION FRAMEWORK:" +:+ nl +:+
  "1. CORRECTNESS: Does the answer solve the core problem?" +:+ nl +:+
  "2. COMPLETENESS: Are all requirements addressed?" +:+ nl +:+
  "3. ACCURACY: Are the details and facts correct?" +:+ nl +:+
  "4. CLARITY: Is the answer clear and well-structured?" +:+ nl +:+
  nl +:+
  "RESPONSE FORMAT:" +:+ nl +:+
  "You must respond with exactly this JSON structure:" +:+ nl +:+
  "{" +:+ nl +:+
  "  " +:+ in_quotes "verdict" +:+ ": " +:+ in_quotes "PASS" +:+ " or " +:+ in_quotes "FAIL" +:+ "," +:+ nl +:+
  "  " +:+ in_quotes "reasoning" +:+ ": " +:+
     in_quotes "Brief explanation of your decision (2-3 sentences)" +:+ "," +:+ nl +:+
  "  " +:+ in_quotes "score" +:+ ": 0-100" +:+ nl +:+
  "}" +:+ nl +:+
  nl +:+
  "PROBLEM: " +:+ prompt +:+ nl +:+
  nl +:+
  "EXPECTED ANSWER: " +:+ expected +:+ nl +:+
  nl +:+
  "CANDIDATE ANSWER: " +:+ output +:+ nl +:+
  nl +:+
  "Evaluate the candidate answer and respond with the JSON format above:".

Definition judge_messages (prompt : string) (expected_answer : option string) (output : string)
    : list ChatMessage :=
  [ {| msg_role := system;
       content := "You are an expert AI evaluator. Always respond with valid JSON in the exact format requested." |};
    {| msg_role := user; content := judgePrompt prompt expected_answer output |} ].

End Judge.

(** ** The worker: [processModelForProblem] *)

(** What the engine does to the outside, in order: a statement on
    [run_results], or an event handed to [emitSSE]. *)
Inductive effect : Type :=
| Write (w : Sql.rr_write)
| Emit (event : string) (data : json).

(** The columns the scheduler selects of a model row ([id], [provider_id],
    [model_id]); the worker also reads [label], which such a row does not
    have. *)
Record ModelRef := {
  ref_id : string;
  ref_provider_id : string;
  ref_model_id : string;
}.

Definition model_ref (m : Model.t) : ModelRef :=
  {| ref_id := Model.id m; ref_provider_id := Model.provider_id m;
     ref_model_id := Model.model_id m |}.

Module Worker.

Import JsString.

(** The places where a worker reads [signal.aborted], and the steps of its
    two adapter calls. *)
Inductive checkpoint :=
| BeforeProblem
| AtStart
| CandidateStep (attempt step : nat)
| AfterFallbackCall
| AfterCall
| BeforeJudge
| JudgeStep (attempt step : nat)
| InCatch.

(** What the outside supplies while one model works on one problem. *)
Record env := {
  (** the store as the worker finds it, and as the judge call finds it *)
  store : Db;
  store_at_judge : Db;
  (** [genId()] and the readings of [now()] *)
  rrId : string;
  inserted_at : Z;
  cancelled_time : Z;
  (** [flag c p]: the controller at address [c] reads aborted at [p] *)
  flag : nat -> checkpoint -> bool;
  candidate_net : Http.Net;
  judge_net : Http.Net;
}.

Definition system_prompt (p : Problem.t) : string :=
  if Problem.is_html p
  then "You are a helpful assistant that returns HTML/CSS/JS when asked. Keep responses concise."
  else "You are a helpful assistant.".

Definition kind_name (p : Problem.t) : string := if Problem.is_html p then "html" else "text".

Definition stream_flag (run : Run.t) : json := JNum (if Run.stream run then 1 else 0) 0.

(** Event payloads; [model_name] is [model.label], which is [undefined]
    on the rows the scheduler passes and so absent from the payload. *)
Definition payload (runId : string) (problem : Problem.t) (model : ModelRef)
    (more : Adapter.obj) : json :=
  Adapter.stringified
    ([("run_id", Some (JStr runId)); ("problem_id", Some (JStr (Problem.id problem)));
      ("model_id", Some (JStr (ref_id model))); ("model_name", None)] ++ more)%list.

Definition bind_error : JsError :=
  {| message := "SQLite3 can only bind numbers, strings, bigints, buffers, and null" |}.

Definition moment_checkpoint (m : Adapter.moment) : checkpoint :=
  match m with
  | Adapter.InStream k s => CandidateStep k s
  | Adapter.AfterFallback => AfterFallbackCall
  end.

Section Process.
Variable e : env.
Variable runId : string.
Variable problem : Problem.t.
Variable model judgeModel : ModelRef.
Variable run : Run.t.
(** the [abortSignal] argument: the address of its controller *)
Variable abortSignal : option nat.

Definition aborted (p : checkpoint) : bool :=
  match abortSignal with
  | Some c => flag e c p
  | None => false
  end.

Definition new_row : RunResult.t :=
  {| RunResult.id := rrId e; RunResult.run_id := runId;
     RunResult.problem_id := Problem.id problem; RunResult.model_id := ref_id model;
     RunResult.output := None; RunResult.score := SqlNull;
     RunResult.status := if Problem.is_html problem then ResultStatus.manual
                         else ResultStatus.pending;
     RunResult.judged_by := None; RunResult.judge_reasoning := SqlNull;
     RunResult.created_at := inserted_at e; RunResult.cancelled_at := None |}.

Definition mark_cancelled : effect := Write (Sql.SetCancelled (rrId e) (cancelled_time e)).

(** The [catch] block. *)
Definition on_error (error : JsError) : list effect :=
  if aborted InCatch then
    [mark_cancelled; Emit "model_cancelled" (payload runId problem model [])]
  else
    [Write (Sql.SetError (rrId e));
     Emit "model_error" (payload runId problem model
       [("error", Some (JStr (message error))); ("streaming", Some (stream_flag run))])].

Definition candidate_messages : list ChatMessage :=
  [ {| msg_role := system; content := system_prompt problem |};
    {| msg_role := user; content := Problem.prompt problem |} ].

Definition token_event (delta : json) : effect :=
  Emit "candidate_token" (payload runId problem model
    [("delta", Some delta); ("kind", Some (JStr (kind_name problem)))]).

(** The [onToken] callback: nothing once the signal reads aborted. *)
Definition onToken (t : Adapter.moment * json) : list effect :=
  if aborted (moment_checkpoint (fst t)) then [] else [token_event (snd t)].

(** The judge step, from the candidate's output on. *)
Definition judge (output : string) : list effect :=
  if aborted BeforeJudge then [mark_cancelled] else
  let c := Adapter.callModel (store_at_judge e) (judge_net e)
             (fun c k s => flag e c (JudgeStep k s))
             (ref_provider_id judgeModel) (ref_model_id judgeModel)
             (Judge.judge_messages (Problem.prompt problem) (Problem.expected_answer problem) output) in
  match Adapter.returned c with
  | Thrown error => on_error error
  | Returned verdictText =>
      let v := Judge.parse_verdict verdictText in
      match bind (Judge.score v), bind (Judge.reasoning v) with
      | Some score, Some reasoning =>
          [Write (Sql.SetJudged (rrId e) output score (ref_id judgeModel) reasoning);
           Emit "judge_done" (Adapter.stringified
             [("run_id", Some (JStr runId)); ("problem_id", Some (JStr (Problem.id problem)));
              ("model_id", Some (JStr (ref_id model)));
              ("verdict", Some (JStr (if Judge.pass v then "PASS" else "FAIL")));
              ("reasoning", Some (Judge.reasoning v)); ("score", Some (Judge.score v))])]
      | _, _ => on_error bind_error
      end
  end.

(** After the candidate call returned [output]. *)
Definition after_call (output : string) : list effect :=
  if aborted AfterCall then [mark_cancelled] else
  Write (Sql.SetOutput (rrId e) output) ::
  (if Problem.is_html problem
   then [Emit "html_candidate_done" (payload runId problem model [("html", Some (JStr output))])]
   else Emit "candidate_done" (payload runId problem model [("text", Some (JStr output))])
        :: judge output).

(** The [try] block, given the provider row the worker looked up. *)
Definition attempt_problem (provider : option Provider.t) : list effect :=
  if aborted AtStart then [mark_cancelled] else
  Emit "model_started" (payload runId problem model
    [("attempt", Some (JNum 1 0)); ("streaming", Some (stream_flag run))]) ::
  (if Run.stream run
   then [Emit "model_streaming_started" (payload runId problem model [])] else []) ++
  match provider with
  | None => on_error {| message := "Cannot read properties of undefined (reading 'id')" |}
  | Some p =>
      let sched := fun c k s => flag e c (CandidateStep k s) in
      if Run.stream run then
        let c := Adapter.callModelWithStreaming (store e) (candidate_net e) sched
                   (Provider.id p) (ref_model_id model) candidate_messages in
        flat_map onToken (Adapter.tokens c) ++
        match Adapter.returned c with
        | Thrown error => on_error error
        | Returned output => after_call output
        end
      else
        let c := Adapter.callModel (store e) (candidate_net e) sched
                   (Provider.id p) (ref_model_id model) candidate_messages in
        match Adapter.returned c with
        | Thrown error => on_error error
        | Returned output => token_event (JStr output) :: after_call output
        end
  end.

(** The whole function: its effects, and whether its promise resolves
    or rejects (an error outside the [try]). *)
Definition processModelForProblem : list effect * outcome unit :=
  if existsb (Sql.result_by_id (rrId e)) (run_results (store e)) then
    ([], Thrown {| message := "UNIQUE constraint failed: run_results.id" |})
  else if negb (Sql.insert_allowed (store e) new_row) then
    ([], Thrown {| message := "FOREIGN KEY constraint failed" |})
  else
    match Sql.get (Sql.model_by_id (ref_id model)) (models (store e)) with
    | None =>
        ([Write (Sql.InsertResult new_row)],
         Thrown {| message := "Cannot read properties of undefined (reading 'provider_id')" |})
    | Some m =>
        (Write (Sql.InsertResult new_row) ::
         attempt_problem (Sql.get (Sql.provider_by_id (Model.provider_id m)) (providers (store e))),
         Returned tt)
    end.
End Process.

End Worker.

(** ** HTTP replies of the routes *)

Inductive reply : Type :=
| Reply (code : nat) (body : json)
| Refuse (code : nat) (reason : string).

Definition run_status_event (id : string) (s : RunStatus.t) : effect :=
  Emit "run_status" (JObj [("run_id", JStr id); ("status", JStr (RunStatus.to_string s))]).

(** ** The scheduler: [POST /api/runs/:id/execute] *)

Module Scheduler.

Import JsString.

(** What the handler has in hand when it acknowledges the request: the run
    row it read, the candidate model rows that still exist, and the
    problems it loaded. *)
Record launch := {
  run : Run.t;
  candidates : list ModelRef;
  loaded : list Problem.t;
}.

(** [SELECT * FROM problems WHERE problem_set_id = ?], as the handler
    issues it. *)
Definition load_problems (db : Db) (problem_set_id : string) : list Problem.t :=
  Sql.all (Sql.problem_in_set problem_set_id) (problems db).

Definition resolve_models (db : Db) (ids : list string) : list ModelRef :=
  omap (fun mid => model_ref <$> Sql.get (Sql.model_by_id mid) (models db)) ids.

(** The synchronous part of the handler: the reply, the store afterwards,
    the event published, and the work it detaches (if any). *)
Definition execute (db : Db) (id : string) : reply * Db * list effect * option launch :=
  match Sql.get (Sql.run_by_id id) (runs db) with
  | None => (Refuse 404 "Run not found", db, [], None)
  | Some r =>
      match Run.status r with
      | RunStatus.running => (Refuse 409 "Run already running", db, [], None)
      | _ =>
          if String.eqb (trim (Run.judge_model_id r)) EmptyString then
            (Refuse 400 "Run is missing judge_model_id; AI judge is required", db, [], None)
          else
            let models := resolve_models db (Run.model_ids r) in
            let problems := load_problems db (Run.problem_set_id r) in
            (Reply 202 (JObj [("id", JStr id); ("status", JStr "running")]),
             with_runs (Sql.update (Sql.run_by_id id) (Run.set_status RunStatus.running) (runs db)) db,
             [run_status_event id RunStatus.running],
             Some {| run := r; candidates := models; loaded := problems |})
      end
  end.

(** What the outside supplies to the detached work: the controller
    addresses, one worker environment per candidate (by position) and
    problem (by position), and whether the run controller reads aborted
    once all workers have settled. *)
Record job_env := {
  run_controller : nat;
  model_controller : nat -> nat;
  worker_env : nat -> nat -> Worker.env;
  aborted_at_end : bool;
}.

Section Job.
Variable je : job_env.
Variable l : launch.
Variable judgeModel : ModelRef.

(** The [for (const problem of problems)] loop of the candidate at
    position [m], from the problem at position [i] on.  A rejected
    [processModelForProblem] is logged and the loop goes on. *)
Fixpoint process_from (m : nat) (model : ModelRef) (i : nat) (todo : list Problem.t)
    : list effect :=
  match todo with
  | [] => []
  | problem :: rest =>
      let e := worker_env je m i in
      if Worker.flag e (run_controller je) Worker.BeforeProblem ||
         Worker.flag e (model_controller je m) Worker.BeforeProblem
      then []
      else
        fst (Worker.processModelForProblem e (Run.id (run l)) problem model judgeModel (run l)
               (Some (model_controller je m)))
        ++ process_from m model (S i) rest
  end.

(** One sequential processor per candidate. *)
Definition modelProcessors : list (ModelRef * list effect) :=
  imap (fun m model => (model, process_from m model 0 (loaded l))) (candidates l).
End Job.

(** The detached work: what each candidate's processor did, the status
    the run is given at the end, and the event published with it.
    [later] is the store when the work starts. *)
Definition job (je : job_env) (l : launch) (later : Db)
    : list (ModelRef * list effect) * RunStatus.t * effect :=
  let id := Run.id (run l) in
  match Sql.get (Sql.model_by_id (Run.judge_model_id (run l))) (models later) with
  | None => ([], RunStatus.error, run_status_event id RunStatus.error)
  | Some jm =>
      let final := if aborted_at_end je then RunStatus.cancelled else RunStatus.completed in
      (modelProcessors je l (model_ref jm), final, run_status_event id final)
  end.

End Scheduler.

(** ** Other routes *)

Module Routes.

(** [ORDER BY created_at ASC] *)
Definition created_le (a b : Problem.t) : Prop := Problem.created_at a <= Problem.created_at b.

#[global] Instance created_le_dec : RelDecision created_le :=
  fun a b => Z_le_dec (Problem.created_at a) (Problem.created_at b).

(** [GET /api/problems?problemSetId=...].  The handler tests the query
    parameter with [if (problemSetId)]: an empty parameter, like a
    missing one (for which the empty string stands here too), selects
    the problems of every set. *)
Definition list_problems (db : Db) (problemSetId : string) : list Problem.t :=
  if String.eqb problemSetId EmptyString
  then Sql.order_by created_le (problems db)
  else Sql.order_by created_le (Sql.all (Sql.problem_in_set problemSetId) (problems db)).

(** [POST /api/runs/:id/cancel]; [t1], [t2] are the two readings of
    [now()]. *)
Definition cancel_run (db : Db) (reg : Cancellation.registry) (id : string) (t1 t2 : Z)
    : reply * Db * Cancellation.registry * list effect :=
  match Sql.get (Sql.run_by_id id) (runs db) with
  | None => (Refuse 404 "Run not found", db, reg, [])
  | Some r =>
      match Run.status r with
      | RunStatus.running | RunStatus.queued =>
          let '(reg', cancelled) := Cancellation.cancelRun id reg in
          let db1 := with_runs (Sql.update (Sql.run_by_id id) (Run.set_cancelled t1 "user") (runs db)) db in
          let db2 := with_run_results (Sql.exec (Sql.CancelOpenOfRun id t2) (run_results db1)) db1 in
          (Reply 200 (JObj [("id", JStr id); ("status", JStr "cancelled");
                            ("cancelled", JBool cancelled)]),
           db2, reg',
           [run_status_event id RunStatus.cancelled;
            Emit "run_cancelled" (JObj [("run_id", JStr id); ("cancelled_by", JStr "user")])])
      | _ => (Refuse 400 "Can only cancel running or queued runs", db, reg, [])
      end
  end.

(** [POST /api/runs/:runId/models/:modelId/cancel] *)
Definition cancel_model (db : Db) (reg : Cancellation.registry) (runId modelId : string) (t : Z)
    : reply * Db * Cancellation.registry * list effect :=
  match Sql.get (Sql.run_by_id runId) (runs db) with
  | None => (Refuse 404 "Run not found", db, reg, [])
  | Some r =>
      match Run.status r with
      | RunStatus.running =>
          if negb (existsb (String.eqb modelId) (Run.model_ids r)) then
            (Refuse 400 "Model not part of this run", db, reg, [])
          else
            let '(reg', cancelled) := Cancellation.cancelModel runId modelId reg in
            (Reply 200 (JObj [("runId", JStr runId); ("modelId", JStr modelId);
                              ("status", JStr "cancelled"); ("cancelled", JBool cancelled)]),
             with_run_results (Sql.exec (Sql.CancelOpenOfModel runId modelId t) (run_results db)) db,
             reg',
             [Emit "model_cancelled" (JObj [("run_id", JStr runId); ("model_id", JStr modelId);
                                            ("cancelled_by", JStr "user")])])
      | _ => (Refuse 400 "Can only cancel models in running runs", db, reg, [])
      end
  end.

(** The score a manual review stores. *)
Definition review_score (decision : string) : sqlval :=
  SqlNum (if String.eqb decision "pass" then 100 else 0) 0.

(** [POST /api/run-results/:id/review] with body [{ decision }]. *)
Definition review (db : Db) (id : string) (decision : string) : reply * Db :=
  if negb (String.eqb decision "pass" || String.eqb decision "fail") then
    (Refuse 400 "Invalid decision", db)
  else
    match Sql.get (Sql.result_by_id id) (run_results db) with
    | None => (Refuse 404 "Result not found", db)
    | Some row =>
        match Sql.get (Sql.problem_by_id (RunResult.problem_id row)) (problems db) with
        | Some p =>
            if Problem.is_html p then
              (Reply 200 (JObj [("id", JStr id); ("status", JStr "completed")]),
               with_run_results (Sql.exec (Sql.SetReviewed id (review_score decision))
                                          (run_results db)) db)
            else (Refuse 400 "Only HTML results can be manually reviewed", db)
        | None => (Refuse 400 "Only HTML results can be manually reviewed", db)
        end
    end.

(** [db.transaction(fn)()]: the statements of [fn] in order, all or
    nothing.  [fails_at = Some k] makes statement [k] throw (the store
    refusing it for a reason of its own), which rolls everything back. *)
Definition transaction (stmts : list (Db -> Db)) (fails_at : option nat) (db : Db) : outcome Db :=
  match fails_at with
  | Some k => if (k <? length stmts)%nat
              then Thrown {| message := "SqliteError" |}
              else Returned (foldl (fun d f => f d) db stmts)
  | None => Returned (foldl (fun d f => f d) db stmts)
  end.

Definition delete_results (w : Sql.rr_write) (db : Db) : Db :=
  with_run_results (Sql.exec w (run_results db)) db.

(** [DELETE /api/problem-sets/:id]: the reply (or the error the handler
    lets through) and the store afterwards. *)
Definition delete_problem_set (db : Db) (id : string) (fails_at : option nat)
    : outcome reply * Db :=
  match Sql.get (fun s => String.eqb (ProblemSet.id s) id) (problem_sets db) with
  | None => (Returned (Refuse 404 "Problem set not found"), db)
  | Some _ =>
      let runs_ := Sql.all (Sql.run_in_set id) (runs db) in
      let problemIds := Sql.all (Sql.problem_in_set id) (problems db) in
      let fkWasOn := foreign_keys db in
      let db0 := if fkWasOn then with_foreign_keys false db else db in
      let stmts :=
        (List.map (fun p => delete_results (Sql.DeleteOfProblem (Problem.id p))) problemIds ++
         List.map (fun r => delete_results (Sql.DeleteOfRun (Run.id r))) runs_ ++
         [ (fun d => with_runs (Sql.delete (Sql.run_in_set id) (runs d)) d);
           (fun d => with_problems (Sql.delete (Sql.problem_in_set id) (problems d)) d);
           (fun d => with_problem_sets
              (Sql.delete (fun s => String.eqb (ProblemSet.id s) id) (problem_sets d)) d) ])%list in
      let restore d := if fkWasOn then with_foreign_keys true d else d in
      match transaction stmts fails_at db0 with
      | Returned db1 => (Returned (Reply 204 JNull), restore db1)
      | Thrown err => (Thrown err, restore db0)
      end
  end.

End Routes.

(** * Vocabulary of the properties *)

(** ** Replies and statuses *)

(** A reply that is not a refusal. *)
Definition accepted (r : reply) : Prop :=
  match r with Reply _ _ => True | Refuse _ _ => False end.

(** The status the run [id] has in [db], if the run exists. *)
Definition status_of_run (db : Db) (id : string) : option RunStatus.t :=
  Run.status <$> Sql.get (Sql.run_by_id id) (runs db).

Definition open_status (s : ResultStatus.t) : Prop :=
  s = ResultStatus.pending \/ s = ResultStatus.manual.

Definition terminal_status (s : ResultStatus.t) : Prop :=
  s = ResultStatus.completed \/ s = ResultStatus.cancelled \/ s = ResultStatus.error.

(** ** Rows before and after a route *)

(** How a row [new] relates to the row [old] it was before run [id] was
    cancelled at clock reading [t]. *)
Definition open_rows_cancelled (id : string) (t : Z) (old new : RunResult.t) : Prop :=
  (RunResult.run_id old = id -> open_status (RunResult.status old) ->
   new = RunResult.set_cancelled t old /\
   RunResult.status new = ResultStatus.cancelled /\
   RunResult.cancelled_at new = Some t /\
   RunResult.id new = RunResult.id old /\
   RunResult.output new = RunResult.output old /\
   RunResult.score new = RunResult.score old) /\
  (RunResult.run_id old <> id \/ terminal_status (RunResult.status old) -> new = old).

(** How a row [new] relates to the row [old] it was before the result [id]
    was reviewed with [decision]. *)
Definition reviewed_as (id decision : string) (old new : RunResult.t) : Prop :=
  if String.eqb (RunResult.id old) id then
    new = RunResult.set_reviewed (Routes.review_score decision) old /\
    RunResult.score new = SqlNum (if String.eqb decision "pass" then 100 else 0) 0 /\
    RunResult.status new = ResultStatus.completed /\
    RunResult.judged_by new = Some "human"
  else new = old.

(** The rows of [db] that belong to problem set [id], directly or through
    a run or a problem of the set. *)
Definition result_of_set (db : Db) (id : string) (rr : RunResult.t) : Prop :=
  (exists r, In r (runs db) /\ Run.problem_set_id r = id /\ Run.id r = RunResult.run_id rr) \/
  (exists p, In p (problems db) /\ Problem.problem_set_id p = id /\
             Problem.id p = RunResult.problem_id rr).

(** [db'] is [db] without problem set [id] and everything that hangs on
    it, and with nothing else removed or changed. *)
Definition cascade_done (id : string) (db db' : Db) : Prop :=
  providers db' = providers db /\
  models db' = models db /\
  (forall s, In s (problem_sets db') <-> In s (problem_sets db) /\ ProblemSet.id s <> id) /\
  (forall p, In p (problems db') <-> In p (problems db) /\ Problem.problem_set_id p <> id) /\
  (forall r, In r (runs db') <-> In r (runs db) /\ Run.problem_set_id r <> id) /\
  (forall rr, In rr (run_results db') <-> In rr (run_results db) /\ ~ result_of_set db id rr).

(** ** Adapter calls *)

(** The request carries no abort signal. *)
Definition unwired (req : Http.Request) : Prop := Http.signal req = None.

(** The request asks for a streamed answer: its body has [stream: true]. *)
Definition asks_to_stream (req : Http.Request) : bool :=
  match Js.opt_prop (Some (Http.body req)) "stream" with
  | Some (JBool true) => true
  | _ => false
  end.

(** A call through the fallback of [callModelWithStreaming]: the call
    [c] that [callModel] made, with its result handed to [onToken] once. *)
Definition as_single_token (c : Adapter.call) : Adapter.call :=
  match Adapter.returned c with
  | Returned result =>
      {| Adapter.returned := Returned result;
         Adapter.tokens := [(Adapter.AfterFallback, JStr result)];
         Adapter.sent := Adapter.sent c; Adapter.slept := Adapter.slept c |}
  | Thrown _ => c
  end.

(** The flag at address [c] after the controllers at [cs] were aborted. *)
Definition abort_all_flag (cs : list nat) (flags : list bool) (c : nat) : bool :=
  default false (Cancellation.abort_all cs flags !! c).

(** The [score] field of a judge response that parses as JSON. *)
Definition score_field (verdictText : string) : jsval :=
  match Json.parse (JsString.trim verdictText) with
  | Some judgeResponse => Js.opt_prop (Some judgeResponse) "score"
  | None => None
  end.

(** ** Effects of a worker *)

Definition writes_of (effects : list effect) : list Sql.rr_write :=
  omap (fun eff => match eff with Write w => Some w | Emit _ _ => None end) effects.

(** A short name for an effect: the event's name, or the kind of
    statement. *)
Definition label_of (eff : effect) : string :=
  match eff with
  | Emit event _ => event
  | Write (Sql.InsertResult _) => "INSERT"
  | Write (Sql.SetCancelled _ _) => "SET cancelled"
  | Write (Sql.SetOutput _ _) => "SET output"
  | Write (Sql.SetJudged _ _ _ _ _) => "SET judged"
  | Write (Sql.SetError _) => "SET error"
  | Write (Sql.SetReviewed _ _) => "SET reviewed"
  | Write (Sql.CancelOpenOfRun _ _) => "cancel open of run"
  | Write (Sql.CancelOpenOfModel _ _ _) => "cancel open of model"
  | Write (Sql.DeleteOfRun _) => "DELETE of run"
  | Write (Sql.DeleteOfProblem _) => "DELETE of problem"
  end.

(** The problem an effect is about, where the effect says so: the row an
    insert stores, and the [problem_id] of an event. *)
Definition problem_of_effect (eff : effect) : option string :=
  match eff with
  | Write (Sql.InsertResult row) => Some (RunResult.problem_id row)
  | Write _ => None
  | Emit _ data =>
      match Js.opt_prop (Some data) "problem_id" with
      | Some (JStr p) => Some p
      | _ => None
      end
  end.

(** The effect names [problem], or names no problem. *)
Definition about (problem : Problem.t) (eff : effect) : Prop :=
  problem_of_effect eff = None \/ problem_of_effect eff = Some (Problem.id problem).

(** [seen] names problems in the order of [ids]: it is made of a run of the
    first id (possibly empty), then a run of the second, and so on. *)
Inductive in_order_of : list string -> list string -> Prop :=
| order_done (ids : list string) : in_order_of ids []
| order_same (id : string) (ids seen : list string) :
    in_order_of (id :: ids) seen -> in_order_of (id :: ids) (id :: seen)
| order_next (id : string) (ids seen : list string) :
    in_order_of ids seen -> in_order_of (id :: ids) seen.

(** ** Scores and statuses of results *)

(** The number [m * 10^e] is a whole number between 0 and 100. *)
Definition is_percentage (v : sqlval) : bool :=
  match v with
  | SqlNum m e =>
      if 0 <=? e then (0 <=? m * 10 ^ e) && (m * 10 ^ e <=? 100)
      else (m mod 10 ^ (- e) =? 0) && (0 <=? m / 10 ^ (- e)) && (m / 10 ^ (- e) <=? 100)
  | _ => false
  end.

Definition completed_has_score (r : RunResult.t) : Prop :=
  RunResult.status r = ResultStatus.completed -> RunResult.score r <> SqlNull.

Definition score_iff_completed (r : RunResult.t) : Prop :=
  RunResult.score r <> SqlNull <-> RunResult.status r = ResultStatus.completed.

(** The statements one call of [processModelForProblem] can run. *)
Inductive worker_write (e : Worker.env) : Sql.rr_write -> Prop :=
| ww_insert (row : RunResult.t) :
    RunResult.id row = Worker.rrId e ->
    RunResult.score row = SqlNull ->
    open_status (RunResult.status row) ->
    worker_write e (Sql.InsertResult row)
| ww_cancelled :
    worker_write e (Sql.SetCancelled (Worker.rrId e) (Worker.cancelled_time e))
| ww_output (output : string) :
    worker_write e (Sql.SetOutput (Worker.rrId e) output)
| ww_judged (verdictText output judged_by : string) (score reasoning : sqlval) :
    bind (Judge.score (Judge.parse_verdict verdictText)) = Some score ->
    worker_write e (Sql.SetJudged (Worker.rrId e) output score judged_by reasoning)
| ww_error :
    worker_write e (Sql.SetError (Worker.rrId e)).

(** The statements the server runs against [run_results], each with the
    values the code binds to it. *)
Inductive issued : Sql.rr_write -> Prop :=
| by_worker (e : Worker.env) (runId : string) (problem : Problem.t) (model judgeModel : ModelRef)
    (run : Run.t) (abortSignal : option nat) (w : Sql.rr_write) :
    In (Write w)
       (fst (Worker.processModelForProblem e runId problem model judgeModel run abortSignal)) ->
    issued w
| by_review (id decision : string) :
    issued (Sql.SetReviewed id (Routes.review_score decision))
| by_cancel_run (id : string) (t : Z) :
    issued (Sql.CancelOpenOfRun id t)
| by_cancel_model (runId modelId : string) (t : Z) :
    issued (Sql.CancelOpenOfModel runId modelId t)
| by_delete_of_run (id : string) :
    issued (Sql.DeleteOfRun id)
| by_delete_of_problem (id : string) :
    issued (Sql.DeleteOfProblem id).

(** The worker's own cancellation and error updates go by row id, whatever
    the row's status; this says that the row they address is not a
    completed one. *)
Definition spares_completed (w : Sql.rr_write) (rows : list RunResult.t) : Prop :=
  match w with
  | Sql.SetCancelled id _ | Sql.SetError id =>
      forall r, In r rows -> RunResult.id r = id -> RunResult.status r <> ResultStatus.completed
  | _ => True
  end.

(** What is known of the score a statement writes. *)
Definition score_written (w : Sql.rr_write) : Prop :=
  match w with
  | Sql.InsertResult row => RunResult.score row = SqlNull /\ open_status (RunResult.status row)
  | Sql.SetReviewed _ score => score = SqlNum 100 0 \/ score = SqlNum 0 0
  | Sql.SetJudged _ _ score _ _ =>
      score <> SqlNull /\
      exists verdictText,
        bind (Judge.score (Judge.parse_verdict verdictText)) = Some score /\
        (Json.parse (JsString.trim verdictText) = None ->
         score = SqlNum 100 0 \/ score = SqlNum 0 0)
  | _ => True
  end.

(** * Sample data *)

(** ** A sample store *)

Module Sample.

Definition provider1 : Provider.t :=
  {| Provider.id := "prov-1"; Provider.name := "Claude"; Provider.adapter := "claude";
     Provider.base_url := "https://api.example.test/"; Provider.api_key_enc := Some "k" |}.

Definition provider2 : Provider.t :=
  {| Provider.id := "prov-2"; Provider.name := "OpenAI"; Provider.adapter := "openai_compat";
     Provider.base_url := "https://oai.example.test/v1"; Provider.api_key_enc := None |}.

Definition model1 : Model.t :=
  {| Model.id := "model-1"; Model.provider_id := "prov-1"; Model.label := "Candidate";
     Model.model_id := "vendor-a"; Model.settings := None |}.

Definition model2 : Model.t :=
  {| Model.id := "model-2"; Model.provider_id := "prov-2"; Model.label := "Judge";
     Model.model_id := "vendor-b"; Model.settings := None |}.

Definition set1 : ProblemSet.t :=
  {| ProblemSet.id := "set-1"; ProblemSet.name := "Arithmetic"; ProblemSet.created_at := 1 |}.

Definition set2 : ProblemSet.t :=
  {| ProblemSet.id := "set-2"; ProblemSet.name := "Pages"; ProblemSet.created_at := 2 |}.

(** [problemA] was stored first but carries the later [created_at]. *)
Definition problemA : Problem.t :=
  {| Problem.id := "prob-a"; Problem.problem_set_id := "set-1"; Problem.type := "text";
     Problem.prompt := "2+2?"; Problem.expected_answer := Some "4"; Problem.created_at := 2000 |}.

Definition problemB : Problem.t :=
  {| Problem.id := "prob-b"; Problem.problem_set_id := "set-1"; Problem.type := "text";
     Problem.prompt := "3+3?"; Problem.expected_answer := Some "6"; Problem.created_at := 1000 |}.

Definition problemH : Problem.t :=
  {| Problem.id := "prob-h"; Problem.problem_set_id := "set-2"; Problem.type := "html";
     Problem.prompt := "write a red button"; Problem.expected_answer := None;
     Problem.created_at := 3000 |}.

Definition run1 : Run.t :=
  {| Run.id := "run-1"; Run.name := None; Run.problem_set_id := "set-1";
     Run.model_ids := ["model-1"]%string; Run.judge_model_id := "model-2";
     Run.status := RunStatus.running; Run.created_at := 10; Run.stream := true;
     Run.cancelled_at := None; Run.cancelled_by := None |}.

Definition run2 : Run.t :=
  {| Run.id := "run-2"; Run.name := None; Run.problem_set_id := "set-2";
     Run.model_ids := ["model-1"]%string; Run.judge_model_id := "model-2";
     Run.status := RunStatus.completed; Run.created_at := 20; Run.stream := false;
     Run.cancelled_at := None; Run.cancelled_by := None |}.

(** A queued run over [set-1], without streaming. *)
Definition run3 : Run.t :=
  {| Run.id := "run-3"; Run.name := None; Run.problem_set_id := "set-1";
     Run.model_ids := ["model-1"]%string; Run.judge_model_id := "model-2";
     Run.status := RunStatus.queued; Run.created_at := 25; Run.stream := false;
     Run.cancelled_at := None; Run.cancelled_by := None |}.

Definition result (id run problem : string) (st : ResultStatus.t) (sc : sqlval) : RunResult.t :=
  {| RunResult.id := id; RunResult.run_id := run; RunResult.problem_id := problem;
     RunResult.model_id := "model-1"; RunResult.output := None; RunResult.score := sc;
     RunResult.status := st; RunResult.judged_by := None; RunResult.judge_reasoning := SqlNull;
     RunResult.created_at := 30; RunResult.cancelled_at := None |}.

Definition db : Db :=
  {| providers := [provider1; provider2];
     models := [model1; model2];
     problem_sets := [set1; set2];
     problems := [problemA; problemB; problemH];
     runs := [run1; run2; run3];
     run_results :=
       [ result "rr-1" "run-1" "prob-a" ResultStatus.pending SqlNull;
         result "rr-2" "run-1" "prob-b" ResultStatus.completed (SqlNum 100 0);
         result "rr-3" "run-2" "prob-h" ResultStatus.manual SqlNull;
         result "rr-4" "run-2" "prob-h" ResultStatus.cancelled SqlNull ];
     foreign_keys := true |}.

End Sample.

(** The sample store with the adapter of provider [prov-1] spelled [a]. *)
Definition store_with_adapter (a : string) : Db :=
  {| providers :=
       [ {| Provider.id := "prov-1"; Provider.name := "Claude"; Provider.adapter := a;
            Provider.base_url := "https://api.example.test/"; Provider.api_key_enc := Some "k" |};
         Sample.provider2 ];
     models := models Sample.db; problem_sets := problem_sets Sample.db;
     problems := problems Sample.db; runs := runs Sample.db;
     run_results := run_results Sample.db; foreign_keys := true |}.

(** ** Sample providers and environments *)

Module Servers.

Import JsString.

Definition lf : string := String "010" EmptyString.

Definition answer (chunks : list string) : outcome Http.Response :=
  Returned {| Http.status := 200;
              Http.body_of := Some {| Http.chunks := chunks; Http.failure := None |} |}.

Definition syntax_error (_ : string) : JsError := {| message := "Unexpected token" |}.

(** An Anthropic-style provider: a request with [stream: true] is answered
    with an event stream in three chunks, any other with one JSON
    envelope. *)
Definition anthropic : Http.Net :=
  {| Http.respond := fun req _ =>
       if asks_to_stream req then
         answer [ quoting "data: {'type':'content_block_delta','delta':{'text':'Hel";
                  quoting "lo'}}" +:+ lf +:+ lf +:+
                  quoting "data: {'type':'content_block_delta','delta':{'text':' world'}}" +:+ lf;
                  lf +:+ "data: [DONE]" +:+ lf ]
       else answer [ quoting "{'content':[{'type':'text','text':'Hello world'}]}" ];
     Http.syntax_error := syntax_error |}.

(** An OpenAI-style provider, likewise. *)
Definition openai : Http.Net :=
  {| Http.respond := fun req _ =>
       if asks_to_stream req then
         answer [ quoting "data: {'choices':[{'delta':{'content':'Hello'}}]}" +:+ lf +:+ lf;
                  quoting "data: {'choices':[{'delta':{'content':' world'}}]}" +:+ lf +:+ lf;
                  "data: [DONE]" +:+ lf +:+ lf ]
       else answer [ quoting "{'choices':[{'message':{'role':'assistant','content':'Hello world'}}]}" ];
     Http.syntax_error := syntax_error |}.

(** A judge that answers every request with the same text. *)
Definition judge (verdictText : string) : Http.Net :=
  {| Http.respond := fun _ _ =>
       answer [ quoting "{'choices':[{'message':{'content':" +:+ verdictText +:+ "}}]}" ];
     Http.syntax_error := syntax_error |}.

End Servers.

(** A provider that refuses every request with 401. *)
Definition denying : Http.Net :=
  {| Http.respond := fun _ _ =>
       Returned {| Http.status := 401;
                   Http.body_of := Some {| Http.chunks := ["no key"]%string;
                                           Http.failure := None |} |};
     Http.syntax_error := Servers.syntax_error |}.

Definition hello : list ChatMessage :=
  [ {| msg_role := system; content := "You are a helpful assistant." |};
    {| msg_role := user; content := "Say hello" |} ].


Definition never_aborted : Http.schedule := fun _ _ _ => false.

(** A worker environment on the sample store in which no token is ever
    triggered; the new result gets the id [rr-9]. *)
Definition quiet (candidate judge : Http.Net) : Worker.env :=
  {| Worker.store := Sample.db; Worker.store_at_judge := Sample.db;
     Worker.rrId := "rr-9"; Worker.inserted_at := 40; Worker.cancelled_time := 41;
     Worker.flag := fun _ _ => false;
     Worker.candidate_net := candidate; Worker.judge_net := judge |}.

(** An environment for the work [execute] detaches on the sample store: no
    token is ever triggered, the candidate is the Anthropic-style server,
    the judge passes everything, and the result of problem number [i] gets
    the id [rr-new-i].  [st i] is the store when problem [i] is begun. *)
Definition calm_env (st : nat -> Db) : Scheduler.job_env :=
  {| Scheduler.run_controller := 0;
     Scheduler.model_controller := S;
     Scheduler.worker_env := fun _ i =>
       {| Worker.store := st i; Worker.store_at_judge := st i;
          Worker.rrId := "rr-new-" +:+ JsString.of_nat i;
          Worker.inserted_at := 100 + Z.of_nat i; Worker.cancelled_time := 0;
          Worker.flag := fun _ _ => false;
          Worker.candidate_net := Servers.anthropic;
          Worker.judge_net :=
            Servers.judge (JsString.quoting
              "'{\'verdict\':\'PASS\',\'reasoning\':\'fine\',\'score\':90}'") |};
     Scheduler.aborted_at_end := false |}.

(** * More of the server: routes that create, list and delete *)

Definition with_providers (ps : list Provider.t) (db : Db) : Db :=
  {| providers := ps; models := models db; problem_sets := problem_sets db;
     problems := problems db; runs := runs db; run_results := run_results db;
     foreign_keys := foreign_keys db |}.

Module Resources.

Import JsString.

(** [!v] for a field of the request that is a string when it is there. *)
Definition missing (v : option string) : bool :=
  match v with
  | Some s => String.eqb s EmptyString
  | None => true
  end.

(** ** Providers *)

(** The body of [POST /api/providers], as the handler types it. *)
Record provider_body := {
  pb_name : option string;
  pb_adapter : option string;
  pb_baseUrl : option string;
  pb_apiKey : option string;
}.

(** The adapter string the route stores: four spellings of the
    OpenAI-compatible adapter become [openai_compat], everything else is
    kept as given. *)
Definition stored_adapter (adapter : string) : string :=
  if existsb (String.eqb (Adapter.norm adapter))
       ["openaicompatible"; "oai"; "compatible"; "openai"]%string
  then "openai_compat" else adapter.

(** [POST /api/providers]; [id] is the generated id.  The columns
    [default_model] and [created_at] of the new row are not tracked. *)
Definition create_provider (db : Db) (body : provider_body) (id : string) : outcome reply * Db :=
  if missing (pb_name body) || missing (pb_adapter body) || missing (pb_baseUrl body) then
    (Returned (Refuse 400 "Missing required fields"), db)
  else if existsb (Sql.provider_by_id id) (providers db) then
    (Thrown {| message := "UNIQUE constraint failed: providers.id" |}, db)
  else
    (Returned (Reply 201 (JObj [("id", JStr id)])),
     with_providers
       (providers db ++
        [ {| Provider.id := id;
             Provider.name := default EmptyString (pb_name body);
             Provider.adapter := stored_adapter (default EmptyString (pb_adapter body));
             Provider.base_url :=
               Adapter.strip_trailing_slashes (default EmptyString (pb_baseUrl body));
             Provider.api_key_enc := pb_apiKey body |} ])%list db).

(** ** Deleting with a cascade *)






(** The two statements run for each run of a cascade:
    [DELETE FROM run_results WHERE run_id = ?] and
    [DELETE FROM runs WHERE id = ?]. *)
Definition delete_run_and_results (r : Run.t) : list (Db -> Db) :=
  [ Routes.delete_results (Sql.DeleteOfRun (Run.id r));
    (fun d => with_runs (Sql.delete (Sql.run_by_id (Run.id r)) (runs d)) d) ].


(** [DELETE /api/runs?problemSetId=...] *)
Definition delete_runs (db : Db) (problemSetId : option string) (fails_at : option nat)
    : outcome reply * Db :=
  if missing problemSetId then (Returned (Refuse 400 "problemSetId is required"), db)
  else
    let set := default EmptyString problemSetId in
    let runs_ := Sql.all (Sql.run_in_set set) (runs db) in
    let problemIds := Sql.all (Sql.problem_in_set set) (problems db) in
    let stmts :=
      (List.map (fun p => Routes.delete_results (Sql.DeleteOfProblem (Problem.id p))) problemIds ++
       flat_map delete_run_and_results runs_)%list in
    match Routes.transaction stmts fails_at db with
    | Returned db1 =>
        (Returned (Reply 200 (JObj [("deleted", JNum (Z.of_nat (length runs_)) 0)])), db1)
    | Thrown err => (Thrown err, db)
    end.



(** ** Runs *)

(** The body of [POST /api/runs] as the handler types it; [rb_modelIds]
    is [None] when the field is not an array. *)
Record run_body := {
  rb_name : option string;
  rb_problemSetId : option string;
  rb_modelIds : option (list string);
  rb_judgeModelId : option string;
  rb_stream : bool;
}.

(** [POST /api/runs]; [id] is the generated id and [t] the clock reading.
    With foreign keys enforced the store refuses a run whose problem set
    does not exist. *)
Definition create_run (db : Db) (body : run_body) (id : string) (t : Z) : outcome reply * Db :=
  if missing (rb_problemSetId body) ||
     match rb_modelIds body with Some (_ :: _) => false | _ => true end
  then (Returned (Refuse 400 "Missing problemSetId or modelIds"), db)
  else
    let judge := trim (default EmptyString (rb_judgeModelId body)) in
    if String.eqb judge EmptyString then
      (Returned (Refuse 400 "judgeModelId is required"), db)
    else
      match Sql.get (Sql.model_by_id judge) (models db) with
      | None => (Returned (Refuse 400 "judgeModelId not found"), db)
      | Some _ =>
          let set := default EmptyString (rb_problemSetId body) in
          if existsb (Sql.run_by_id id) (runs db) then
            (Thrown {| message := "UNIQUE constraint failed: runs.id" |}, db)
          else if foreign_keys db &&
                  negb (existsb (fun s => String.eqb (ProblemSet.id s) set) (problem_sets db))
          then (Thrown {| message := "FOREIGN KEY constraint failed" |}, db)
          else
            (Returned (Reply 201 (JObj [("id", JStr id)])),
             with_runs
               (runs db ++
                [ {| Run.id := id; Run.name := rb_name body; Run.problem_set_id := set;
                     Run.model_ids := default [] (rb_modelIds body);
                     Run.judge_model_id := judge; Run.status := RunStatus.queued;
                     Run.created_at := t; Run.stream := rb_stream body;
                     Run.cancelled_at := None; Run.cancelled_by := None |} ])%list db)
      end.

(** [ORDER BY created_at DESC] *)
Definition created_ge (a b : Run.t) : Prop := Run.created_at b <= Run.created_at a.

#[global] Instance created_ge_dec : RelDecision created_ge :=
  fun a b => Z_le_dec (Run.created_at b) (Run.created_at a).

(** A status the filter of [GET /api/runs] knows. *)
Definition known_status (s : string) : option RunStatus.t :=
  if String.eqb s "queued" then Some RunStatus.queued
  else if String.eqb s "running" then Some RunStatus.running
  else if String.eqb s "completed" then Some RunStatus.completed
  else if String.eqb s "error" then Some RunStatus.error
  else if String.eqb s "cancelled" then Some RunStatus.cancelled
  else None.

Definition status_eqb (a b : RunStatus.t) : bool :=
  String.eqb (RunStatus.to_string a) (RunStatus.to_string b).

(** [Number.isFinite(limitNum) ? Math.min(Math.max(limitNum, 1), 200) : 50];
    [limitNum] is the integer [parseInt] read, [None] when it read none. *)
Definition limit_of (limitNum : option Z) : Z :=
  match limitNum with
  | Some n => Z.min (Z.max n 1) 200
  | None => 50
  end.

(** [GET /api/runs?status=...&limit=...&problemSetId=...] *)
Definition list_runs (db : Db) (status : option string) (limitNum : option Z)
    (problemSetId : option string) : list Run.t :=
  let by_status (r : Run.t) :=
    match status ≫= known_status with
    | Some s => status_eqb (Run.status r) s
    | None => true
    end in
  let by_set (r : Run.t) :=
    if missing problemSetId then true
    else String.eqb (Run.problem_set_id r) (default EmptyString problemSetId) in
  take (Z.to_nat (limit_of limitNum))
       (Sql.order_by created_ge (Sql.all (fun r => by_status r && by_set r) (runs db))).

(** ** The CSV export *)

Definition is_special (c : ascii) : bool :=
  Ascii.eqb c dquote || Ascii.eqb c "," || Ascii.eqb c "010".

(** The test of [esc]: the text holds a double quote, a comma or a line
    feed. *)
Fixpoint needs_quotes (s : string) : bool :=
  match s with
  | EmptyString => false
  | String c r => is_special c || needs_quotes r
  end.

(** The replacement of [esc]: every double quote is written twice. *)
Fixpoint double_quotes (s : string) : string :=
  match s with
  | EmptyString => EmptyString
  | String c r =>
      if Ascii.eqb c dquote then String dquote (String dquote (double_quotes r))
      else String c (double_quotes r)
  end.

(** [esc(v)]: [None] is [null] or [undefined]. *)
Definition esc (v : option string) : string :=
  match v with
  | None => EmptyString
  | Some s => if needs_quotes s then in_quotes (double_quotes s) else s
  end.

(** One line of the export: the escaped values joined by commas. *)
Definition csv_line (values : list (option string)) : string :=
  Js.join "," (List.map esc values).

Definition header : list string :=
  ["result_id"; "run_id"; "problem_id"; "model_id"; "problem_type"; "problem_prompt";
   "status"; "score"; "judged_by"; "created_at"; "output"].

(** The body of [GET /api/runs/:id/results.csv]: the header line, written
    as it is, and one line for each row, joined by line feeds.  A row is
    given by the values handed to [esc], as [String(v)] writes them (the
    code hands over eleven). *)
Definition export (rows : list (list (option string))) : string :=
  Js.join (String "010" EmptyString) (Js.join "," header :: List.map csv_line rows).

End Resources.

(** ** Reading CSV back *)

(** A reader of CSV text in the usual convention.  Records end at a line
    break (a line feed, a carriage return, or the two in this order) that
    is not inside quotes, fields at a comma that is not inside quotes.  A
    field that starts with a double quote runs to the next double quote
    that is not doubled, and a doubled quote inside it stands for one.
    The reader works through the text one character at a time. *)
Inductive csv_state :=
| FieldStart   (** at the first character of a field *)
| Unquoted     (** inside a field that did not start with a quote *)
| Quoted       (** inside the quotes of a field *)
| QuoteSeen.   (** after a quote inside a quoted field *)

(** [field] holds the characters read of the current field, [record] the
    fields read of the current record, [records] the records read so far,
    each with the last one first. *)
Definition close_field (field : string) (record : list string) : list string :=
  String.rev field :: record.

Definition close_record (field : string) (record : list string)
    (records : list (list string)) : list (list string) :=
  rev (close_field field record) :: records.

(** [None] when the text is not well formed: a quote inside an unquoted
    field, a closing quote followed by something other than a comma or a
    line break, or quotes left open at the end.  Text that ends with a
    line break has no further record after it. *)
Fixpoint read_csv (st : csv_state) (field : string) (record : list string)
    (records : list (list string)) (s : string) : option (list (list string)) :=
  match s with
  | EmptyString =>
      match st, record with
      | Quoted, _ => None
      | FieldStart, [] => Some (rev records)
      | _, _ => Some (rev (close_record field record records))
      end
  | String c r =>
      match st with
      | Quoted =>
          if Ascii.eqb c JsString.dquote then read_csv QuoteSeen field record records r
          else read_csv Quoted (String c field) record records r
      | _ =>
          if Ascii.eqb c JsString.dquote then
            match st with
            | FieldStart => read_csv Quoted field record records r
            | QuoteSeen => read_csv Quoted (String c field) record records r
            | _ => None
            end
          else if Ascii.eqb c "," then
            read_csv FieldStart EmptyString (close_field field record) records r
          else if Ascii.eqb c "010" then
            read_csv FieldStart EmptyString [] (close_record field record records) r
          else if Ascii.eqb c "013" then
            match r with
            | String "010" r' =>
                read_csv FieldStart EmptyString [] (close_record field record records) r'
            | _ => read_csv FieldStart EmptyString [] (close_record field record records) r
            end
          else
            match st with
            | QuoteSeen => None
            | _ => read_csv Unquoted (String c field) record records r
            end
      end
  end.

Definition read_export (s : string) : option (list (list string)) :=
  read_csv FieldStart EmptyString [] [] s.

(** The text holds a carriage return that [esc] leaves outside quotes. *)
Fixpoint has_return (s : string) : bool :=
  match s with
  | EmptyString => false
  | String c r => Ascii.eqb c "013" || has_return r
  end.

Definition bare_return (v : option string) : bool :=
  match v with
  | Some s => has_return s && negb (Resources.needs_quotes s)
  | None => false
  end.

(** A row that reads back: at least two values (so that no line is
    empty), none with a carriage return outside quotes. *)
Definition readable (row : list (option string)) : Prop :=
  (2 <= length row)%nat /\ Forall (fun v => bare_return v = false) row.

(** * Further sample data *)

(** The registry while [run-1] and [run-2] are both executing [model-1]:
    controllers 0 and 2 are the runs', 1 and 3 their model's. *)
Definition working_registry : Cancellation.registry :=
  let r1 := fst (Cancellation.createRunCancellation "run-1" Cancellation.empty) in
  let r2 := fst (Cancellation.createModelCancellation "run-1" "model-1" r1) in
  let r3 := fst (Cancellation.createRunCancellation "run-2" r2) in
  fst (Cancellation.createModelCancellation "run-2" "model-1" r3).

(** * Vocabulary of the further properties *)

(** ** Request parameters *)

(** The setting of a model that decides whether the request parameter
    [key] is sent. *)
Definition setting_of_key (key : string) : string :=
  if String.eqb key "max_output_tokens" then "max_tokens"
  else if String.eqb key "stop" then "stop_sequences"
  else key.

(** [parameters[name]?.enabled] is truthy. *)
Definition enabled_in (parameters : json) (name : string) : bool :=
  Js.truthy (Js.opt_prop (Js.opt_prop (Some parameters) name) "enabled").

(** The request parameter [key] of a request body, as the provider reads
    it. *)
Definition body_param (req : Http.Request) (key : string) : jsval :=
  Js.opt_prop (Some (Http.body req)) key.

(** The adapter strings, after [norm], that [callModel] has a branch for. *)
Definition supported_adapters : list string :=
  ["openai"; "openaicompatible"; "openai_compat"; "openaicompat"; "oai"; "compatible";
   "anthropic"; "claude"; "google"; "gemini"; "googlegenai"; "googleai"]%string.

(** ** Streamed text *)

(** The text a sequence of deltas adds up to, each appended as [+=] does. *)
Definition text_of (ts : list (Adapter.moment * json)) : string :=
  foldr (fun t s => Js.to_string (snd t) +:+ s) EmptyString ts.

(** The delta was handed over during attempt [k], or after the fallback
    call. *)
Definition of_attempt (k : nat) (t : Adapter.moment * json) : bool :=
  match fst t with
  | Adapter.InStream k' _ => (k' =? k)%nat
  | Adapter.AfterFallback => true
  end.

(** Two bodies that carry the same bytes, cut into chunks differently. *)
Definition same_bytes (b b' : Http.Body) : Prop :=
  Http.whole b = Http.whole b' /\ Http.failure b = Http.failure b'.

(** Two answers that differ at most in how the body is cut into chunks. *)
Definition same_answer (a a' : outcome Http.Response) : Prop :=
  match a, a' with
  | Returned r, Returned r' =>
      Http.status r = Http.status r' /\
      match Http.body_of r, Http.body_of r' with
      | Some b, Some b' => same_bytes b b'
      | None, None => True
      | _, _ => False
      end
  | Thrown e, Thrown e' => e = e'
  | _, _ => False
  end.

(** The deltas of a call, without the moments they were handed over. *)
Definition deltas (c : Adapter.call) : list json := List.map snd (Adapter.tokens c).

(** [c] in front of the first of [lines]. *)
Definition prepend (c : ascii) (lines : list string) : list string :=
  match lines with
  | l :: rest => String c l :: rest
  | [] => []
  end.

(** The character [c] followed by [r] is neither a line feed nor the
    carriage return of a CR LF pair. *)
Definition inside_line (c : ascii) (r : string) : bool :=
  negb (Ascii.eqb c "010") &&
  negb (Ascii.eqb c "013" && match r with String c' _ => Ascii.eqb c' "010" | EmptyString => false end).

(** The OpenAI-style sample provider answering the same stream in a single
    chunk. *)
Definition openai_unchunked : Http.Net :=
  {| Http.respond := fun req k =>
       match Http.respond Servers.openai req k with
       | Returned r =>
           Returned {| Http.status := Http.status r;
                       Http.body_of :=
                         match Http.body_of r with
                         | Some b => Some {| Http.chunks := [Http.whole b];
                                             Http.failure := Http.failure b |}
                         | None => None
                         end |}
       | Thrown e => Thrown e
       end;
     Http.syntax_error := Servers.syntax_error |}.

(** ** Traces and results of a worker *)

(** The two ways the [catch] block ends a trace. *)
Definition failure_labels : list (list string) :=
  [ ["SET cancelled"; "model_cancelled"]; ["SET error"; "model_error"] ]%string.

(** The ways the judge step ends a trace. *)
Definition judge_labels : list (list string) :=
  (["SET cancelled"] :: ["SET judged"; "judge_done"] :: failure_labels)%string.

(** The ways a trace ends once the candidate call is over. *)
Definition ending_labels (html : bool) : list (list string) :=
  (["SET cancelled"]%string :: failure_labels ++
   (if html then [ ["SET output"; "html_candidate_done"]%string ]
    else List.map (fun j => "SET output" :: "candidate_done" :: j)%string judge_labels))%list.

(** The shape of the trace of one resolved call of the worker, as the
    names of its statements and events in order. *)
Definition worker_trace (html stream : bool) (labels : list string) : Prop :=
  labels = ["INSERT"; "SET cancelled"]%string \/
  exists (n : nat) (ending : list string),
    In ending (ending_labels html) /\
    (stream = false -> (n <= 1)%nat) /\
    labels = ("INSERT" :: "model_started" ::
              (if stream then ["model_streaming_started"] else []) ++
              repeat "candidate_token" n ++ ending)%string%list.

(** What is known of the row a worker leaves behind, by its status. *)
Definition settled (html : bool) (judge_id : string) (row : RunResult.t) : Prop :=
  match RunResult.status row with
  | ResultStatus.pending => False
  | ResultStatus.manual =>
      html = true /\ RunResult.output row <> None /\ RunResult.score row = SqlNull
  | ResultStatus.completed =>
      html = false /\ RunResult.score row <> SqlNull /\
      RunResult.judged_by row = Some judge_id /\ RunResult.output row <> None
  | ResultStatus.cancelled =>
      RunResult.score row = SqlNull /\ RunResult.cancelled_at row <> None
  | ResultStatus.error => RunResult.score row = SqlNull
  end.

(** What a statement of the worker does to the row it addresses. *)
Definition on_row (w : Sql.rr_write) (r : RunResult.t) : RunResult.t :=
  match w with
  | Sql.SetCancelled _ at_ => RunResult.set_cancelled at_ r
  | Sql.SetOutput _ o => RunResult.set_output o r
  | Sql.SetJudged _ o sc by_ why => RunResult.set_judged o sc by_ why r
  | Sql.SetError _ => RunResult.set_error r
  | _ => r
  end.

(** The table after the statements [ws] of one worker when other writers
    are at work between them: after the [k]-th statement of the worker
    they turn the table [t] into [others k t]. *)
Fixpoint interleaved (others : nat -> list RunResult.t -> list RunResult.t) (k : nat)
    (ws : list Sql.rr_write) (rows : list RunResult.t) : list RunResult.t :=
  match ws with
  | [] => rows
  | w :: ws' => interleaved others (S k) ws' (others k (Sql.exec w rows))
  end.

(** The other writers leave the row [id] as it is, whatever they do to the
    rest of the table. *)
Definition leave_alone (id : string) (others : nat -> list RunResult.t -> list RunResult.t)
    : Prop :=
  forall k t, Sql.get (Sql.result_by_id id) (others k t) = Sql.get (Sql.result_by_id id) t.

(** Another worker that inserts a row of its own, [rr-10], after the
    second statement. *)
Definition another_worker (k : nat) (t : list RunResult.t) : list RunResult.t :=
  if (k =? 1)%nat
  then (t ++ [Sample.result "rr-10" "run-3" "prob-b" ResultStatus.pending SqlNull])%list
  else t.

(** ** Routes that cancel *)

(** How a row [new] relates to the row [old] it was before the model
    [modelId] of the run [runId] was cancelled at clock reading [t]. *)
Definition model_rows_cancelled (runId modelId : string) (t : Z) (old new : RunResult.t) : Prop :=
  (RunResult.run_id old = runId -> RunResult.model_id old = modelId ->
   open_status (RunResult.status old) -> new = RunResult.set_cancelled t old) /\
  (RunResult.run_id old <> runId \/ RunResult.model_id old <> modelId \/
   terminal_status (RunResult.status old) -> new = old).

(** The parts of what a cancelling route hands back. *)
Definition reply_of {A B C} (out : reply * A * B * C) : reply := fst (fst (fst out)).
Definition store_of {A B C} (out : reply * A * B * C) : A := snd (fst (fst out)).
Definition registry_of {A B C} (out : reply * A * B * C) : B := snd (fst out).
Definition events_of {A B C} (out : reply * A * B * C) : C := snd out.

(** ** Stores before and after a deletion *)





(** ** Creating providers and runs *)

(** A request that is not refused and does not fail. *)
Definition succeeded (answer : outcome reply) : Prop :=
  match answer with
  | Returned r => accepted r
  | Thrown _ => False
  end.

(** The spellings, after [norm], that [POST /api/providers] takes for the
    OpenAI-compatible adapter. *)
Definition openai_aliases : list string :=
  ["openaicompatible"; "oai"; "compatible"; "openai"]%string.

(** A request body for a new OpenAI-compatible provider, spelled the way a
    user might. *)
Definition new_provider : Resources.provider_body :=
  {| Resources.pb_name := Some "Local"%string;
     Resources.pb_adapter := Some "OpenAI-Compatible"%string;
     Resources.pb_baseUrl := Some "http://localhost:1234/v1//"%string;
     Resources.pb_apiKey := None |}.

(** A request body for a new run over [set-1], judged by [model-2]. *)
Definition new_run : Resources.run_body :=
  {| Resources.rb_name := None;
     Resources.rb_problemSetId := Some "set-1"%string;
     Resources.rb_modelIds := Some ["model-1"; "model-gone"]%string;
     Resources.rb_judgeModelId := Some "  model-2 "%string;
     Resources.rb_stream := true |}.

(** ** The judge prompt and URLs *)

(** The notice the judge gets when a problem has no expected answer. *)
Definition no_expected_answer : string :=
  "No specific expected answer provided - judge based on correctness and completeness.".

(** A character that [encodeURIComponent] may leave in its output: an
    unreserved character, or the percent sign of an escape. *)
Definition url_safe (c : ascii) : bool :=
  JsString.is_word c ||
  existsb (Ascii.eqb c) ["-"; "."; "!"; "~"; "*"; "'"; "("; ")"; "%"]%char.

Fixpoint all_chars (p : ascii -> bool) (s : string) : bool :=
  match s with
  | EmptyString => true
  | String c r => p c && all_chars p r
  end.

(** * Properties *)

(** ** Checks of the JavaScript and JSON helpers *)

Example toLowerCase_ex : JsString.toLowerCase "Open-AI_Compat" = "open-ai_compat".
Proof. reflexivity. Qed.

Example trim_ex : JsString.trim "  a b  " = "a b".
Proof. reflexivity. Qed.

Example contains_word_ex :
  JsString.contains_word "PASS" "IT DID PASS." = true /\
  JsString.contains_word "PASS" "PASSED" = false /\
  JsString.contains_word "PASS" "BYPASS" = false.
Proof. repeat split; reflexivity. Qed.

Example split_lines_ex :
  JsString.split_lines (String "a" (String "013" (String "010" (String "b" (String "010" EmptyString))))) = ["a"; "b"; EmptyString].
Proof. reflexivity. Qed.

Example of_Z_ex : JsString.of_Z 401 = "401" /\ JsString.of_Z 0 = "0" /\ JsString.of_Z (-12) = "-12".
Proof. repeat split; reflexivity. Qed.

Example parse_ex1 :
  Json.parse (JsString.quoting "{'verdict':'PASS', 'score': 85, 'xs': [1, -2.50, 3e2, true, null]}")
  = Some (JObj [("verdict", JStr "PASS"); ("score", JNum 85 0);
                ("xs", JArr [JNum 1 0; JNum (-250) (-2); JNum 3 2; JBool true; JNull])]).
Proof. vm_compute. reflexivity. Qed.

Example parse_ex2 :
  Json.parse "PASS" = None /\ Json.parse "01" = None /\ Json.parse "[1,]" = None /\
  Json.parse (JsString.quoting "{'a':1} x") = None /\
  Json.parse (JsString.quoting " 'aA\n' ") = Some (JStr (String "a" (String "A" (String "010" EmptyString)))).
Proof. vm_compute. repeat split; reflexivity. Qed.

Example number_to_string_ex :
  List.map (fun p => Js.number_to_string (fst p) (snd p))
    [(85, 0); (-250, -2); (3, 2); (1, 21); (1, -7); (12345, -2); (5, -3); (0, 5); (15, 20)]
  = ["85"; "-2.5"; "300"; "1e+21"; "1e-7"; "123.45"; "0.005"; "0"; "1.5e+21"]%string.
Proof. vm_compute. reflexivity. Qed.

Example to_string_ex :
  Js.to_string (JArr [JNum 1 0; JNull; JStr "a"; JArr [JBool true; JObj []]]) = "1,,a,true,[object Object]".
Proof. vm_compute. reflexivity. Qed.

(** ** Facts about the statements *)

Lemma is_open_true (r : RunResult.t) :
  RunResult.is_open r = true <-> open_status (RunResult.status r).
Proof.
  unfold RunResult.is_open, open_status.
  destruct (RunResult.status r); split; intros H; auto; try discriminate;
    destruct H; discriminate.
Qed.

Lemma is_open_false (r : RunResult.t) :
  RunResult.is_open r = false <-> terminal_status (RunResult.status r).
Proof.
  unfold RunResult.is_open, terminal_status.
  destruct (RunResult.status r); split; intros H; auto; try discriminate;
    destruct H as [H|[H|H]]; discriminate.
Qed.

(** [UPDATE ... WHERE p] touches exactly the rows that satisfy [p]. *)
Lemma update_Forall2 {A} (p : A -> bool) (f : A -> A) (rows : list A) :
  Forall2 (fun old new => if p old then new = f old else new = old) rows (Sql.update p f rows).
Proof.
  induction rows as [|x rows IH]; cbn; constructor; auto.
  destruct (p x); reflexivity.
Qed.

Lemma Forall_update {A} (P : A -> Prop) (p : A -> bool) (f : A -> A) (rows : list A) :
  (forall r, In r rows -> P r -> p r = true -> P (f r)) ->
  Forall P rows -> Forall P (Sql.update p f rows).
Proof.
  intros Hf Hall. unfold Sql.update. apply List.Forall_forall. intros x Hin.
  apply List.in_map_iff in Hin as (r & <- & Hr).
  rewrite List.Forall_forall in Hall.
  destruct (p r) eqn:Hp; auto.
Qed.

Lemma in_delete {A} (p : A -> bool) (rows : list A) (x : A) :
  In x (Sql.delete p rows) <-> In x rows /\ p x = false.
Proof.
  unfold Sql.delete. rewrite List.filter_In, negb_true_iff. reflexivity.
Qed.

Lemma Forall_delete {A} (P : A -> Prop) (p : A -> bool) (rows : list A) :
  Forall P rows -> Forall P (Sql.delete p rows).
Proof.
  intros Hall. apply List.Forall_forall. intros x Hin.
  apply in_delete in Hin as [Hin _]. rewrite List.Forall_forall in Hall. auto.
Qed.

Lemma db_eta (db : Db) :
  {| providers := providers db; models := models db; problem_sets := problem_sets db;
     problems := problems db; runs := runs db; run_results := run_results db;
     foreign_keys := foreign_keys db |} = db.
Proof. destruct db; reflexivity. Qed.

Lemma find_update_by_id (id : string) (f : Run.t -> Run.t) (rows : list Run.t) :
  (forall r, Run.id (f r) = Run.id r) ->
  List.find (Sql.run_by_id id) (Sql.update (Sql.run_by_id id) f rows)
  = f <$> List.find (Sql.run_by_id id) rows.
Proof.
  intros Hid. induction rows as [|r rows IH]; cbn; [reflexivity|].
  destruct (Sql.run_by_id id r) eqn:Hr.
  - unfold Sql.run_by_id in *. rewrite Hid, Hr. reflexivity.
  - rewrite Hr. exact IH.
Qed.

(** ** The retry policy *)

Example withRetry_401 :
  Retry.adapter_retry (fun k => if (k =? 0)%nat then Thrown {| message := "fetch failed" |}
                                else @Thrown string {| message := "Gemini error: 401 denied" |})
  = {| Retry.result := Thrown {| message := "Gemini error: 401 denied" |};
       Retry.attempts := 2; Retry.sleeps := [1000] |}.
Proof. vm_compute. reflexivity. Qed.

Section RetryFacts.
Context {T : Type}.
Variable operation : nat -> outcome T.
Variable maxRetries : nat.
Variable baseDelay : Z.

(** The loop, started at iteration [attempt] with [fuel] iterations left:
    it runs between one and [fuel] times, sleeps the doubling delays of the
    iterations it leaves behind, hands back what its last invocation did,
    only retries retriable failures, and stops early only on a result that
    is not a retriable failure. *)
Lemma loop_run (fuel attempt : nat) (last : JsError) :
  (0 < fuel)%nat -> (fuel + attempt = S maxRetries)%nat ->
  let r := Retry.loop operation maxRetries baseDelay fuel attempt last in
  (1 <= Retry.attempts r <= fuel)%nat /\
  Retry.sleeps r = List.map (fun k => baseDelay * 2 ^ Z.of_nat k) (seq attempt (Retry.attempts r - 1)) /\
  Retry.result r = operation (attempt + Retry.attempts r - 1)%nat /\
  (forall k, (attempt <= k < attempt + Retry.attempts r - 1)%nat ->
             Retry.retriable_failure (operation k) = true) /\
  ((Retry.attempts r < fuel)%nat -> Retry.retriable_failure (Retry.result r) = false).
Proof.
  revert attempt last.
  induction fuel as [|fuel IH]; intros attempt last Hpos Hsum; [lia|].
  cbn [Retry.loop].
  destruct (operation attempt) as [v|err] eqn:Hop.
  - cbn. replace (attempt + 1 - 1)%nat with attempt by lia.
    repeat split; auto; try lia; try (intros; lia).
  - destruct (Retry.non_retriable err) eqn:Hnr.
    + cbn. replace (attempt + 1 - 1)%nat with attempt by lia.
      repeat split; auto; try lia; try (intros; lia).
      intros _. now rewrite Hnr.
    + destruct (attempt =? maxRetries)%nat eqn:Hlast.
      * apply Nat.eqb_eq in Hlast. cbn.
        replace (attempt + 1 - 1)%nat with attempt by lia.
        repeat split; auto; try lia; try (intros; lia).
      * apply Nat.eqb_neq in Hlast.
        destruct (IH (S attempt) err) as (Hn & Hs & Hr & Hall & Hearly); [lia|lia|].
        cbn [Retry.after_sleep Retry.attempts Retry.sleeps Retry.result].
        set (r := Retry.loop operation maxRetries baseDelay fuel (S attempt) err) in *.
        repeat split.
        -- lia.
        -- lia.
        -- replace (S (Retry.attempts r) - 1)%nat with (S (Retry.attempts r - 1)) by lia.
           cbn [seq List.map]. now rewrite Hs.
        -- rewrite Hr. f_equal. lia.
        -- intros k Hk. destruct (decide (k = attempt)) as [->|Hne].
           ++ rewrite Hop. cbn. now rewrite Hnr.
           ++ apply Hall. lia.
        -- intros Hlt. apply Hearly. lia.
Qed.
End RetryFacts.

(** C8.  Every adapter call is wrapped as [withRetry(op, 3, 1000)].  Such a
    call invokes the operation between one and four times; the sleeps
    between successive invocations are 1000, 2000, 4000 ms, seven seconds
    at most in all; what it hands back is what its last invocation did, and
    every invocation before the last was a retriable failure.  A failure
    whose message contains 401, 403 or 404 is raised at once, with no
    further invocation; and when all four invocations fail, the fourth
    failure is what is raised. *)
Theorem withRetry_policy (T : Type) (operation : nat -> outcome T) :
  let r := Retry.adapter_retry operation in
  (1 <= Retry.attempts r <= 4)%nat /\
  Retry.sleeps r = firstn (Retry.attempts r - 1) [1000; 2000; 4000] /\
  Retry.total_sleep r <= 7000 /\
  Retry.result r = operation (Retry.attempts r - 1)%nat /\
  (forall k, (k < Retry.attempts r - 1)%nat -> Retry.retriable_failure (operation k) = true) /\
  (forall k err,
      (k < 4)%nat ->
      (forall j, (j < k)%nat -> Retry.retriable_failure (operation j) = true) ->
      operation k = Thrown err ->
      Retry.non_retriable err = true ->
      Retry.result r = Thrown err /\ Retry.attempts r = S k) /\
  (forall err,
      (forall j, (j < 3)%nat -> Retry.retriable_failure (operation j) = true) ->
      operation 3%nat = Thrown err ->
      Retry.result r = Thrown err /\ Retry.attempts r = 4%nat).
Proof.
  intros r.
  destruct (loop_run operation 3 1000 4 0 {| message := EmptyString |})
    as (Hn & Hs & Hr & Hall & Hearly); [lia|lia|].
  fold (Retry.withRetry operation 3 1000) in Hn, Hs, Hr, Hall, Hearly.
  fold (Retry.adapter_retry operation) in Hn, Hs, Hr, Hall, Hearly.
  fold r in Hn, Hs, Hr, Hall, Hearly.
  cbn [Nat.add] in Hr, Hall.
  assert (Hsleeps : Retry.sleeps r = firstn (Retry.attempts r - 1) [1000; 2000; 4000]).
  { rewrite Hs.
    destruct (Retry.attempts r) as [|[|[|[|[|n]]]]]; try lia; reflexivity. }
  assert (Hstop : forall k, (k < 4)%nat ->
            (forall j, (j < k)%nat -> Retry.retriable_failure (operation j) = true) ->
            Retry.retriable_failure (operation k) = false \/ k = 3%nat ->
            Retry.attempts r = S k).
  { intros k Hk Hbefore Hhere.
    destruct (lt_eq_lt_dec (Retry.attempts r - 1) k) as [[Hlt|Heq]|Hgt].
    - assert (Hretr : Retry.retriable_failure (Retry.result r) = true)
        by (rewrite Hr; apply Hbefore; lia).
      rewrite Hearly in Hretr; [discriminate | lia].
    - lia.
    - destruct Hhere as [Hhere| ->]; [|lia].
      rewrite Hall in Hhere; [discriminate | lia]. }
  split; [lia|]. split; [exact Hsleeps|].
  split.
  { unfold Retry.total_sleep. rewrite Hsleeps.
    destruct (Retry.attempts r) as [|[|[|[|[|n]]]]]; cbn; lia. }
  split; [exact Hr|].
  split; [intros k Hk; apply Hall; lia|].
  split.
  - intros k err Hk Hbefore Hop Hnr.
    assert (Hat : Retry.attempts r = S k).
    { apply Hstop; auto. left. rewrite Hop. cbn. now rewrite Hnr. }
    split; [|exact Hat].
    rewrite Hr, Hat. now replace (S k - 1)%nat with k by lia.
  - intros err Hbefore Hop.
    assert (Hat : Retry.attempts r = 4%nat) by (apply (Hstop 3%nat); auto).
    split; [|exact Hat].
    now rewrite Hr, Hat.
Qed.

(** [withRetry_policy] at an operation that fails with a timeout and then
    with a 401. *)
Lemma withRetry_policy_witness :
  let operation := fun k : nat =>
    if (k =? 0)%nat then @Thrown string {| message := "fetch failed" |}
    else Thrown {| message := "Gemini error: 401 denied" |} in
  Retry.result (Retry.adapter_retry operation) = Thrown {| message := "Gemini error: 401 denied" |} /\
  Retry.attempts (Retry.adapter_retry operation) = 2%nat.
Proof.
  intros operation.
  apply (proj1 (proj2 (proj2 (proj2 (proj2 (proj2 (withRetry_policy string operation))))))
           1%nat {| message := "Gemini error: 401 denied" |}).
  - lia.
  - intros j Hj. assert (j = 0%nat) as -> by lia. reflexivity.
  - reflexivity.
  - reflexivity.
Defined.

Lemma loop_ext {T} (f g : nat -> outcome T) (maxRetries : nat) (baseDelay : Z) :
  (forall k, f k = g k) ->
  forall fuel attempt last,
    Retry.loop f maxRetries baseDelay fuel attempt last
    = Retry.loop g maxRetries baseDelay fuel attempt last.
Proof.
  intros Hfg. induction fuel as [|fuel IH]; intros attempt last; cbn; [reflexivity|].
  rewrite Hfg. destruct (g attempt) as [v|err]; [reflexivity|].
  destruct (Retry.non_retriable err); [reflexivity|].
  destruct (attempt =? maxRetries)%nat; [reflexivity|]. now rewrite IH.
Qed.

Lemma retried_ext (req : Http.Request)
    (f g : nat -> list (Adapter.moment * json) * outcome string) :
  (forall k, f k = g k) -> Adapter.retried req f = Adapter.retried req g.
Proof.
  intros Hfg. unfold Adapter.retried, Retry.adapter_retry, Retry.withRetry.
  rewrite (loop_ext (fun k => snd (f k)) (fun k => snd (g k))) by (intros k; now rewrite Hfg).
  f_equal. apply flat_map_ext. intros k. now rewrite Hfg.
Qed.

(** The bound seen from the adapters: one call of [callModel] or of
    [callModelWithStreaming] sends at most four requests and sleeps at most
    seven seconds. *)
Lemma retried_bounded (req : Http.Request)
    (f : nat -> list (Adapter.moment * json) * outcome string) :
  (length (Adapter.sent (Adapter.retried req f)) <= 4)%nat /\
  foldr Z.add 0 (Adapter.slept (Adapter.retried req f)) <= 7000.
Proof.
  unfold Adapter.retried, Retry.adapter_retry, Retry.withRetry. cbn [Adapter.sent Adapter.slept].
  destruct (loop_run (fun k => snd (f k)) 3 1000 4 0 {| message := EmptyString |})
    as (Hn & Hs & _); [lia|lia|].
  rewrite repeat_length, Hs. split; [lia|].
  destruct (Retry.attempts _) as [|[|[|[|[|n]]]]]; cbn; lia.
Qed.

Lemma callModel_bounded (db : Db) (net : Http.Net) (sched : Http.schedule)
    (providerId modelId : string) (messages : list ChatMessage) :
  let c := Adapter.callModel db net sched providerId modelId messages in
  (length (Adapter.sent c) <= 4)%nat /\ foldr Z.add 0 (Adapter.slept c) <= 7000.
Proof.
  cbn zeta. unfold Adapter.callModel.
  destruct (Sql.get _ (providers db)) as [provider|]; [|cbn; lia].
  destruct (Adapter.parameters_of db net providerId modelId) as [parameters|err]; [|cbn; lia].
  repeat match goal with
         | |- context [if ?b then _ else _] => destruct b
         end; try apply retried_bounded; cbn; lia.
Qed.

Lemma callModelWithStreaming_bounded (db : Db) (net : Http.Net) (sched : Http.schedule)
    (providerId modelId : string) (messages : list ChatMessage) :
  let c := Adapter.callModelWithStreaming db net sched providerId modelId messages in
  (length (Adapter.sent c) <= 4)%nat /\ foldr Z.add 0 (Adapter.slept c) <= 7000.
Proof.
  cbn zeta. unfold Adapter.callModelWithStreaming.
  destruct (Sql.get _ (providers db)) as [provider|]; [|cbn; lia].
  destruct (Adapter.parameters_of db net providerId modelId) as [parameters|err]; [|cbn; lia].
  destruct (existsb _ _); [apply retried_bounded|].
  destruct (String.eqb _ _); [apply retried_bounded|].
  pose proof (callModel_bounded db net sched providerId modelId messages) as Hc.
  cbn zeta in Hc. destruct (Adapter.returned _); exact Hc.
Qed.

(** ** Adapters: which protocol a provider gets *)

Example norm_ex :
  List.map Adapter.norm ["OpenAI-Compatible"; "openai_compat"; "Claude"; " O.A.I "]%string
  = ["openaicompatible"; "openaicompat"; "claude"; "oai"]%string.
Proof. vm_compute. reflexivity. Qed.

(** C7, at the input where the code departs from it: a provider whose
    adapter is spelled [claude].  [callModel] takes it for an Anthropic
    provider; [callModelWithStreaming] does not, and goes through
    [callModel]: one request without [stream: true], and the whole answer
    handed on as a single token.  Spelled [anthropic], the same provider
    is asked to stream and its deltas are handed on one by one. *)
Theorem claude_alias_is_not_streamed :
  let run_with a :=
    Adapter.callModelWithStreaming (store_with_adapter a) Servers.anthropic never_aborted
      "prov-1" "vendor-a" hello in
  Adapter.norm "claude" = "claude" /\
  Adapter.tokens (run_with "claude") = [(Adapter.AfterFallback, JStr "Hello world")] /\
  List.map asks_to_stream (Adapter.sent (run_with "claude")) = [false] /\
  List.map Http.url (Adapter.sent (run_with "claude")) = ["https://api.example.test/v1/messages"]%string /\
  run_with "claude"
    = as_single_token (Adapter.callModel (store_with_adapter "claude") Servers.anthropic never_aborted
                         "prov-1" "vendor-a" hello) /\
  Adapter.tokens (run_with "anthropic")
    = [(Adapter.InStream 0 2, JStr "Hello"); (Adapter.InStream 0 2, JStr " world")] /\
  List.map asks_to_stream (Adapter.sent (run_with "anthropic")) = [true].
Proof. vm_compute. repeat split; reflexivity. Qed.

(** The same holds of every spelling that normalizes to one of the
    aliases [openaicompatible], [oai], [compatible] or [claude]: the
    streaming call is the non-streaming call with its result as a single
    token. *)
Lemma aliases_fall_back (db : Db) (net : Http.Net) (sched : Http.schedule)
    (providerId modelId : string) (messages : list ChatMessage) (provider : Provider.t) :
  Sql.get (Sql.provider_by_id providerId) (providers db) = Some provider ->
  In (Adapter.norm (Provider.adapter provider))
     ["openaicompatible"; "oai"; "compatible"; "claude"]%string ->
  Adapter.callModelWithStreaming db net sched providerId modelId messages
  = as_single_token (Adapter.callModel db net sched providerId modelId messages).
Proof.
  intros Hget Halias.
  unfold Adapter.callModelWithStreaming.
  assert (Hsame : Adapter.callModel db net sched providerId modelId messages
                  = Adapter.callModel db net sched providerId modelId messages) by reflexivity.
  unfold Adapter.callModel at 2 in Hsame.
  rewrite Hget in *.
  destruct (Adapter.parameters_of db net providerId modelId) as [parameters|err].
  - cbn in Halias.
    destruct Halias as [H|[H|[H|[H|[]]]]]; rewrite <- H; cbn [existsb String.eqb Ascii.eqb
      Bool.eqb orb]; reflexivity.
  - rewrite Hsame. reflexivity.
Qed.

(** ** Cancel tokens and the HTTP client *)

Lemma startsWith_append (p s : string) : JsString.startsWith (p +:+ s) p = true.
Proof.
  induction p as [|c p IH]; [now destruct s|].
  change (Ascii.eqb c c && JsString.startsWith (p +:+ s) p = true).
  now rewrite Ascii.eqb_refl, IH.
Qed.

Lemma append_assoc (a b c : string) : (a +:+ b) +:+ c = a +:+ (b +:+ c).
Proof.
  induction a as [|x a IH]; [reflexivity|].
  change (String x ((a +:+ b) +:+ c) = String x (a +:+ (b +:+ c))). now rewrite IH.
Qed.

Lemma abort_all_lookup (cs : list nat) (flags : list bool) (c : nat) :
  In c cs -> (c < length flags)%nat -> abort_all_flag cs flags c = true.
Proof.
  unfold abort_all_flag, Cancellation.abort_all.
  induction cs as [|x cs IH]; intros Hin Hlt; [destruct Hin|]. cbn [foldr].
  destruct (decide (x = c)) as [->|Hne].
  - rewrite list_lookup_insert_eq; [reflexivity|].
    clear - Hlt. induction cs as [|y cs IH']; cbn [foldr]; [exact Hlt|].
    rewrite length_insert. exact IH'.
  - rewrite list_lookup_insert_ne by exact Hne.
    destruct Hin as [Heq|Hin]; [contradiction|]. now apply IH.
Qed.

(** Cancelling a run does trigger its tokens: the run's controller and
    every model controller registered under the run read aborted
    afterwards, also for a worker that kept the controller, and their keys
    are gone from the registry. *)
Lemma cancelRun_triggers (runId : string) (reg : Cancellation.registry) (c : nat) :
  Cancellation.runCancellations reg !! runId = Some c ->
  let reg' := fst (Cancellation.cancelRun runId reg) in
  snd (Cancellation.cancelRun runId reg) = true /\
  ((c < length (Cancellation.controllers reg))%nat -> Cancellation.aborted reg' c = true) /\
  (forall modelId c',
      Cancellation.modelCancellations reg !! Cancellation.model_key runId modelId = Some c' ->
      (c' < length (Cancellation.controllers reg))%nat ->
      Cancellation.aborted reg' c' = true) /\
  Cancellation.runCancellations reg' !! runId = None /\
  (forall modelId,
      Cancellation.modelCancellations reg' !! Cancellation.model_key runId modelId = None).
Proof.
  intros Hrun. unfold Cancellation.cancelRun. rewrite Hrun. cbn [fst snd].
  unfold Cancellation.aborted. cbn [Cancellation.controllers Cancellation.runCancellations
    Cancellation.modelCancellations].
  assert (Hmine : forall modelId c',
             Cancellation.modelCancellations reg !! Cancellation.model_key runId modelId = Some c' ->
             Cancellation.of_run runId (Cancellation.modelCancellations reg)
               !! Cancellation.model_key runId modelId = Some c').
  { intros modelId c' Hc'. unfold Cancellation.of_run.
    apply map_lookup_filter_Some. split; [exact Hc'|].
    cbn. unfold Cancellation.model_key.
    rewrite <- append_assoc. apply startsWith_append. }
  split; [reflexivity|]. split; [|split; [|split]].
  - intros Hlt. apply (abort_all_lookup _ _ c); [left; reflexivity | exact Hlt].
  - intros modelId c' Hc' Hlt. apply (abort_all_lookup _ _ c'); [|exact Hlt].
    right. apply list_elem_of_In, list_elem_of_fmap.
    exists (Cancellation.model_key runId modelId, c'). split; [reflexivity|].
    apply elem_of_map_to_list. now apply Hmine.
  - apply lookup_delete_eq.
  - intros modelId. apply lookup_difference_None.
    destruct (Cancellation.modelCancellations reg !! Cancellation.model_key runId modelId)
      as [c'|] eqn:Hc'; [right | left; reflexivity].
    exists c'. now apply Hmine.
Qed.

Section Unwired.
Variable net : Http.Net.
Variables sched sched' : Http.schedule.
Variable req : Http.Request.
Hypothesis Hreq : unwired req.

Lemma interrupted_unwired (s : Http.schedule) (k step : nat) :
  Http.interrupted s req k step = false.
Proof. unfold Http.interrupted. now rewrite Hreq. Qed.



End Unwired.






(** A run without streaming whose token reads aborted from the moment the
    call is under way: the answer is published all the same, and the
    result is then marked cancelled. *)
Example unstreamed_answer_published_while_aborted :
  let e := {| Worker.store := Sample.db; Worker.store_at_judge := Sample.db;
              Worker.rrId := "rr-9"; Worker.inserted_at := 40; Worker.cancelled_time := 41;
              Worker.flag := fun _ p => match p with Worker.AtStart => false | _ => true end;
              Worker.candidate_net := Servers.anthropic;
              Worker.judge_net := Servers.openai |} in
  List.map label_of
    (fst (Worker.processModelForProblem e "run-3" Sample.problemA (model_ref Sample.model1)
            (model_ref Sample.model2) Sample.run3 (Some 1%nat)))
  = ["INSERT"; "model_started"; "candidate_token"; "SET cancelled"].
Proof. vm_compute. reflexivity. Qed.


(** ** The judge's verdict *)

(** Scenario S4: a judge that answers in prose. *)
Example parse_verdict_fallback :
  Judge.parse_verdict "PASS - looks fine"
  = {| Judge.pass := true;
       Judge.reasoning := JStr "Simple verdict: PASS. Full response: PASS - looks fine";
       Judge.score := JNum 100 0 |}.
Proof. vm_compute. reflexivity. Qed.

(** C3, at the input where the code departs from it: the judge answers
    with verdict PASS and score 0.  The score is in the response, so the
    specification keeps it; the code reads [0] as no score and stores
    100. *)
Theorem parse_verdict_overrides_zero_score :
  let verdictText := JsString.quoting "{'verdict':'PASS','reasoning':'fine','score':0}" in
  Judge.parse_verdict verdictText
    = {| Judge.pass := true; Judge.reasoning := JStr "fine"; Judge.score := JNum 100 0 |} /\
  Judge.spec_verdict verdictText
    = {| Judge.pass := true; Judge.reasoning := JStr "fine"; Judge.score := JNum 0 0 |}.
Proof. vm_compute. split; reflexivity. Qed.

(** Elsewhere the two agree: whenever the response has no score, or has
    one that JavaScript takes as true (any number but zero, any non-empty
    string), and whenever the response is not JSON. *)
Lemma parse_verdict_agrees (verdictText : string) :
  score_field verdictText = None \/ score_field verdictText = Some JNull \/
  Js.truthy (score_field verdictText) = true ->
  Judge.parse_verdict verdictText = Judge.spec_verdict verdictText.
Proof.
  unfold score_field, Judge.parse_verdict, Judge.spec_verdict.
  destruct (Json.parse (JsString.trim verdictText)) as [judgeResponse|]; [|reflexivity].
  destruct (Js.prop judgeResponse "verdict") as [v|]; [|reflexivity].
  intros Hscore. f_equal.
  destruct (Js.opt_prop (Some judgeResponse) "score") as [given|]; [|reflexivity].
  unfold Js.or_else.
  destruct Hscore as [Hnone | [Hnull | Htrue]]; [discriminate | |].
  - injection Hnull as ->. reflexivity.
  - rewrite Htrue. destruct given; try reflexivity. discriminate.
Qed.

Lemma parse_verdict_score_not_null (verdictText : string) :
  Judge.score (Judge.parse_verdict verdictText) <> JNull.
Proof.
  unfold Judge.parse_verdict, Judge.fallback_verdict, Judge.default_score.
  destruct (Json.parse _) as [judgeResponse|]; [|discriminate].
  destruct (Js.prop judgeResponse "verdict") as [v|]; [|discriminate].
  cbn [Judge.score]. unfold Js.or_else.
  destruct (Js.opt_prop (Some judgeResponse) "score") as [given|]; [|discriminate].
  destruct (Js.truthy (Some given)) eqn:Ht; [|discriminate].
  intros ->. discriminate.
Qed.

Lemma parse_verdict_fallback_score (verdictText : string) :
  Json.parse (JsString.trim verdictText) = None ->
  Judge.score (Judge.parse_verdict verdictText) = JNum 100 0 \/
  Judge.score (Judge.parse_verdict verdictText) = JNum 0 0.
Proof.
  intros Hnone. unfold Judge.parse_verdict. rewrite Hnone.
  unfold Judge.fallback_verdict, Judge.default_score. cbn [Judge.score].
  destruct (_ && _); auto.
Qed.

(** ** What a worker does *)

(** Scenario S2: an HTML problem.  The result is inserted as manual, the
    answer is published and stored, and no judge is asked. *)
Example html_problem_stays_manual :
  List.map label_of
    (fst (Worker.processModelForProblem (quiet Servers.anthropic Servers.openai) "run-2"
            Sample.problemH (model_ref Sample.model1) (model_ref Sample.model2) Sample.run2
            (Some 1%nat)))
  = ["INSERT"; "model_started"; "candidate_token"; "SET output"; "html_candidate_done"]%string.
Proof. vm_compute. reflexivity. Qed.

(** Scenario S5: the provider answers 401.  One request, no retry; the
    result is marked as an error and [model_error] is published. *)
Example unauthorized_is_not_retried :
  List.map label_of
    (fst (Worker.processModelForProblem (quiet denying Servers.openai) "run-3"
            Sample.problemA (model_ref Sample.model1) (model_ref Sample.model2) Sample.run3
            (Some 1%nat)))
  = ["INSERT"; "model_started"; "SET error"; "model_error"]%string /\
  let c := Adapter.callModel Sample.db denying never_aborted "prov-1" "vendor-a" hello in
  Adapter.returned c = Thrown {| message := "Anthropic error: 401 no key" |} /\
  length (Adapter.sent c) = 1%nat /\ Adapter.slept c = [].
Proof. vm_compute. repeat split; reflexivity. Qed.

Ltac break_in H :=
  repeat match type of H with
         | In _ [] => destruct H
         | In _ (_ :: _) => destruct H as [H|H]
         | In _ (_ ++ _) => apply in_app_or in H; destruct H as [H|H]
         | In _ (if ?b then _ else _) => destruct b
         | In _ (match ?x with _ => _ end) => destruct x
         | Write _ = Write _ => injection H as H; subst
         | Emit _ _ = Write _ => discriminate H
         end.

Section WorkerWrites.
Variable e : Worker.env.
Variable runId : string.
Variable problem : Problem.t.
Variables model judgeModel : ModelRef.
Variable run : Run.t.
Variable abortSignal : option nat.

Lemma on_error_writes (err : JsError) (w : Sql.rr_write) :
  In (Write w) (Worker.on_error e runId problem model run abortSignal err) -> worker_write e w.
Proof.
  unfold Worker.on_error, Worker.mark_cancelled. intros H.
  break_in H; constructor.
Qed.

Lemma tokens_write_nothing (ts : list (Adapter.moment * json)) (w : Sql.rr_write) :
  ~ In (Write w) (flat_map (Worker.onToken e runId problem model abortSignal) ts).
Proof.
  intros H. apply in_flat_map in H as (t & _ & H).
  unfold Worker.onToken, Worker.token_event in H. break_in H.
Qed.

Lemma judge_writes (output : string) (w : Sql.rr_write) :
  In (Write w) (Worker.judge e runId problem model judgeModel run abortSignal output) ->
  worker_write e w.
Proof.
  unfold Worker.judge, Worker.mark_cancelled. intros H.
  destruct (Worker.aborted e abortSignal Worker.BeforeJudge).
  { break_in H. constructor. }
  destruct (Adapter.returned _) as [verdictText|err]; [|now apply on_error_writes in H].
  destruct (bind (Judge.score (Judge.parse_verdict verdictText))) as [score|] eqn:Hscore;
    [|now apply on_error_writes in H].
  destruct (bind (Judge.reasoning (Judge.parse_verdict verdictText))) as [reasoning|];
    [|now apply on_error_writes in H].
  break_in H. now apply ww_judged with (verdictText := verdictText).
Qed.

Lemma after_call_writes (output : string) (w : Sql.rr_write) :
  In (Write w) (Worker.after_call e runId problem model judgeModel run abortSignal output) ->
  worker_write e w.
Proof.
  unfold Worker.after_call, Worker.mark_cancelled. intros H.
  destruct (Worker.aborted e abortSignal Worker.AfterCall).
  { break_in H. constructor. }
  destruct H as [H|H]; [injection H as <-; constructor|].
  destruct (Problem.is_html problem).
  - break_in H.
  - destruct H as [H|H]; [discriminate|]. now apply judge_writes in H.
Qed.

Lemma attempt_problem_writes (provider : option Provider.t) (w : Sql.rr_write) :
  In (Write w) (Worker.attempt_problem e runId problem model judgeModel run abortSignal provider) ->
  worker_write e w.
Proof.
  unfold Worker.attempt_problem, Worker.mark_cancelled. intros H.
  destruct (Worker.aborted e abortSignal Worker.AtStart).
  { break_in H. constructor. }
  destruct H as [H|H]; [discriminate|].
  apply in_app_or in H. destruct H as [H|H]; [break_in H|].
  destruct provider as [p|]; [|now apply on_error_writes in H].
  destruct (Run.stream run).
  - apply in_app_or in H. destruct H as [H|H]; [now apply tokens_write_nothing in H|].
    destruct (Adapter.returned _) as [output|err];
      [now apply after_call_writes in H | now apply on_error_writes in H].
  - destruct (Adapter.returned _) as [output|err]; [|now apply on_error_writes in H].
    destruct H as [H|H]; [discriminate|]. now apply after_call_writes in H.
Qed.

Lemma new_row_open : open_status (RunResult.status (Worker.new_row e runId problem model)).
Proof.
  unfold Worker.new_row, open_status. cbn. destruct (Problem.is_html problem); auto.
Qed.

Lemma processModelForProblem_writes (w : Sql.rr_write) :
  In (Write w)
     (fst (Worker.processModelForProblem e runId problem model judgeModel run abortSignal)) ->
  worker_write e w.
Proof.
  unfold Worker.processModelForProblem. intros H.
  destruct (existsb _ _); [destruct H|].
  destruct (negb _); [destruct H|].
  destruct (Sql.get _ _) as [m|]; cbn [fst] in H.
  - destruct H as [H|H]; [|now apply attempt_problem_writes in H].
    injection H as <-. constructor; [reflexivity | reflexivity | apply new_row_open].
  - break_in H. constructor; [reflexivity | reflexivity | apply new_row_open].
Qed.
End WorkerWrites.

(** ** Scores of stored results *)

Lemma worker_write_score (e : Worker.env) (w : Sql.rr_write) :
  worker_write e w -> score_written w.
Proof.
  intros [row Hid Hscore Hopen | | output | verdictText output judged_by score reasoning Hbind | ];
    cbn; auto.
  split.
  - intros ->. pose proof (parse_verdict_score_not_null verdictText) as Hnn.
    destruct (Judge.score (Judge.parse_verdict verdictText)); try discriminate. congruence.
  - exists verdictText. split; [exact Hbind|].
    intros Hnone. destruct (parse_verdict_fallback_score verdictText Hnone) as [H|H];
      rewrite H in Hbind; injection Hbind as <-; auto.
Qed.

Lemma issued_score (w : Sql.rr_write) : issued w -> score_written w.
Proof.
  intros [e runId problem model judgeModel run abortSignal w' Hin
         | id decision | id t | runId modelId t | id | id]; cbn; auto.
  - eapply worker_write_score, processModelForProblem_writes, Hin.
  - unfold Routes.review_score. destruct (String.eqb decision "pass"); auto.
Qed.

(** C5, at the input where the code departs from it: a judge answers
    with verdict PASS and score 150.  The worker binds that score to the
    update it comments with "the actual numeric score (0-100)", and the row
    is completed with a score outside the range. *)
Lemma judge_score_stored_unchecked :
  let e := quiet Servers.anthropic
             (Servers.judge (JsString.quoting
                "'{\'verdict\':\'PASS\',\'reasoning\':\'fine\',\'score\':150}'")) in
  let effects := fst (Worker.processModelForProblem e "run-1" Sample.problemA
                        (model_ref Sample.model1) (model_ref Sample.model2) Sample.run1 (Some 1%nat)) in
  let writes := writes_of effects in
  In (Sql.SetJudged "rr-9" "Hello world" (SqlNum 150 0) "model-2" (SqlText "fine")) writes /\
  (exists row, Sql.get (Sql.result_by_id "rr-9") (Sql.exec_all writes (run_results Sample.db)) = Some row /\
               RunResult.status row = ResultStatus.completed /\
               RunResult.score row = SqlNum 150 0 /\
               is_percentage (RunResult.score row) = false).
Proof.
  vm_compute. split.
  - right. right. left. reflexivity.
  - eexists. repeat split.
Qed.

(** What every statement the server runs against [run_results] does keep,
    with the values the code binds to it: "a completed row has a score";
    and "a row has a score exactly when it is completed" too, where for the
    worker's own cancellation and error updates, which set the status and
    leave the score alone, this needs the row they address not to be
    completed already.  The initial insert stores no score with status
    pending or manual, a manual review stores 100 or 0, and the judge
    update stores a score that is not null. *)
Theorem score_only_when_completed (w : Sql.rr_write) (rows : list RunResult.t) :
  issued w ->
  (Forall completed_has_score rows -> Forall completed_has_score (Sql.exec w rows)) /\
  (spares_completed w rows ->
   Forall score_iff_completed rows -> Forall score_iff_completed (Sql.exec w rows)) /\
  score_written w.
Proof.
  intros Hw. pose proof (issued_score w Hw) as Hscore.
  split; [|split; [|exact Hscore]].
  - intros Hall. destruct w; cbn [Sql.exec].
    + apply Forall_app_2; [exact Hall|]. constructor; [|constructor].
      intros Hc. destruct Hscore as [_ [Ho|Ho]]; congruence.
    + apply Forall_update; auto. intros r _ _ _. unfold completed_has_score. cbn. discriminate.
    + apply Forall_update; auto.
    + apply Forall_update; auto. intros r _ _ _ _. cbn. apply Hscore.
    + apply Forall_update; auto. intros r _ _ _. unfold completed_has_score. cbn. discriminate.
    + apply Forall_update; auto. intros r _ _ _ _. cbn.
      destruct Hscore as [-> | ->]; discriminate.
    + apply Forall_update; auto. intros r _ _ _. unfold completed_has_score. cbn. discriminate.
    + apply Forall_update; auto. intros r _ _ _. unfold completed_has_score. cbn. discriminate.
    + now apply Forall_delete.
    + now apply Forall_delete.
  - intros Hspare Hall. destruct w; cbn [Sql.exec].
    + apply Forall_app_2; [exact Hall|]. constructor; [|constructor].
      destruct Hscore as [Hnull Hopen]. unfold score_iff_completed. rewrite Hnull.
      split; [congruence|]. intros Hc. destruct Hopen as [Ho|Ho]; congruence.
    + apply Forall_update; auto. intros r Hin Hr Hid. apply String.eqb_eq in Hid.
      unfold score_iff_completed in *. cbn.
      split; [|discriminate]. intros Hs. apply Hr in Hs. now apply (Hspare r) in Hs.
    + apply Forall_update; auto.
    + apply Forall_update; auto. intros r _ _ _. unfold score_iff_completed. cbn.
      split; [reflexivity|]. intros _. apply Hscore.
    + apply Forall_update; auto. intros r Hin Hr Hid. apply String.eqb_eq in Hid.
      unfold score_iff_completed in *. cbn.
      split; [|discriminate]. intros Hs. apply Hr in Hs. now apply (Hspare r) in Hs.
    + apply Forall_update; auto. intros r _ _ _. unfold score_iff_completed. cbn.
      split; [reflexivity|]. intros _. destruct Hscore as [-> | ->]; discriminate.
    + apply Forall_update; auto. intros r _ Hr Hp.
      apply andb_true_iff in Hp as [_ Hopen]. apply is_open_true in Hopen.
      unfold score_iff_completed in *. cbn.
      split; [|discriminate]. intros Hs. apply Hr in Hs. destruct Hopen; congruence.
    + apply Forall_update; auto. intros r _ Hr Hp.
      apply andb_true_iff in Hp as [_ Hopen]. apply is_open_true in Hopen.
      unfold score_iff_completed in *. cbn.
      split; [|discriminate]. intros Hs. apply Hr in Hs. destruct Hopen; congruence.
    + now apply Forall_delete.
    + now apply Forall_delete.
Qed.

(** [score_only_when_completed] at the judge update that stores the score 150. *)
Lemma score_only_when_completed_witness :
  score_written (Sql.SetJudged "rr-9" "Hello world" (SqlNum 150 0) "model-2" (SqlText "fine")).
Proof.
  apply (score_only_when_completed _ []).
  apply by_worker with
    (e := quiet Servers.anthropic
            (Servers.judge (JsString.quoting
               "'{\'verdict\':\'PASS\',\'reasoning\':\'fine\',\'score\':150}'")))
    (runId := "run-1") (problem := Sample.problemA) (model := model_ref Sample.model1)
    (judgeModel := model_ref Sample.model2) (run := Sample.run1) (abortSignal := Some 1%nat).
  vm_compute. right. right. right. right. right. right. left. reflexivity.
Defined.

(** The converse half of the score rule is not kept by every interleaving:
    an HTML result reviewed while its worker is still waiting for the
    provider keeps the reviewed score when the worker then marks it
    cancelled. *)
Lemma cancellation_keeps_reviewed_score :
  let e := {| Worker.store := Sample.db; Worker.store_at_judge := Sample.db;
              Worker.rrId := "rr-9"; Worker.inserted_at := 40; Worker.cancelled_time := 41;
              Worker.flag := fun _ p => match p with Worker.AfterCall => true | _ => false end;
              Worker.candidate_net := Servers.anthropic;
              Worker.judge_net := Servers.openai |} in
  let writes := writes_of (fst (Worker.processModelForProblem e "run-2" Sample.problemH
                  (model_ref Sample.model1) (model_ref Sample.model2) Sample.run2 (Some 1%nat))) in
  exists row,
    writes = [Sql.InsertResult row; Sql.SetCancelled "rr-9" 41] /\
    let db1 := with_run_results (Sql.exec (Sql.InsertResult row) (run_results Sample.db)) Sample.db in
    let db2 := snd (Routes.review db1 "rr-9" "pass") in
    let rows := Sql.exec (Sql.SetCancelled "rr-9" 41) (run_results db2) in
    exists r, Sql.get (Sql.result_by_id "rr-9") rows = Some r /\
              RunResult.status r = ResultStatus.cancelled /\
              RunResult.score r = SqlNum 100 0.
Proof. vm_compute. eexists. split; [reflexivity|]. eexists. repeat split. Qed.

(** ** The order in which a run takes its problems *)

Section WorkerEffects.
Variable e : Worker.env.
Variable runId : string.
Variable problem : Problem.t.
Variables model judgeModel : ModelRef.
Variable run : Run.t.
Variable abortSignal : option nat.

Ltac settle_about H :=
  repeat match type of H with
         | In _ [] => destruct H
         | In _ (_ :: _) => destruct H as [H|H]
         | In _ (if ?b then _ else _) => destruct b
         | _ = _ => subst; unfold about; cbn; auto
         end.

Lemma on_error_about (err : JsError) (eff : effect) :
  In eff (Worker.on_error e runId problem model run abortSignal err) -> about problem eff.
Proof.
  unfold Worker.on_error, Worker.mark_cancelled. intros H. settle_about H.
Qed.

Lemma tokens_about (ts : list (Adapter.moment * json)) (eff : effect) :
  In eff (flat_map (Worker.onToken e runId problem model abortSignal) ts) -> about problem eff.
Proof.
  intros H. apply in_flat_map in H as (t & _ & H).
  unfold Worker.onToken, Worker.token_event in H. settle_about H.
Qed.

Lemma judge_about (output : string) (eff : effect) :
  In eff (Worker.judge e runId problem model judgeModel run abortSignal output) -> about problem eff.
Proof.
  unfold Worker.judge, Worker.mark_cancelled. intros H.
  destruct (Worker.aborted e abortSignal Worker.BeforeJudge); [settle_about H|].
  destruct (Adapter.returned _) as [verdictText|err]; [|now apply on_error_about in H].
  destruct (bind (Judge.score _)); [|now apply on_error_about in H].
  destruct (bind (Judge.reasoning _)); [|now apply on_error_about in H].
  settle_about H.
Qed.

Lemma after_call_about (output : string) (eff : effect) :
  In eff (Worker.after_call e runId problem model judgeModel run abortSignal output) ->
  about problem eff.
Proof.
  unfold Worker.after_call, Worker.mark_cancelled. intros H.
  destruct (Worker.aborted e abortSignal Worker.AfterCall); [settle_about H|].
  destruct H as [H|H]; [settle_about H|].
  destruct (Problem.is_html problem); [settle_about H|].
  destruct H as [H|H]; [settle_about H | now apply judge_about in H].
Qed.

Lemma attempt_problem_about (provider : option Provider.t) (eff : effect) :
  In eff (Worker.attempt_problem e runId problem model judgeModel run abortSignal provider) ->
  about problem eff.
Proof.
  unfold Worker.attempt_problem, Worker.mark_cancelled. intros H.
  destruct (Worker.aborted e abortSignal Worker.AtStart); [settle_about H|].
  destruct H as [H|H]; [settle_about H|].
  apply in_app_or in H. destruct H as [H|H]; [settle_about H|].
  destruct provider as [p|]; [|now apply on_error_about in H].
  destruct (Run.stream run).
  - apply in_app_or in H. destruct H as [H|H]; [now apply tokens_about in H|].
    destruct (Adapter.returned _) as [output|err];
      [now apply after_call_about in H | now apply on_error_about in H].
  - destruct (Adapter.returned _) as [output|err]; [|now apply on_error_about in H].
    destruct H as [H|H]; [settle_about H | now apply after_call_about in H].
Qed.

Lemma processModelForProblem_about (eff : effect) :
  In eff (fst (Worker.processModelForProblem e runId problem model judgeModel run abortSignal)) ->
  about problem eff.
Proof.
  unfold Worker.processModelForProblem. intros H.
  destruct (existsb _ _); [destruct H|].
  destruct (negb _); [destruct H|].
  destruct (Sql.get _ _) as [m|]; cbn [fst] in H.
  - destruct H as [H|H]; [settle_about H | now apply attempt_problem_about in H].
  - settle_about H.
Qed.

Lemma processModelForProblem_names_problem :
  Forall (eq (Problem.id problem))
    (omap problem_of_effect
       (fst (Worker.processModelForProblem e runId problem model judgeModel run abortSignal))).
Proof.
  apply List.Forall_forall. intros id Hin.
  apply list_elem_of_In, list_elem_of_omap in Hin as (eff & Heff & Hid).
  apply list_elem_of_In, processModelForProblem_about in Heff as [Hnone|Hsome]; congruence.
Qed.
End WorkerEffects.

Lemma in_order_block (id : string) (ids block seen : list string) :
  Forall (eq id) block -> in_order_of ids seen -> in_order_of (id :: ids) (block ++ seen).
Proof.
  intros Hblock Hseen. induction Hblock as [|x block <- _ IH]; cbn.
  - now apply order_next.
  - now apply order_same.
Qed.

(** The part of C1 that the code does keep: a worker goes through the
    problems in the order in which [execute] loaded them, so the results
    it inserts and the events it publishes name the problems in that
    order, whatever the providers, the judge and the cancel tokens do. *)
Lemma process_from_in_loaded_order (je : Scheduler.job_env) (l : Scheduler.launch)
    (judgeModel : ModelRef) (m : nat) (model : ModelRef) (todo : list Problem.t) (i : nat) :
  in_order_of (List.map Problem.id todo)
    (omap problem_of_effect (Scheduler.process_from je l judgeModel m model i todo)).
Proof.
  revert i. induction todo as [|problem todo IH]; intros i; cbn [Scheduler.process_from List.map].
  - constructor.
  - destruct (_ || _); [constructor|].
    rewrite omap_app. apply in_order_block; [|apply IH].
    apply processModelForProblem_names_problem.
Qed.

(** C1, at the input where the code departs from it.  In the sample store
    problem [prob-a] was stored before [prob-b] but carries the later
    [created_at] (the clock was set back in between).  The problem list of
    the API, which orders by [created_at], has [prob-b] first; [execute]
    loads the problems without an order and gets [prob-a] first, and the
    worker of [model-1] inserts the result of [prob-a] and publishes its
    events before anything of [prob-b]. *)
Theorem execute_loads_in_storage_order :
  Problem.created_at Sample.problemB < Problem.created_at Sample.problemA /\
  Routes.list_problems Sample.db "set-1" = [Sample.problemB; Sample.problemA] /\
  match Scheduler.execute Sample.db "run-3" with
  | (answer, db', _, Some work) =>
      accepted answer /\
      Scheduler.loaded work = [Sample.problemA; Sample.problemB] /\
      let effects0 :=
        Scheduler.process_from (calm_env (fun _ => db')) work (model_ref Sample.model2)
          0 (model_ref Sample.model1) 0 [Sample.problemA] in
      let db1 := with_run_results (Sql.exec_all (writes_of effects0) (run_results db')) db' in
      let je := calm_env (fun i => if (i =? 0)%nat then db' else db1) in
      List.map (fun t => (ref_id (fst t), omap problem_of_effect (snd t)))
               (fst (fst (Scheduler.job je work db')))
      = [("model-1", ["prob-a"; "prob-a"; "prob-a"; "prob-a"; "prob-a";
                      "prob-b"; "prob-b"; "prob-b"; "prob-b"; "prob-b"])]%string
  | _ => False
  end.
Proof. vm_compute. repeat split; try reflexivity; discriminate. Qed.

(** ** Which runs [execute] starts *)

(** C4, as stated, fails: the sample run [run-2] is completed, and
    [execute] answers 202, detaches the work and sets the run running. *)
Lemma execute_accepts_completed_run :
  status_of_run Sample.db "run-2" = Some RunStatus.completed /\
  match Scheduler.execute Sample.db "run-2" with
  | (answer, db', events, work) =>
      answer = Reply 202 (JObj [("id", JStr "run-2"); ("status", JStr "running")]) /\
      status_of_run db' "run-2" = Some RunStatus.running /\
      events = [run_status_event "run-2" RunStatus.running] /\
      work = Some {| Scheduler.run := Sample.run2;
                     Scheduler.candidates := [model_ref Sample.model1];
                     Scheduler.loaded := [Sample.problemH] |}
  end.
Proof. vm_compute. repeat split. Qed.

Ltac refused_execute :=
  cbn [accepted];
  split;
  [ split; [intros [] | intros (r0 & Heq & Hrun & Hj); try discriminate Heq;
                        injection Heq as <-; congruence]
  | split; [intros []
           | split; [intros _; repeat split
                    | intros Hs; try discriminate Hs; try reflexivity;
                      injection Hs as Hs; congruence] ] ].

(** C4, amended.  [execute] starts a run exactly when the run exists, its
    status is not running, and it names a judge model: it then answers
    202, sets the status to running, publishes that status and detaches
    the work, whatever the status was before (queued, error, completed or
    cancelled).  A run that is running is refused with 409; a refusal
    changes nothing. *)
Theorem execute_guard (db : Db) (id : string) :
  match Scheduler.execute db id with
  | (answer, db', events, work) =>
      (accepted answer <->
       exists r, Sql.get (Sql.run_by_id id) (runs db) = Some r /\
                 Run.status r <> RunStatus.running /\
                 JsString.trim (Run.judge_model_id r) <> EmptyString) /\
      (accepted answer ->
       answer = Reply 202 (JObj [("id", JStr id); ("status", JStr "running")]) /\
       status_of_run db' id = Some RunStatus.running /\
       events = [run_status_event id RunStatus.running] /\
       exists l, work = Some l) /\
      (~ accepted answer -> db' = db /\ events = [] /\ work = None) /\
      (status_of_run db id = Some RunStatus.running ->
       answer = Refuse 409 "Run already running")
  end.
Proof.
  unfold Scheduler.execute, status_of_run.
  destruct (Sql.get (Sql.run_by_id id) (runs db)) as [r|] eqn:Hget; cbn [fmap option_fmap option_map].
  - destruct (Run.status r) eqn:Hst;
      [ | refused_execute | | | ];
      (destruct (String.eqb (JsString.trim (Run.judge_model_id r)) EmptyString) eqn:Hjudge;
       [apply String.eqb_eq in Hjudge; refused_execute | apply String.eqb_neq in Hjudge]).
    all: cbn [accepted].
    all: split; [split; [intros _; exists r; rewrite Hst; repeat split; [discriminate|exact Hjudge]
                        | intros _; exact I] |].
    all: split; [|split; [intros Hno; destruct (Hno I) | intros Hs; discriminate]].
    all: intros _; split; [reflexivity|]; split; [|split; [reflexivity | eexists; reflexivity]].
    all: cbn [runs with_runs]; unfold Sql.get;
      rewrite find_update_by_id by reflexivity; unfold Sql.get in Hget; rewrite Hget;
      reflexivity.
  - refused_execute.
Qed.

(** [execute_guard] on the sample store, at the completed run [run-2]. *)
Lemma execute_guard_witness :
  status_of_run (snd (fst (fst (Scheduler.execute Sample.db "run-2")))) "run-2"
  = Some RunStatus.running.
Proof.
  pose proof (execute_guard Sample.db "run-2") as H.
  destruct (Scheduler.execute Sample.db "run-2") as [[[answer db'] events] work] eqn:E.
  destruct H as (Hiff & Hyes & _).
  apply Hyes, Hiff. exists Sample.run2. repeat split; discriminate.
Defined.

(** ** Cancelling a run *)

(** C10.  When the run is running or queued, the cancel route answers 200
    and, whatever the registry holds (also when it holds no controller of
    this run, so that no worker is in flight), the [run_results] table
    afterwards is the table before, row by row: a row of this run that was
    pending or manual is now cancelled with [cancelled_at] set to the
    clock reading and is otherwise as it was, and every other row, so
    every row in a terminal status, is unchanged. *)
Theorem cancel_run_cancels_open_rows
    (db : Db) (reg : Cancellation.registry) (id : string) (t1 t2 : Z) (r : Run.t) :
  Sql.get (Sql.run_by_id id) (runs db) = Some r ->
  Run.status r = RunStatus.running \/ Run.status r = RunStatus.queued ->
  let '(answer, db', _, _) := Routes.cancel_run db reg id t1 t2 in
  (exists body, answer = Reply 200 body) /\
  Forall2 (open_rows_cancelled id t2) (run_results db) (run_results db').
Proof.
  intros Hget Hstatus. unfold Routes.cancel_run. rewrite Hget.
  assert (Hgo : forall (X : Type) (a b : X),
             match Run.status r with
             | RunStatus.running | RunStatus.queued => a
             | _ => b
             end = a).
  { intros X a b. destruct Hstatus as [-> | ->]; reflexivity. }
  rewrite Hgo. destruct (Cancellation.cancelRun id reg) as [reg' cancelled].
  split; [eexists; reflexivity|].
  cbn [run_results with_run_results with_runs Sql.exec].
  eapply Forall2_impl; [apply update_Forall2|].
  intros old new Hrow. cbn beta in Hrow. unfold open_rows_cancelled. split.
  - intros Hrun Hopen.
    apply is_open_true in Hopen. apply String.eqb_eq in Hrun.
    rewrite Hrun, Hopen in Hrow. cbn in Hrow. subst new. repeat split.
  - intros Hother.
    destruct (String.eqb (RunResult.run_id old) id) eqn:Hrun; cbn in Hrow; [|exact Hrow].
    destruct Hother as [Hne|Hterm].
    + apply String.eqb_eq in Hrun. contradiction.
    + apply is_open_false in Hterm. now rewrite Hterm in Hrow.
Qed.

(** [cancel_run_cancels_open_rows] on the sample store: run [run-1] is
    running, with a pending and a completed row. *)
Lemma cancel_run_cancels_open_rows_witness :
  let '(answer, db', _, _) := Routes.cancel_run Sample.db Cancellation.empty "run-1" 50 51 in
  (exists body, answer = Reply 200 body) /\
  Forall2 (open_rows_cancelled "run-1" 51) (run_results Sample.db) (run_results db').
Proof.
  apply (cancel_run_cancels_open_rows Sample.db Cancellation.empty "run-1" 50 51 Sample.run1).
  - reflexivity.
  - left. reflexivity.
Defined.

(** ** Manual review *)

(** C6, as stated, fails: the sample result [rr-4] is cancelled, its
    problem is an HTML problem, and the review route accepts a decision
    for it and turns it into a completed result with score 100. *)
Lemma review_accepts_cancelled_result :
  RunResult.status <$> Sql.get (Sql.result_by_id "rr-4") (run_results Sample.db)
    = Some ResultStatus.cancelled /\
  fst (Routes.review Sample.db "rr-4" "pass")
    = Reply 200 (JObj [("id", JStr "rr-4"); ("status", JStr "completed")]) /\
  Sql.get (Sql.result_by_id "rr-4") (run_results (snd (Routes.review Sample.db "rr-4" "pass")))
    = Some (RunResult.set_reviewed (SqlNum 100 0)
              (Sample.result "rr-4" "run-2" "prob-h" ResultStatus.cancelled SqlNull)).
Proof. vm_compute. repeat split. Qed.

(** C6, amended.  A review succeeds exactly when the decision is [pass] or
    [fail], the result exists, and its problem exists and is an HTML
    problem; the result's current status plays no part.  On success every
    row with that id gets score 100 for [pass] and 0 for [fail], status
    completed and [judged_by = 'human'], and no other row changes; a
    refusal leaves the store as it was. *)
Theorem review_guard (db : Db) (id decision : string) :
  let answer := fst (Routes.review db id decision) in
  let db' := snd (Routes.review db id decision) in
  (accepted answer <->
   (decision = "pass" \/ decision = "fail") /\
   exists row p,
     Sql.get (Sql.result_by_id id) (run_results db) = Some row /\
     Sql.get (Sql.problem_by_id (RunResult.problem_id row)) (problems db) = Some p /\
     Problem.type p = "html") /\
  (accepted answer ->
   answer = Reply 200 (JObj [("id", JStr id); ("status", JStr "completed")]) /\
   Forall2 (reviewed_as id decision) (run_results db) (run_results db') /\
   with_run_results (run_results db) db' = db) /\
  (~ accepted answer -> db' = db).
Proof.
  cbn zeta. unfold Routes.review.
  assert (Hdec : (String.eqb decision "pass" || String.eqb decision "fail") = true
                 <-> decision = "pass" \/ decision = "fail").
  { rewrite orb_true_iff, !String.eqb_eq. reflexivity. }
  destruct (String.eqb decision "pass" || String.eqb decision "fail") eqn:Hd; cbn [negb].
  2: { cbn [fst snd accepted]. split; [|split; [intros [] | reflexivity]].
       split; [intros [] | intros [Hok _]; apply Hdec in Hok; discriminate]. }
  destruct (Sql.get (Sql.result_by_id id) (run_results db)) as [row|] eqn:Hrow.
  2: { cbn [fst snd accepted]. split; [|split; [intros [] | reflexivity]].
       split; [intros [] | intros [_ (row & p & [=] & _)]]. }
  destruct (Sql.get (Sql.problem_by_id (RunResult.problem_id row)) (problems db)) as [p|] eqn:Hp.
  2: { cbn [fst snd accepted]. split; [|split; [intros [] | reflexivity]].
       split; [intros [] | intros [_ (row' & p & [= <-] & Hp' & _)]]. congruence. }
  unfold Problem.is_html.
  destruct (String.eqb (Problem.type p) "html") eqn:Hhtml.
  2: { cbn [fst snd accepted]. split; [|split; [intros [] | reflexivity]].
       split; [intros [] | intros [_ (row' & p' & [= <-] & Hp' & Hty)]].
       rewrite Hp in Hp'. injection Hp' as <-. apply String.eqb_neq in Hhtml. contradiction. }
  apply String.eqb_eq in Hhtml. cbn [fst snd accepted].
  split; [split; [intros _; split; [now apply Hdec | eauto] | intros _; exact I]|].
  split; [|intros Hno; destruct (Hno I)].
  intros _. split; [reflexivity|]. split.
  - cbn [run_results with_run_results Sql.exec].
    eapply Forall2_impl; [apply update_Forall2|].
    intros old new Hon. cbn beta in Hon. unfold reviewed_as, Sql.result_by_id in *.
    destruct (String.eqb (RunResult.id old) id); [|exact Hon].
    subst new. repeat split.
  - unfold with_run_results. cbn. apply db_eta.
Qed.

(** [review_guard] on the sample store, at the cancelled result [rr-4]. *)
Lemma review_guard_witness :
  Forall2 (reviewed_as "rr-4" "pass") (run_results Sample.db)
          (run_results (snd (Routes.review Sample.db "rr-4" "pass"))).
Proof.
  destruct (review_guard Sample.db "rr-4" "pass") as (Hiff & Hyes & _).
  apply Hyes, Hiff. split; [left; reflexivity|].
  exists (Sample.result "rr-4" "run-2" "prob-h" ResultStatus.cancelled SqlNull), Sample.problemH.
  repeat split.
Defined.

(** ** Cascading deletion of a problem set *)

Lemma foldl_delete_results (ws : list Sql.rr_write) (d : Db) :
  foldl (fun d f => f d) d (List.map Routes.delete_results ws)
  = with_run_results (Sql.exec_all ws (run_results d)) d.
Proof.
  revert d. induction ws as [|w ws IH]; intros d; cbn.
  - unfold with_run_results. now rewrite db_eta.
  - rewrite IH. reflexivity.
Qed.

Lemma in_delete_of_problems (ps : list Problem.t) (rows : list RunResult.t) (rr : RunResult.t) :
  In rr (Sql.exec_all (List.map (fun p => Sql.DeleteOfProblem (Problem.id p)) ps) rows)
  <-> In rr rows /\ forall p, In p ps -> Problem.id p <> RunResult.problem_id rr.
Proof.
  revert rows. induction ps as [|q ps IH]; intros rows.
  - cbn. intuition.
  - change (In rr (Sql.exec_all (List.map (fun p => Sql.DeleteOfProblem (Problem.id p)) ps)
                     (Sql.delete (fun r => String.eqb (RunResult.problem_id r) (Problem.id q)) rows))
            <-> In rr rows /\ forall p, In p (q :: ps) -> Problem.id p <> RunResult.problem_id rr).
    rewrite IH, in_delete.
    rewrite String.eqb_neq. split.
    + intros [[Hin Hq] Hps]. split; [exact Hin|].
      intros p [<-|Hp]; [congruence | now apply Hps].
    + intros [Hin Hall]. split; [split; [exact Hin|]|].
      * intros Heq. apply (Hall q); [left; reflexivity | congruence].
      * intros p Hp. apply Hall. right. exact Hp.
Qed.

Lemma in_delete_of_runs (rs : list Run.t) (rows : list RunResult.t) (rr : RunResult.t) :
  In rr (Sql.exec_all (List.map (fun r => Sql.DeleteOfRun (Run.id r)) rs) rows)
  <-> In rr rows /\ forall r, In r rs -> Run.id r <> RunResult.run_id rr.
Proof.
  revert rows. induction rs as [|q rs IH]; intros rows.
  - cbn. intuition.
  - change (In rr (Sql.exec_all (List.map (fun r => Sql.DeleteOfRun (Run.id r)) rs)
                     (Sql.delete (fun r => String.eqb (RunResult.run_id r) (Run.id q)) rows))
            <-> In rr rows /\ forall r, In r (q :: rs) -> Run.id r <> RunResult.run_id rr).
    rewrite IH, in_delete.
    rewrite String.eqb_neq. split.
    + intros [[Hin Hq] Hrs]. split; [exact Hin|].
      intros r [<-|Hr]; [congruence | now apply Hrs].
    + intros [Hin Hall]. split; [split; [exact Hin|]|].
      * intros Heq. apply (Hall q); [left; reflexivity | congruence].
      * intros r Hr. apply Hall. right. exact Hr.
Qed.

(** The statements of the transaction, run to the end on a store [d]. *)
Lemma cascade_statements (id : string) (db d : Db) :
  providers d = providers db -> models d = models db ->
  problem_sets d = problem_sets db -> problems d = problems db ->
  runs d = runs db -> run_results d = run_results db ->
  let runs_ := Sql.all (Sql.run_in_set id) (runs db) in
  let problemIds := Sql.all (Sql.problem_in_set id) (problems db) in
  let d' := foldl (fun d f => f d) d
    (List.map (fun p => Routes.delete_results (Sql.DeleteOfProblem (Problem.id p))) problemIds ++
     List.map (fun r => Routes.delete_results (Sql.DeleteOfRun (Run.id r))) runs_ ++
     [ (fun d => with_runs (Sql.delete (Sql.run_in_set id) (runs d)) d);
       (fun d => with_problems (Sql.delete (Sql.problem_in_set id) (problems d)) d);
       (fun d => with_problem_sets
          (Sql.delete (fun s => String.eqb (ProblemSet.id s) id) (problem_sets d)) d) ])%list in
  cascade_done id db d' /\ foreign_keys d' = foreign_keys d.
Proof.
  intros Hprov Hmod Hsets Hprobs Hruns Hres runs_ problemIds d'.
  subst d'. rewrite !foldl_app.
  rewrite <- (List.map_map (fun p => Sql.DeleteOfProblem (Problem.id p)) Routes.delete_results).
  rewrite <- (List.map_map (fun r => Sql.DeleteOfRun (Run.id r)) Routes.delete_results).
  rewrite !foldl_delete_results. cbn.
  split; [|reflexivity].
  unfold cascade_done. cbn. rewrite Hprov, Hmod, Hsets, Hprobs, Hruns, Hres.
  split; [reflexivity|]. split; [reflexivity|].
  split; [|split; [|split]].
  - intros s. rewrite List.filter_In, negb_true_iff, String.eqb_neq. reflexivity.
  - intros p. rewrite List.filter_In, negb_true_iff. unfold Sql.problem_in_set.
    rewrite String.eqb_neq. reflexivity.
  - intros r. rewrite List.filter_In, negb_true_iff. unfold Sql.run_in_set.
    rewrite String.eqb_neq. reflexivity.
  - intros rr. rewrite in_delete_of_runs, in_delete_of_problems.
    unfold result_of_set, runs_, problemIds, Sql.all. split.
    + intros [[Hin Hp] Hr]. split; [exact Hin|].
      intros [(r & Hrin & Hrset & Hrid) | (p & Hpin & Hpset & Hpid)].
      * apply (Hr r); [|exact Hrid].
        apply List.filter_In. split; [exact Hrin|]. now apply String.eqb_eq.
      * apply (Hp p); [|exact Hpid].
        apply List.filter_In. split; [exact Hpin|]. now apply String.eqb_eq.
    + intros [Hin Hnone]. repeat split; auto.
      * intros p Hp Hpid. apply List.filter_In in Hp as [Hpin Hpset].
        apply String.eqb_eq in Hpset. apply Hnone. right. eauto.
      * intros r Hr Hrid. apply List.filter_In in Hr as [Hrin Hrset].
        apply String.eqb_eq in Hrset. apply Hnone. left. eauto.
Qed.

(** C9.  Deleting a problem set leaves [PRAGMA foreign_keys] as it found
    it on every path.  When the transaction goes through, the answer is
    204 and the store has lost the set's row, every problem of the set,
    every run that references the set, and every result of those runs or
    of those problems, and nothing else.  When a statement of the
    transaction fails, the error goes to the caller and the store is as it
    was: the deletions happen together or not at all.  When there is no
    such set, the answer is 404 and the store is as it was. *)
Theorem delete_problem_set_cascade (db : Db) (id : string) (fails_at : option nat) :
  let answer := fst (Routes.delete_problem_set db id fails_at) in
  let db' := snd (Routes.delete_problem_set db id fails_at) in
  foreign_keys db' = foreign_keys db /\
  match answer with
  | Returned (Reply code _) => code = 204%nat /\ cascade_done id db db'
  | Returned (Refuse code _) =>
      code = 404%nat /\ db' = db /\ forall s, In s (problem_sets db) -> ProblemSet.id s <> id
  | Thrown _ => db' = db
  end /\
  (fails_at = None ->
   (exists s, In s (problem_sets db) /\ ProblemSet.id s = id) ->
   exists body, answer = Returned (Reply 204 body)).
Proof.
  cbn zeta. unfold Routes.delete_problem_set.
  destruct (Sql.get _ (problem_sets db)) as [s|] eqn:Hget.
  - set (stmts := (_ ++ _ ++ _)%list).
    set (db0 := if foreign_keys db then with_foreign_keys false db else db).
    assert (Hsame : providers db0 = providers db /\ models db0 = models db /\
                    problem_sets db0 = problem_sets db /\ problems db0 = problems db /\
                    runs db0 = runs db /\ run_results db0 = run_results db).
    { subst db0. destruct (foreign_keys db); repeat split. }
    destruct Hsame as (H1 & H2 & H3 & H4 & H5 & H6).
    destruct (cascade_statements id db db0 H1 H2 H3 H4 H5 H6) as [Hdone Hfk].
    fold stmts in Hdone, Hfk.
    assert (Hback : (if foreign_keys db then with_foreign_keys true db0 else db0) = db).
    { subst db0. destruct db as [a b c d e f []]; reflexivity. }
    assert (Hrun : forall d1, d1 = foldl (fun d f => f d) db0 stmts ->
              foreign_keys (if foreign_keys db then with_foreign_keys true d1 else d1)
                = foreign_keys db /\
              cascade_done id db (if foreign_keys db then with_foreign_keys true d1 else d1)).
    { intros d1 ->. split.
      - destruct (foreign_keys db) eqn:Hon; [reflexivity|].
        rewrite Hfk. subst db0. now rewrite Hon.
      - destruct (foreign_keys db); [|exact Hdone].
        unfold cascade_done in *. cbn. exact Hdone. }
    unfold Routes.transaction.
    destruct fails_at as [k|].
    + destruct (k <? length stmts)%nat; cbn [fst snd].
      * rewrite Hback. split; [reflexivity|]. split; [reflexivity|]. intros; discriminate.
      * destruct (Hrun _ eq_refl) as [Hf Hc].
        split; [exact Hf|]. split; [split; [reflexivity|exact Hc]|]. intros; discriminate.
    + cbn [fst snd]. destruct (Hrun _ eq_refl) as [Hf Hc].
      split; [exact Hf|]. split; [split; [reflexivity|exact Hc]|].
      intros _ _. eexists; reflexivity.
  - cbn [fst snd]. split; [reflexivity|]. split; [split; [reflexivity|split; [reflexivity|]]|].
    + intros s Hin Hid.
      apply (List.find_none _ _ Hget) in Hin. cbn in Hin.
      apply String.eqb_neq in Hin. contradiction.
    + intros _ (s & Hin & Hid).
      apply (List.find_none _ _ Hget) in Hin. cbn in Hin.
      apply String.eqb_neq in Hin. contradiction.
Qed.

(** [delete_problem_set_cascade] on the sample store, deleting [set-1]. *)
Lemma delete_problem_set_cascade_witness :
  exists body, fst (Routes.delete_problem_set Sample.db "set-1" None) = Returned (Reply 204 body).
Proof.
  apply (proj2 (proj2 (delete_problem_set_cascade Sample.db "set-1" None))).
  - reflexivity.
  - exists Sample.set1. split; [left; reflexivity | reflexivity].
Defined.

(** * The kill-switch registry on its own *)

Lemma abort_all_lookup_other (cs : list nat) (flags : list bool) (c : nat) :
  ~ In c cs -> Cancellation.abort_all cs flags !! c = flags !! c.
Proof.
  unfold Cancellation.abort_all.
  induction cs as [|x cs IH]; intros Hnot; [reflexivity|]. cbn [foldr].
  rewrite list_lookup_insert_ne.
  - apply IH. intros Hin. apply Hnot. now right.
  - intros ->. apply Hnot. now left.
Qed.

Lemma startsWith_prefix (s p q : string) :
  JsString.startsWith (s +:+ q) p = true -> String.length s = String.length p -> s = p.
Proof.
  revert s. induction p as [|a p IH]; intros [|b s] Hst Hlen; try discriminate; [reflexivity|].
  change (Ascii.eqb a b && JsString.startsWith (s +:+ q) p = true) in Hst.
  apply andb_true_iff in Hst as [Hab Hrest].
  apply Ascii.eqb_eq in Hab. subst b. f_equal. apply IH; [exact Hrest|].
  cbn in Hlen. lia.
Qed.

Lemma length_append (a b : string) :
  String.length (a +:+ b) = (String.length a + String.length b)%nat.
Proof.
  induction a as [|x a IH]; [reflexivity|].
  change (S (String.length (a +:+ b)) = S (String.length a + String.length b)). now rewrite IH.
Qed.

(** A model key of another run of the same id length is not one of this
    run's keys. *)
Lemma model_key_of_other_run (runId other modelId : string) :
  String.length other = String.length runId -> other <> runId ->
  JsString.startsWith (Cancellation.model_key other modelId) (runId +:+ "-") = false.
Proof.
  intros Hlen Hne. apply not_true_is_false. intros Hst. apply Hne.
  unfold Cancellation.model_key in Hst. rewrite <- append_assoc in Hst.
  apply startsWith_prefix in Hst.
  - clear - Hst. revert runId Hst.
    induction other as [|a o IH]; intros [|b r] H; try discriminate.
    + reflexivity.
    + destruct r; discriminate.
    + destruct o; discriminate.
    + injection H as -> H. f_equal. now apply IH.
  - rewrite !length_append. cbn. lia.
Qed.

(** X1.  [cancelModel] triggers exactly one controller.  When a controller
    is registered for the model of the run, the call returns [true], that
    controller reads aborted afterwards, every other controller keeps its
    flag, the run's own controller stays registered, and of the model keys
    only this one is removed. *)
Theorem cancelModel_triggers_one_controller
    (runId modelId : string) (reg : Cancellation.registry) (c : nat) :
  Cancellation.modelCancellations reg !! Cancellation.model_key runId modelId = Some c ->
  (c < length (Cancellation.controllers reg))%nat ->
  let reg' := fst (Cancellation.cancelModel runId modelId reg) in
  snd (Cancellation.cancelModel runId modelId reg) = true /\
  Cancellation.aborted reg' c = true /\
  (forall c', c' <> c -> Cancellation.aborted reg' c' = Cancellation.aborted reg c') /\
  Cancellation.runCancellations reg' = Cancellation.runCancellations reg /\
  Cancellation.modelCancellations reg' !! Cancellation.model_key runId modelId = None /\
  (forall key, key <> Cancellation.model_key runId modelId ->
     Cancellation.modelCancellations reg' !! key = Cancellation.modelCancellations reg !! key).
Proof.
  intros Hkey Hlt. unfold Cancellation.cancelModel. rewrite Hkey. cbn [fst snd].
  unfold Cancellation.aborted.
  cbn [Cancellation.controllers Cancellation.runCancellations Cancellation.modelCancellations].
  split; [reflexivity|]. split; [|split; [|split; [|split]]].
  - now rewrite list_lookup_insert_eq.
  - intros c' Hne. now rewrite list_lookup_insert_ne.
  - reflexivity.
  - apply lookup_delete_eq.
  - intros key Hne. now apply lookup_delete_ne.
Qed.

(** [cancelModel_triggers_one_controller] for [model-1] of [run-1] while
    two runs execute. *)
Lemma cancelModel_triggers_one_controller_witness :
  let reg' := fst (Cancellation.cancelModel "run-1" "model-1" working_registry) in
  snd (Cancellation.cancelModel "run-1" "model-1" working_registry) = true /\
  Cancellation.aborted reg' 1 = true /\
  (forall c', c' <> 1%nat ->
     Cancellation.aborted reg' c' = Cancellation.aborted working_registry c') /\
  Cancellation.runCancellations reg' = Cancellation.runCancellations working_registry /\
  Cancellation.modelCancellations reg' !! Cancellation.model_key "run-1" "model-1" = None /\
  (forall key, key <> Cancellation.model_key "run-1" "model-1" ->
     Cancellation.modelCancellations reg' !! key
     = Cancellation.modelCancellations working_registry !! key).
Proof.
  apply (cancelModel_triggers_one_controller "run-1" "model-1" working_registry 1).
  - vm_compute. reflexivity.
  - vm_compute. lia.
Defined.

(** X2.  A cancellation is consumed by its first use: cancelling the same
    run, or the same model of a run, a second time finds no controller,
    returns [false] and leaves the registry as the first call left it. *)
Theorem cancel_twice_finds_nothing (runId modelId : string) (reg : Cancellation.registry) :
  Cancellation.cancelRun runId (fst (Cancellation.cancelRun runId reg))
  = (fst (Cancellation.cancelRun runId reg), false) /\
  Cancellation.cancelModel runId modelId (fst (Cancellation.cancelModel runId modelId reg))
  = (fst (Cancellation.cancelModel runId modelId reg), false).
Proof.
  split.
  - unfold Cancellation.cancelRun at 2 3.
    destruct (Cancellation.runCancellations reg !! runId) as [c|] eqn:Hrun; cbn [fst].
    + unfold Cancellation.cancelRun. cbn [Cancellation.runCancellations].
      now rewrite lookup_delete_eq.
    + unfold Cancellation.cancelRun. now rewrite Hrun.
  - unfold Cancellation.cancelModel at 2 3.
    destruct (Cancellation.modelCancellations reg !! Cancellation.model_key runId modelId)
      as [c|] eqn:Hkey; cbn [fst].
    + unfold Cancellation.cancelModel. cbn [Cancellation.modelCancellations].
      now rewrite lookup_delete_eq.
    + unfold Cancellation.cancelModel. now rewrite Hkey.
Qed.

(** X3.  [cleanupCancellations] forgets the run without aborting anything:
    every controller keeps its flag, and afterwards neither [cancelRun] nor
    [cancelModel] finds a controller for the run, so a cancel request that
    arrives after the clean-up triggers no token. *)
Theorem cleanupCancellations_forgets_without_aborting
    (runId : string) (reg : Cancellation.registry) :
  let reg' := Cancellation.cleanupCancellations runId reg in
  (forall c, Cancellation.aborted reg' c = Cancellation.aborted reg c) /\
  Cancellation.cancelRun runId reg' = (reg', false) /\
  (forall modelId, Cancellation.cancelModel runId modelId reg' = (reg', false)) /\
  (forall key, JsString.startsWith key (runId +:+ "-") = false ->
     Cancellation.modelCancellations reg' !! key = Cancellation.modelCancellations reg !! key).
Proof.
  cbn zeta. split; [reflexivity|]. split; [|split].
  - unfold Cancellation.cancelRun, Cancellation.cleanupCancellations.
    cbn [Cancellation.runCancellations]. now rewrite lookup_delete_eq.
  - intros modelId. unfold Cancellation.cancelModel, Cancellation.cleanupCancellations.
    cbn [Cancellation.modelCancellations].
    assert (Hgone : (Cancellation.modelCancellations reg
                       ∖ Cancellation.of_run runId (Cancellation.modelCancellations reg))
                      !! Cancellation.model_key runId modelId = None).
    { apply lookup_difference_None.
      destruct (Cancellation.modelCancellations reg !! Cancellation.model_key runId modelId)
        as [c|] eqn:Hc; [right | left; reflexivity].
      exists c. unfold Cancellation.of_run. apply map_lookup_filter_Some.
      split; [exact Hc|]. cbn. unfold Cancellation.model_key.
      rewrite <- append_assoc. apply startsWith_append. }
    now rewrite Hgone.
  - intros key Hkey. unfold Cancellation.cleanupCancellations.
    cbn [Cancellation.modelCancellations].
    destruct (Cancellation.modelCancellations reg !! key) as [c|] eqn:Hc.
    + apply lookup_difference_Some. split; [exact Hc|].
      unfold Cancellation.of_run. apply map_lookup_filter_None. right.
      intros x _ Hst. cbn in Hst. congruence.
    + apply lookup_difference_None. now left.
Qed.

(** X4.  [cancelRun] reaches only its own run.  A controller that is
    neither the run's nor registered under a key beginning with the run's
    id and a hyphen keeps its flag; and for another run whose id has the
    same length (as all generated ids have), the run controller and every
    model controller stay registered. *)
Theorem cancelRun_spares_other_runs
    (runId other : string) (reg : Cancellation.registry) :
  String.length other = String.length runId -> other <> runId ->
  let reg' := fst (Cancellation.cancelRun runId reg) in
  Cancellation.runCancellations reg' !! other = Cancellation.runCancellations reg !! other /\
  (forall modelId,
     Cancellation.modelCancellations reg' !! Cancellation.model_key other modelId
     = Cancellation.modelCancellations reg !! Cancellation.model_key other modelId) /\
  (forall c,
     Cancellation.runCancellations reg !! runId <> Some c ->
     (forall key, JsString.startsWith key (runId +:+ "-") = true ->
                  Cancellation.modelCancellations reg !! key <> Some c) ->
     Cancellation.aborted reg' c = Cancellation.aborted reg c).
Proof.
  intros Hlen Hne. unfold Cancellation.cancelRun.
  destruct (Cancellation.runCancellations reg !! runId) as [c0|] eqn:Hrun; cbn [fst];
    [|repeat split; reflexivity].
  cbn [Cancellation.runCancellations Cancellation.modelCancellations].
  split; [|split].
  - apply lookup_delete_ne. congruence.
  - intros modelId.
    pose proof (model_key_of_other_run runId other modelId Hlen Hne) as Hst.
    destruct (Cancellation.modelCancellations reg !! Cancellation.model_key other modelId)
      as [c|] eqn:Hc.
    + apply lookup_difference_Some. split; [exact Hc|].
      unfold Cancellation.of_run. apply map_lookup_filter_None. right.
      intros x _ Hx. cbn in Hx. congruence.
    + apply lookup_difference_None. now left.
  - intros c Hnot_run Hnot_model. unfold Cancellation.aborted.
    cbn [Cancellation.controllers]. f_equal. apply abort_all_lookup_other.
    intros [Heq|Hin].
    + apply Hnot_run. now subst.
    + apply list_elem_of_In, list_elem_of_fmap in Hin as ((key & c') & Hc' & Hin).
      cbn in Hc'. subst c'. apply elem_of_map_to_list in Hin.
      unfold Cancellation.of_run in Hin. apply map_lookup_filter_Some in Hin as [Hkey Hpre].
      cbn in Hpre. exact (Hnot_model key Hpre Hkey).
Qed.

(** [cancelRun_spares_other_runs] for [run-1] and [run-2] while both
    execute. *)
Lemma cancelRun_spares_other_runs_witness :
  let reg' := fst (Cancellation.cancelRun "run-1" working_registry) in
  Cancellation.runCancellations reg' !! "run-2"
  = Cancellation.runCancellations working_registry !! "run-2" /\
  (forall modelId,
     Cancellation.modelCancellations reg' !! Cancellation.model_key "run-2" modelId
     = Cancellation.modelCancellations working_registry !! Cancellation.model_key "run-2" modelId) /\
  (forall c,
     Cancellation.runCancellations working_registry !! "run-1" <> Some c ->
     (forall key, JsString.startsWith key ("run-1" +:+ "-") = true ->
                  Cancellation.modelCancellations working_registry !! key <> Some c) ->
     Cancellation.aborted reg' c = Cancellation.aborted working_registry c).
Proof.
  apply (cancelRun_spares_other_runs "run-1" "run-2" working_registry).
  - reflexivity.
  - discriminate.
Defined.

(** * [withRetry] with any number of retries and any base delay *)

Lemma sum_doubling (b : Z) (a n : nat) :
  foldr Z.add 0 (List.map (fun k => b * 2 ^ Z.of_nat k) (seq a n))
  = b * 2 ^ Z.of_nat a * (2 ^ Z.of_nat n - 1).
Proof.
  revert a. induction n as [|n IH]; intros a; [cbn; lia|].
  cbn [seq List.map foldr]. rewrite IH.
  replace (Z.of_nat (S a)) with (Z.of_nat a + 1) by lia.
  replace (Z.of_nat (S n)) with (Z.of_nat n + 1) by lia.
  rewrite !Z.pow_add_r by lia. lia.
Qed.

(** X5.  Let the retry budget be a whole number [maxRetries >= 0] and the
    base delay a whole number of at least 1 ms, with the longest back-off
    [baseDelay * 2^(maxRetries-1)] at most 2147483647 ms: the range in
    which the delays are computed exactly and the timer waits as long as
    it is told.  Then [withRetry] invokes the operation at least once and
    at most [maxRetries + 1] times, sleeps once between two successive
    invocations, the [k]-th sleep (from 0) lasting [baseDelay * 2^k], so
    that a call that made [n] invocations slept [baseDelay * (2^(n-1) - 1)]
    in all; every sleep stays in that range; and with no retries allowed
    it never sleeps. *)
Theorem withRetry_backoff_closed_form
    (T : Type) (operation : nat -> outcome T) (maxRetries : nat) (baseDelay : Z) :
  1 <= baseDelay ->
  baseDelay * 2 ^ Z.of_nat (maxRetries - 1) <= 2147483647 ->
  let r := Retry.withRetry operation maxRetries baseDelay in
  (1 <= Retry.attempts r <= S maxRetries)%nat /\
  length (Retry.sleeps r) = (Retry.attempts r - 1)%nat /\
  (forall k, (k < Retry.attempts r - 1)%nat ->
     nth k (Retry.sleeps r) 0 = baseDelay * 2 ^ Z.of_nat k) /\
  Retry.total_sleep r = baseDelay * (2 ^ Z.of_nat (Retry.attempts r - 1) - 1) /\
  Forall (fun delay => 1 <= delay <= 2147483647) (Retry.sleeps r) /\
  (maxRetries = 0%nat -> Retry.sleeps r = []).
Proof.
  intros Hbase Hlongest r.
  destruct (loop_run operation maxRetries baseDelay (S maxRetries) 0 {| message := EmptyString |})
    as (Hn & Hs & _); [lia|lia|].
  fold (Retry.withRetry operation maxRetries baseDelay) in Hn, Hs. fold r in Hn, Hs.
  split; [exact Hn|]. split; [|split; [|split; [|split]]].
  - now rewrite Hs, length_map, length_seq.
  - intros k Hk. rewrite Hs.
    rewrite (nth_indep _ 0 ((fun k => baseDelay * 2 ^ Z.of_nat k) 0%nat))
      by now rewrite length_map, length_seq.
    rewrite (map_nth (fun k => baseDelay * 2 ^ Z.of_nat k)), seq_nth by exact Hk.
    reflexivity.
  - unfold Retry.total_sleep. rewrite Hs, sum_doubling. cbn [Z.of_nat]. lia.
  - rewrite Hs. apply List.Forall_forall. intros delay Hin.
    apply in_map_iff in Hin as (k & <- & Hk). apply in_seq in Hk.
    assert (Hpow : 1 <= 2 ^ Z.of_nat k <= 2 ^ Z.of_nat (maxRetries - 1)).
    { split; [|apply Z.pow_le_mono_r; lia].
      pose proof (Z.pow_pos_nonneg 2 (Z.of_nat k)). lia. }
    nia.
  - intros H0. rewrite Hs. replace (Retry.attempts r - 1)%nat with 0%nat by lia. reflexivity.
Qed.

(** [withRetry_backoff_closed_form] at the arguments of every adapter call,
    3 retries from 1000 ms, with an operation that fails three times and
    then returns. *)
Lemma withRetry_backoff_closed_form_witness :
  let r := Retry.withRetry
             (fun k => if (k <? 3)%nat then Thrown {| message := "Gemini error: 500" |}
                       else Returned k) 3 1000 in
  Retry.attempts r = 4%nat /\
  Retry.sleeps r = [1000; 2000; 4000] /\
  Retry.total_sleep r = 1000 * (2 ^ Z.of_nat (Retry.attempts r - 1) - 1) /\
  Forall (fun delay => 1 <= delay <= 2147483647) (Retry.sleeps r).
Proof.
  pose proof (withRetry_backoff_closed_form nat
                (fun k => if (k <? 3)%nat then Thrown {| message := "Gemini error: 500" |}
                          else Returned k) 3 1000) as H.
  cbv zeta in H.
  destruct H as (_ & _ & _ & Htotal & Hrange & _); [lia | vm_compute; discriminate |].
  split; [vm_compute; reflexivity|]. split; [vm_compute; reflexivity|].
  split; [exact Htotal | exact Hrange].
Defined.

(** * Request bodies *)

(** ** Objects under construction *)

Lemma obj_set_keys (k : string) (v : jsval) (o : Adapter.obj) (k' : string) :
  In k' (List.map fst (Adapter.obj_set k v o)) <-> k' = k \/ In k' (List.map fst o).
Proof.
  induction o as [|[k1 v1] o IH]; cbn.
  - intuition congruence.
  - destruct (String.eqb k1 k) eqn:Hk; cbn.
    + apply String.eqb_eq in Hk. subst k1. intuition congruence.
    + rewrite IH. intuition congruence.
Qed.

Lemma obj_set_NoDup (k : string) (v : jsval) (o : Adapter.obj) :
  List.NoDup (List.map fst o) -> List.NoDup (List.map fst (Adapter.obj_set k v o)).
Proof.
  induction o as [|[k1 v1] o IH]; cbn; intros Hnd.
  - constructor; [intros []|constructor].
  - inversion Hnd as [|? ? Hnotin Hnd']; subst.
    destruct (String.eqb k1 k) eqn:Hk; cbn.
    + apply String.eqb_eq in Hk. subst k1. now constructor.
    + apply String.eqb_neq in Hk. constructor; [|now apply IH].
      rewrite obj_set_keys. intros [->|Hin]; [congruence | contradiction].
Qed.

Lemma obj_get_notin (k : string) (o : Adapter.obj) :
  ~ In k (List.map fst o) -> Adapter.obj_get k o = None.
Proof.
  unfold Adapter.obj_get. induction o as [|[k1 v1] o IH]; cbn; intros Hnot; [reflexivity|].
  destruct (String.eqb k1 k) eqn:Hk.
  - apply String.eqb_eq in Hk. subst k1. exfalso. apply Hnot. now left.
  - apply IH. intros Hin. apply Hnot. now right.
Qed.

Lemma obj_get_set_eq (k : string) (v : jsval) (o : Adapter.obj) :
  Adapter.obj_get k (Adapter.obj_set k v o) = v.
Proof.
  unfold Adapter.obj_get. induction o as [|[k1 v1] o IH]; cbn.
  - now rewrite String.eqb_refl.
  - destruct (String.eqb k1 k) eqn:Hk; cbn.
    + now rewrite String.eqb_refl.
    + now rewrite Hk.
Qed.

Lemma obj_get_set_ne (k k' : string) (v : jsval) (o : Adapter.obj) :
  k <> k' -> Adapter.obj_get k (Adapter.obj_set k' v o) = Adapter.obj_get k o.
Proof.
  intros Hne. unfold Adapter.obj_get. induction o as [|[k1 v1] o IH]; cbn.
  - apply String.eqb_neq in Hne. rewrite String.eqb_sym in Hne. now rewrite Hne.
  - destruct (String.eqb k1 k') eqn:Hk; cbn.
    + apply String.eqb_eq in Hk. subst k1.
      apply String.eqb_neq in Hne. rewrite String.eqb_sym in Hne. now rewrite Hne.
    + destruct (String.eqb k1 k); [reflexivity | exact IH].
Qed.

Lemma spread_keys (a b : Adapter.obj) (k : string) :
  In k (List.map fst (Adapter.spread a b)) <-> In k (List.map fst a) \/ In k (List.map fst b).
Proof.
  unfold Adapter.spread. revert a. induction b as [|[k1 v1] b IH]; intros a; cbn [foldl].
  - cbn. tauto.
  - rewrite IH, obj_set_keys. cbn. intuition congruence.
Qed.

Lemma spread_NoDup (a b : Adapter.obj) :
  List.NoDup (List.map fst a) -> List.NoDup (List.map fst (Adapter.spread a b)).
Proof.
  unfold Adapter.spread. revert a. induction b as [|[k1 v1] b IH]; intros a Hnd; [exact Hnd|].
  cbn [foldl]. apply IH. now apply obj_set_NoDup.
Qed.

Lemma spread_get_notin (a b : Adapter.obj) (k : string) :
  ~ In k (List.map fst b) -> Adapter.obj_get k (Adapter.spread a b) = Adapter.obj_get k a.
Proof.
  unfold Adapter.spread. revert a. induction b as [|[k1 v1] b IH]; intros a Hnot; [reflexivity|].
  cbn [foldl]. rewrite IH by (intros Hin; apply Hnot; now right).
  apply obj_get_set_ne. intros ->. apply Hnot. now left.
Qed.

(** In [{...a, ...b}] a property of [b] wins. *)
Lemma spread_get_in (a b : Adapter.obj) (k : string) :
  List.NoDup (List.map fst b) -> In k (List.map fst b) ->
  Adapter.obj_get k (Adapter.spread a b) = Adapter.obj_get k b.
Proof.
  unfold Adapter.spread. revert a. induction b as [|[k1 v1] b IH]; intros a Hnd Hin; [destruct Hin|].
  inversion Hnd as [|? ? Hnotin Hnd']; subst. cbn [foldl].
  destruct (String.eqb k1 k) eqn:Hk.
  - apply String.eqb_eq in Hk. subst k1.
    fold (Adapter.spread (Adapter.obj_set k v1 a) b).
    rewrite spread_get_notin by exact Hnotin. rewrite obj_get_set_eq.
    unfold Adapter.obj_get. cbn. now rewrite String.eqb_refl.
  - destruct Hin as [Heq|Hin]; [cbn in Heq; subst; now rewrite String.eqb_refl in Hk|].
    rewrite IH by assumption. unfold Adapter.obj_get. cbn. now rewrite Hk.
Qed.

(** What [JSON.stringify] keeps of an object with distinct keys is what
    the object holds. *)
Lemma stringified_field (o : Adapter.obj) (k : string) :
  List.NoDup (List.map fst o) ->
  Js.opt_prop (Some (Adapter.stringified o)) k = Adapter.obj_get k o.
Proof.
  unfold Adapter.stringified. cbn [Js.opt_prop].
  induction o as [|[k1 v1] o IH]; intros Hnd; [reflexivity|].
  inversion Hnd as [|? ? Hnotin Hnd']; subst.
  specialize (IH Hnd').
  assert (Hhead : Adapter.obj_get k ((k1, v1) :: o)
                  = if String.eqb k1 k then v1 else Adapter.obj_get k o).
  { unfold Adapter.obj_get. cbn. now destruct (String.eqb k1 k). }
  rewrite Hhead. clear Hhead.
  destruct v1 as [v|]; cbn in IH |- *; rewrite IH.
  - destruct (String.eqb k1 k) eqn:Hk.
    + apply String.eqb_eq in Hk. subst k1. now rewrite obj_get_notin.
    + now destruct (Adapter.obj_get k o).
  - destruct (String.eqb k1 k) eqn:Hk; [|reflexivity].
    apply String.eqb_eq in Hk. subst k1. now apply obj_get_notin.
Qed.

Lemma NoDup_if_set (c : bool) (k : string) (v : jsval) (o : Adapter.obj) :
  List.NoDup (List.map fst o) ->
  List.NoDup (List.map fst (if c then Adapter.obj_set k v o else o)).
Proof. intros Hnd. destruct c; [now apply obj_set_NoDup | exact Hnd]. Qed.

Lemma buildApiParams_NoDup (streaming : bool) (parameters : json) (adapter : string) :
  List.NoDup (List.map fst (Adapter.buildApiParams streaming parameters adapter)).
Proof.
  unfold Adapter.buildApiParams. cbv zeta.
  match goal with |- context [Adapter.obj_set "stop" _ ?p] => set (p6 := p) end.
  assert (H6 : List.NoDup (List.map fst p6)).
  { subst p6. do 4 apply NoDup_if_set.
    match goal with |- List.NoDup (List.map fst (if ?c then _ else _)) => destruct c end.
    - destruct (String.eqb adapter "gemini"); apply obj_set_NoDup; apply NoDup_if_set;
        destruct streaming; cbn; repeat constructor; intros [].
    - apply NoDup_if_set. destruct streaming; cbn; repeat constructor; intros []. }
  clearbody p6.
  destruct (Js.opt_prop _ "value") as [[| | | |[|x xs]|]|]; try exact H6.
  destruct (Js.truthy _); [|exact H6].
  destruct (negb streaming && String.eqb adapter "anthropic"); now apply obj_set_NoDup.
Qed.

Ltac split_if :=
  match goal with
  | |- In _ (List.map fst (if ?c then _ else _)) -> _ => destruct c eqn:Hc
  end.

(** Where each key of the projected parameters comes from. *)
Lemma buildApiParams_keys (streaming : bool) (parameters : json) (a : string) :
  forall key,
     In key (List.map fst (Adapter.buildApiParams streaming parameters a)) ->
     (key = "stream" /\ streaming = true) \/
     (key = "temperature" /\ enabled_in parameters "temperature" = true) \/
     (key = "max_output_tokens" /\ enabled_in parameters "max_tokens" = true /\
      String.eqb a "gemini" = true) \/
     (key = "max_tokens" /\ enabled_in parameters "max_tokens" = true) \/
     (key = "top_p" /\ enabled_in parameters "top_p" = true) \/
     (key = "top_k" /\ enabled_in parameters "top_k" = true /\
      existsb (String.eqb a) ["anthropic"; "gemini"]%string = true) \/
     (key = "frequency_penalty" /\ enabled_in parameters "frequency_penalty" = true /\
      existsb (String.eqb a) ["openai_compat"; "gemini"]%string = true) \/
     (key = "presence_penalty" /\ enabled_in parameters "presence_penalty" = true /\
      existsb (String.eqb a) ["openai_compat"; "gemini"]%string = true) \/
     ((key = "stop_sequences" \/ key = "stop") /\
      enabled_in parameters "stop_sequences" = true).
Proof.
  unfold Adapter.buildApiParams, enabled_in. cbv zeta.
  match goal with |- context [Adapter.obj_set "temperature" _ ?p] => set (p0 := p) end.
  match goal with |- context [Adapter.obj_set "max_tokens" _ ?p] => set (p1 := p) end.
  match goal with |- context [Adapter.obj_set "top_p" _ ?p] => set (p2 := p) end.
  match goal with |- context [Adapter.obj_set "top_k" _ ?p] => set (p3 := p) end.
  match goal with |- context [Adapter.obj_set "frequency_penalty" _ ?p] => set (p4 := p) end.
  match goal with |- context [Adapter.obj_set "presence_penalty" _ ?p] => set (p5 := p) end.
  match goal with |- context [Adapter.obj_set "stop" _ ?p] => set (p6 := p) end.
  assert (H0 : forall key, In key (List.map fst p0) -> key = "stream" /\ streaming = true).
  { intros key Hin. subst p0. destruct streaming; cbn in Hin; [|destruct Hin].
    destruct Hin as [<-|[]]. now split. }
  assert (H1 : forall key, In key (List.map fst p1) -> In key (List.map fst p0) \/
            key = "temperature" /\ Js.truthy (Js.opt_prop (Js.opt_prop (Some parameters) "temperature") "enabled") = true).
  { intros key. subst p1. split_if; intros Hin; [|now left].
    apply obj_set_keys in Hin as [->|Hin]; [right; now split | now left]. }
  assert (H2 : forall key, In key (List.map fst p2) -> In key (List.map fst p1) \/
            (key = "max_output_tokens" /\ String.eqb a "gemini" = true \/ key = "max_tokens") /\
            Js.truthy (Js.opt_prop (Js.opt_prop (Some parameters) "max_tokens") "enabled") = true).
  { intros key. subst p2. split_if; [|intros Hin; now left].
    destruct (String.eqb a "gemini"); intros Hin;
      apply obj_set_keys in Hin as [->|Hin]; (now left) || (right; split; auto). }
  assert (H3 : forall key, In key (List.map fst p3) -> In key (List.map fst p2) \/
            key = "top_p" /\ Js.truthy (Js.opt_prop (Js.opt_prop (Some parameters) "top_p") "enabled") = true).
  { intros key. subst p3. split_if; intros Hin; [|now left].
    apply andb_true_iff in Hc as [Hen _].
    apply obj_set_keys in Hin as [->|Hin]; [right; now split | now left]. }
  assert (H4 : forall key, In key (List.map fst p4) -> In key (List.map fst p3) \/
            key = "top_k" /\ Js.truthy (Js.opt_prop (Js.opt_prop (Some parameters) "top_k") "enabled") = true /\
            existsb (String.eqb a) ["anthropic"; "gemini"]%string = true).
  { intros key. subst p4. split_if; intros Hin; [|now left].
    apply andb_true_iff in Hc as [Hen Hone].
    apply obj_set_keys in Hin as [->|Hin]; [right; now repeat split | now left]. }
  assert (H5 : forall key, In key (List.map fst p5) -> In key (List.map fst p4) \/
            key = "frequency_penalty" /\ Js.truthy (Js.opt_prop (Js.opt_prop (Some parameters) "frequency_penalty") "enabled") = true /\
            existsb (String.eqb a) ["openai_compat"; "gemini"]%string = true).
  { intros key. subst p5. split_if; intros Hin; [|now left].
    apply andb_true_iff in Hc as [Hen Hone].
    apply obj_set_keys in Hin as [->|Hin]; [right; now repeat split | now left]. }
  assert (H6 : forall key, In key (List.map fst p6) -> In key (List.map fst p5) \/
            key = "presence_penalty" /\ Js.truthy (Js.opt_prop (Js.opt_prop (Some parameters) "presence_penalty") "enabled") = true /\
            existsb (String.eqb a) ["openai_compat"; "gemini"]%string = true).
  { intros key. subst p6. split_if; intros Hin; [|now left].
    apply andb_true_iff in Hc as [Hen Hone].
    apply obj_set_keys in Hin as [->|Hin]; [right; now repeat split | now left]. }
  assert (Hlast : forall key,
            In key (List.map fst
              (match Js.opt_prop (Js.opt_prop (Some parameters) "stop_sequences") "value" with
               | Some (JArr (x :: xs)) =>
                   if Js.truthy (Js.opt_prop (Js.opt_prop (Some parameters) "stop_sequences")
                                   "enabled")
                   then if negb streaming && String.eqb a "anthropic"
                        then Adapter.obj_set "stop_sequences" (Some (JArr (x :: xs))) p6
                        else Adapter.obj_set "stop" (Some (JArr (x :: xs))) p6
                   else p6
               | _ => p6
               end)) ->
            In key (List.map fst p6) \/
            (key = "stop_sequences" \/ key = "stop") /\ Js.truthy (Js.opt_prop (Js.opt_prop (Some parameters) "stop_sequences") "enabled") = true).
  { intros key.
    destruct (Js.opt_prop (Js.opt_prop (Some parameters) "stop_sequences") "value")
      as [[| | | |[|x xs]|]|]; try (intros Hin; now left).
    split_if; [|intros Hin; now left].
    destruct (negb streaming && String.eqb a "anthropic"); intros Hin;
      apply obj_set_keys in Hin as [->|Hin]; (now left) || (right; split; auto). }
  clearbody p0 p1 p2 p3 p4 p5 p6.
  intros key Hin.
  apply Hlast in Hin as [Hin|Hin]; [|tauto].
  apply H6 in Hin as [Hin|Hin]; [|tauto].
  apply H5 in Hin as [Hin|Hin]; [|tauto].
  apply H4 in Hin as [Hin|Hin]; [|tauto].
  apply H3 in Hin as [Hin|Hin]; [|tauto].
  apply H2 in Hin as [Hin|Hin]; [|tauto].
  apply H1 in Hin as [Hin|Hin]; [|tauto].
  apply H0 in Hin. tauto.
Qed.

(** X6.  [buildApiParams] sends only what is switched on.  Every request
    parameter it produces, apart from the [stream] flag of the streaming
    variant, belongs to a setting whose [enabled] is truthy; and whatever
    is enabled, an OpenAI-compatible request never gets [top_k], an
    Anthropic request never gets the two penalties, and only a Gemini
    request names the token limit [max_output_tokens]. *)
Theorem buildApiParams_only_enabled (streaming : bool) (parameters : json) (adapter : string) :
  Forall (fun key => (key = "stream" /\ streaming = true) \/
                     enabled_in parameters (setting_of_key key) = true)
         (List.map fst (Adapter.buildApiParams streaming parameters adapter)) /\
  ~ In "top_k" (List.map fst (Adapter.buildApiParams streaming parameters "openai_compat")) /\
  ~ In "frequency_penalty" (List.map fst (Adapter.buildApiParams streaming parameters "anthropic")) /\
  ~ In "presence_penalty" (List.map fst (Adapter.buildApiParams streaming parameters "anthropic")) /\
  (In "max_output_tokens" (List.map fst (Adapter.buildApiParams streaming parameters adapter)) ->
   adapter = "gemini").
Proof.
  pose proof (fun a key => buildApiParams_keys streaming parameters a key) as Hkeys.
  split; [|split; [|split; [|split]]].
  - apply List.Forall_forall. intros key Hin.
    destruct (Hkeys adapter key Hin)
      as [H|[[-> H]|[[-> [H _]]|[[-> H]|[[-> H]|[[-> [H _]]|[[-> [H _]]|[[-> [H _]]|[[-> | ->] H]]]]]]]]];
      (left; exact H) || (right; exact H).
  - intros Hin.
    destruct (Hkeys _ _ Hin)
      as [[H _]|[[H _]|[[H _]|[[H _]|[[H _]|[[_ [_ H]]|[[H _]|[[H _]|[[H | H] _]]]]]]]]];
      discriminate.
  - intros Hin.
    destruct (Hkeys _ _ Hin)
      as [[H _]|[[H _]|[[H _]|[[H _]|[[H _]|[[H _]|[[_ [_ H]]|[[H _]|[[H | H] _]]]]]]]]];
      discriminate.
  - intros Hin.
    destruct (Hkeys _ _ Hin)
      as [[H _]|[[H _]|[[H _]|[[H _]|[[H _]|[[H _]|[[H _]|[[_ [_ H]]|[[H | H] _]]]]]]]]];
      discriminate.
  - intros Hin.
    destruct (Hkeys _ _ Hin)
      as [[H _]|[[H _]|[[_ [_ H]]|[[H _]|[[H _]|[[H _]|[[H _]|[[H _]|[[H | H] _]]]]]]]]];
      try discriminate.
    now apply String.eqb_eq.
Qed.

Lemma sent_by_retried (req r : Http.Request)
    (attempt : nat -> list (Adapter.moment * json) * outcome string) :
  In r (Adapter.sent (Adapter.retried req attempt)) -> r = req.
Proof.
  unfold Adapter.retried. cbn [Adapter.sent]. intros Hin.
  exact (repeat_spec _ _ _ Hin).
Qed.

(** X7.  A request [callModel] sends to an Anthropic provider (adapter
    [anthropic] or [claude]) always carries a truthy [max_tokens]: the
    model's own limit when that setting is enabled with a truthy value,
    and 1024 when the setting is not enabled. *)
Theorem anthropic_request_has_max_tokens
    (db : Db) (net : Http.Net) (sched : Http.schedule)
    (providerId modelId : string) (messages : list ChatMessage) (provider : Provider.t) :
  Sql.get (Sql.provider_by_id providerId) (providers db) = Some provider ->
  In (Adapter.norm (Provider.adapter provider)) ["anthropic"; "claude"]%string ->
  forall req,
    In req (Adapter.sent (Adapter.callModel db net sched providerId modelId messages)) ->
    Js.truthy (body_param req "max_tokens") = true /\
    (forall parameters,
       Adapter.parameters_of db net providerId modelId = Returned parameters ->
       enabled_in parameters "max_tokens" = false ->
       body_param req "max_tokens" = Some (JNum 1024 0)).
Proof.
  intros Hget Halias req. unfold Adapter.callModel. rewrite Hget.
  destruct (Adapter.parameters_of db net providerId modelId) as [parameters|err];
    [|intros []].
  assert (Hbranch :
    existsb (String.eqb (Adapter.norm (Provider.adapter provider)))
      ["openai"; "openaicompatible"; "openai_compat"; "openaicompat"; "oai"; "compatible"]%string
    = false /\
    existsb (String.eqb (Adapter.norm (Provider.adapter provider)))
      ["anthropic"; "claude"]%string = true).
  { destruct Halias as [H|[H|[]]]; rewrite <- H; split; reflexivity. }
  destruct Hbranch as [Hnot Hyes]. cbv zeta. rewrite Hnot, Hyes.
  intros Hin. apply sent_by_retried in Hin. subst req.
  unfold body_param, Adapter.post. cbn [Http.body].
  set (apiParams0 := Adapter.buildApiParams false parameters "anthropic").
  set (apiParams := if Js.truthy (Adapter.obj_get "max_tokens" apiParams0) then apiParams0
                    else Adapter.obj_set "max_tokens" (Some (JNum 1024 0)) apiParams0).
  assert (Hnd0 : List.NoDup (List.map fst apiParams0)) by apply buildApiParams_NoDup.
  assert (Hnd : List.NoDup (List.map fst apiParams)).
  { subst apiParams. destruct (Js.truthy _); [exact Hnd0 | now apply obj_set_NoDup]. }
  assert (Hin : In "max_tokens" (List.map fst apiParams)).
  { subst apiParams. destruct (Js.truthy _) eqn:Ht.
    - destruct (in_dec string_dec "max_tokens" (List.map fst apiParams0)) as [Hin|Hout];
        [exact Hin|].
      rewrite (obj_get_notin _ _ Hout) in Ht. discriminate.
    - apply obj_set_keys. now left. }
  rewrite stringified_field.
  2:{ apply spread_NoDup. cbn. repeat constructor; cbn; intuition discriminate. }
  rewrite spread_get_in by assumption.
  split.
  - subst apiParams. destruct (Js.truthy _) eqn:Ht; [exact Ht|].
    now rewrite obj_get_set_eq.
  - intros parameters' Hsame Hoff. injection Hsame as <-.
    assert (Hout : ~ In "max_tokens" (List.map fst apiParams0)).
    { intros Hkey.
      unfold enabled_in in Hoff.
      destruct (buildApiParams_keys _ _ _ _ Hkey)
        as [[H _]|[[H _]|[[H _]|[[_ H]|[[H _]|[[H _]|[[H _]|[[H _]|[[H | H] _]]]]]]]]];
        try discriminate.
      unfold enabled_in in H. congruence. }
    subst apiParams. rewrite (obj_get_notin _ _ Hout). cbn [Js.truthy].
    now rewrite obj_get_set_eq.
Qed.

(** [anthropic_request_has_max_tokens] for the sample provider [prov-1],
    whose adapter is spelled [claude] and whose model has no settings. *)
Lemma anthropic_request_has_max_tokens_witness :
  let c := Adapter.callModel Sample.db Servers.anthropic never_aborted "prov-1" "vendor-a" hello in
  length (Adapter.sent c) = 1%nat /\
  Forall (fun req =>
            Js.truthy (body_param req "max_tokens") = true /\
            (forall parameters,
               Adapter.parameters_of Sample.db Servers.anthropic "prov-1" "vendor-a"
               = Returned parameters ->
               enabled_in parameters "max_tokens" = false ->
               body_param req "max_tokens" = Some (JNum 1024 0)))
         (Adapter.sent c).
Proof.
  split; [vm_compute; reflexivity|].
  apply List.Forall_forall. intros req Hin.
  apply (anthropic_request_has_max_tokens Sample.db Servers.anthropic never_aborted
           "prov-1" "vendor-a" hello Sample.provider1).
  - reflexivity.
  - right. left. reflexivity.
  - exact Hin.
Defined.

Lemma unsupported_branches (a : string) :
  ~ In a supported_adapters ->
  existsb (String.eqb a)
    ["openai"; "openaicompatible"; "openai_compat"; "openaicompat"; "oai"; "compatible"]%string
  = false /\
  existsb (String.eqb a) ["anthropic"; "claude"]%string = false /\
  existsb (String.eqb a) ["google"; "gemini"; "googlegenai"; "googleai"]%string = false /\
  existsb (String.eqb a) ["openaicompat"; "openai_compat"; "openai"]%string = false /\
  String.eqb a "anthropic" = false.
Proof.
  intros Hnot.
  assert (Hno : forall s, In s supported_adapters -> String.eqb a s = false).
  { intros s Hin. apply String.eqb_neq. intros ->. contradiction. }
  cbn [existsb].
  repeat rewrite Hno by (unfold supported_adapters; cbn; tauto).
  repeat split; reflexivity.
Qed.

(** X8.  A call for a provider that does not exist, or whose adapter
    string is none of the twelve the server knows after normalization,
    fails without sending a request, sleeping or producing a token, in the
    plain and in the streaming call alike; the failure names the missing
    provider or the adapter as it is stored (unless the model's settings
    could not be read first). *)
Theorem unsupported_adapter_sends_nothing
    (db : Db) (net : Http.Net) (sched : Http.schedule)
    (providerId modelId : string) (messages : list ChatMessage) :
  (forall provider,
     Sql.get (Sql.provider_by_id providerId) (providers db) = Some provider ->
     ~ In (Adapter.norm (Provider.adapter provider)) supported_adapters) ->
  forall c,
    c = Adapter.callModel db net sched providerId modelId messages \/
    c = Adapter.callModelWithStreaming db net sched providerId modelId messages ->
    Adapter.sent c = [] /\ Adapter.slept c = [] /\ Adapter.tokens c = [] /\
    (exists err, Adapter.returned c = Thrown err) /\
    (Sql.get (Sql.provider_by_id providerId) (providers db) = None ->
     Adapter.returned c = Thrown {| message := "Provider not found" |}) /\
    (forall provider parameters,
       Sql.get (Sql.provider_by_id providerId) (providers db) = Some provider ->
       Adapter.parameters_of db net providerId modelId = Returned parameters ->
       Adapter.returned c
       = Thrown {| message := "Unsupported adapter: " +:+ Provider.adapter provider |}).
Proof.
  intros Hunknown.
  assert (Hplain : forall c, c = Adapter.callModel db net sched providerId modelId messages ->
    Adapter.sent c = [] /\ Adapter.slept c = [] /\ Adapter.tokens c = [] /\
    (exists err, Adapter.returned c = Thrown err) /\
    (Sql.get (Sql.provider_by_id providerId) (providers db) = None ->
     Adapter.returned c = Thrown {| message := "Provider not found" |}) /\
    (forall provider parameters,
       Sql.get (Sql.provider_by_id providerId) (providers db) = Some provider ->
       Adapter.parameters_of db net providerId modelId = Returned parameters ->
       Adapter.returned c
       = Thrown {| message := "Unsupported adapter: " +:+ Provider.adapter provider |})).
  { intros c ->. unfold Adapter.callModel.
    destruct (Sql.get (Sql.provider_by_id providerId) (providers db)) as [provider|] eqn:Hget.
    - destruct (unsupported_branches _ (Hunknown provider eq_refl)) as (H1 & H2 & H3 & _).
      destruct (Adapter.parameters_of db net providerId modelId) as [parameters|err].
      + cbv zeta. rewrite H1, H2, H3. cbn.
        repeat split; eauto; intros; try discriminate; congruence.
      + cbn. repeat split; eauto; intros; discriminate.
    - cbn. repeat split; eauto; intros; discriminate. }
  intros c [Hc|Hc]; [now apply Hplain|].
  subst c. unfold Adapter.callModelWithStreaming.
  specialize (Hplain _ eq_refl).
  destruct (Sql.get (Sql.provider_by_id providerId) (providers db)) as [provider|] eqn:Hget.
  - destruct (unsupported_branches _ (Hunknown provider eq_refl)) as (_ & _ & _ & H4 & H5).
    destruct (Adapter.parameters_of db net providerId modelId) as [parameters|err] eqn:Hpar.
    + cbv zeta. rewrite H4, H5.
      destruct Hplain as (Hs & Hz & Ht & [err Herr] & Hnone & Hsome).
      rewrite Herr. repeat split; eauto.
    + cbn. repeat split; eauto; intros; discriminate.
  - cbn. repeat split; eauto; intros; discriminate.
Qed.

(** [unsupported_adapter_sends_nothing] for the sample provider with its
    adapter stored as [mistral]. *)
Lemma unsupported_adapter_sends_nothing_witness :
  let c := Adapter.callModelWithStreaming (store_with_adapter "mistral") Servers.anthropic
             never_aborted "prov-1" "vendor-a" hello in
  Adapter.sent c = [] /\ Adapter.slept c = [] /\ Adapter.tokens c = [] /\
  (exists err, Adapter.returned c = Thrown err) /\
  (Sql.get (Sql.provider_by_id "prov-1") (providers (store_with_adapter "mistral")) = None ->
   Adapter.returned c = Thrown {| message := "Provider not found" |}) /\
  (forall provider parameters,
     Sql.get (Sql.provider_by_id "prov-1") (providers (store_with_adapter "mistral"))
     = Some provider ->
     Adapter.parameters_of (store_with_adapter "mistral") Servers.anthropic "prov-1" "vendor-a"
     = Returned parameters ->
     Adapter.returned c
     = Thrown {| message := "Unsupported adapter: " +:+ Provider.adapter provider |}).
Proof.
  apply (unsupported_adapter_sends_nothing (store_with_adapter "mistral") Servers.anthropic
           never_aborted "prov-1" "vendor-a" hello).
  - intros provider Hget. injection Hget as <-. vm_compute. intuition discriminate.
  - right. reflexivity.
Defined.

(** * Streamed answers *)

Local Open Scope list_scope.

Lemma append_empty_r (s : string) : s +:+ EmptyString = s.
Proof.
  induction s as [|c s IH]; [reflexivity|].
  change (String c (s +:+ EmptyString) = String c s). now rewrite IH.
Qed.

Lemma text_of_app (a b : list (Adapter.moment * json)) :
  text_of (a ++ b) = text_of a +:+ text_of b.
Proof.
  induction a as [|x a IH]; [reflexivity|].
  cbn [text_of foldr app]. fold (text_of (a ++ b)). fold (text_of a).
  now rewrite IH, append_assoc.
Qed.

(** ** What the line loop adds *)

Lemma process_lines_adds (done_marks : list string) (delta : json -> jsval)
    (here : Adapter.moment) (lines : list string) :
  forall accumulated emitted,
  exists new,
    snd (Adapter.process_lines done_marks delta here lines accumulated emitted) = emitted ++ new /\
    snd (fst (Adapter.process_lines done_marks delta here lines accumulated emitted))
    = accumulated +:+ text_of new /\
    Forall (fun t => fst t = here) new.
Proof.
  induction lines as [|rawLine rest IH]; intros accumulated emitted.
  - exists []. cbn. now rewrite app_nil_r, append_empty_r.
  - cbn [Adapter.process_lines].
    destruct (String.eqb _ EmptyString || JsString.startsWith _ ":"); [apply IH|].
    destruct (negb _); [apply IH|].
    destruct (existsb _ done_marks).
    { exists []. cbn. now rewrite app_nil_r, append_empty_r. }
    destruct (Json.parse _) as [obj|]; [|apply IH].
    destruct (delta obj) as [piece|]; [|apply IH].
    destruct (IH (accumulated +:+ Js.to_string piece) (emitted ++ [(here, piece)]))
      as (new & Hem & Hacc & Hall).
    exists ((here, piece) :: new). rewrite Hem, Hacc. split; [|split].
    + now rewrite <- app_assoc.
    + cbn [text_of foldr snd]. fold (text_of new). now rewrite append_assoc.
    + now constructor.
Qed.

Lemma read_loop_adds (sched : Http.schedule) (req : Http.Request) (done_marks : list string)
    (delta : json -> jsval) (k : nat) (coming : list string) (failure : option JsError) :
  forall step buf accumulated emitted,
  exists new,
    fst (Adapter.read_loop sched req done_marks delta k step coming failure buf accumulated emitted)
    = emitted ++ new /\
    Forall (fun t => of_attempt k t = true /\ forall j, j <> k -> of_attempt j t = false) new /\
    (forall text,
       snd (Adapter.read_loop sched req done_marks delta k step coming failure buf accumulated
              emitted) = Returned text ->
       text = accumulated +:+ text_of new).
Proof.
  induction coming as [|value coming IH]; intros step buf accumulated emitted.
  - exists []. cbn [Adapter.read_loop].
    destruct (Http.interrupted sched req k step); [|destruct failure]; cbn;
      rewrite app_nil_r; repeat split; try constructor; try discriminate.
    intros text H. injection H as <-. now rewrite append_empty_r.
  - cbn [Adapter.read_loop].
    destruct (Http.interrupted sched req k step).
    { exists []. cbn. rewrite app_nil_r. repeat split; try constructor; discriminate. }
    destruct (process_lines_adds done_marks delta (Adapter.InStream k step)
                (removelast (JsString.split_lines (buf +:+ value))) accumulated emitted)
      as (new1 & Hem1 & Hacc1 & Hall1).
    destruct (Adapter.process_lines _ _ _ _ _ _) as [[done accumulated'] emitted'].
    cbn [fst snd] in Hem1, Hacc1. subst accumulated' emitted'.
    assert (Hall1' : Forall (fun t => of_attempt k t = true /\
                                      forall j, j <> k -> of_attempt j t = false) new1).
    { eapply List.Forall_impl; [|exact Hall1]. intros [m v] Hm. cbn in Hm. subst m.
      unfold of_attempt. cbn. split; [apply Nat.eqb_refl|].
      intros j Hj. apply Nat.eqb_neq. congruence. }
    destruct done.
    + exists new1. cbn. repeat split; [exact Hall1'|]. intros text H. now injection H as <-.
    + destruct (IH (S step) (List.last (JsString.split_lines (buf +:+ value)) EmptyString)
                  (accumulated +:+ text_of new1) (emitted ++ new1)) as (new2 & Hem2 & Hall2 & Hret2).
      exists (new1 ++ new2). rewrite Hem2. split; [now rewrite <- app_assoc|]. split.
      * apply Forall_app. now split.
      * intros text H. rewrite (Hret2 text H), text_of_app. apply append_assoc.
Qed.

Lemma stream_attempt_adds (net : Http.Net) (sched : Http.schedule) (req : Http.Request)
    (label : string) (done_marks : list string) (delta : json -> jsval) (k : nat) :
  Forall (fun t => of_attempt k t = true /\ forall j, j <> k -> of_attempt j t = false)
         (fst (Adapter.stream_attempt net sched req label done_marks delta k)) /\
  (forall text,
     snd (Adapter.stream_attempt net sched req label done_marks delta k) = Returned text ->
     text = text_of (fst (Adapter.stream_attempt net sched req label done_marks delta k))).
Proof.
  unfold Adapter.stream_attempt.
  destruct (Http.fetch net sched k req) as [res|err]; [|cbn; split; [constructor|discriminate]].
  destruct (if Http.ok res then Http.body_of res else None) as [b|];
    [|cbn; split; [constructor|discriminate]].
  destruct (read_loop_adds sched req done_marks delta k (Http.chunks b) (Http.failure b)
              1 EmptyString EmptyString []) as (new & Hem & Hall & Hret).
  rewrite Hem. cbn [app]. split; [exact Hall|]. intros text H. now apply Hret.
Qed.

(** Of the deltas of all attempts, those of attempt [j]. *)
Lemma filter_attempts (f : nat -> list (Adapter.moment * json)) (j : nat) :
  (forall k, Forall (fun t => of_attempt k t = true /\ forall i, i <> k -> of_attempt i t = false)
                    (f k)) ->
  forall a n, (a <= j < a + n)%nat ->
  List.filter (of_attempt j) (flat_map f (seq a n)) = f j.
Proof.
  intros Hf.
  assert (Hkeep : List.filter (of_attempt j) (f j) = f j).
  { specialize (Hf j). induction (f j) as [|t l IH]; [reflexivity|].
    inversion Hf as [|? ? [Hyes _] Hrest]; subst. cbn. rewrite Hyes. f_equal. now apply IH. }
  assert (Hdrop : forall k, k <> j -> List.filter (of_attempt j) (f k) = []).
  { intros k Hk. specialize (Hf k). induction (f k) as [|t l IH]; [reflexivity|].
    inversion Hf as [|? ? [_ Hno] Hrest]; subst. cbn.
    rewrite (Hno j) by congruence. now apply IH. }
  assert (Hnone : forall a n, (j < a)%nat ->
            List.filter (of_attempt j) (flat_map f (seq a n)) = []).
  { intros a n. revert a. induction n as [|n IH]; intros a Hlt; [reflexivity|].
    cbn [seq flat_map]. rewrite List.filter_app, Hdrop by lia. now rewrite IH by lia. }
  intros a n. revert a. induction n as [|n IH]; intros a Hj; [lia|].
  cbn [seq flat_map]. rewrite List.filter_app.
  destruct (decide (a = j)) as [->|Hne].
  - rewrite Hkeep, Hnone by lia. apply app_nil_r.
  - rewrite Hdrop by exact Hne. cbn [app]. apply IH. lia.
Qed.

Lemma retried_text (req : Http.Request)
    (attempt : nat -> list (Adapter.moment * json) * outcome string) (text : string) :
  (forall k,
     Forall (fun t => of_attempt k t = true /\ forall i, i <> k -> of_attempt i t = false)
            (fst (attempt k)) /\
     (forall text, snd (attempt k) = Returned text -> text = text_of (fst (attempt k)))) ->
  Adapter.returned (Adapter.retried req attempt) = Returned text ->
  text = text_of (List.filter (of_attempt (length (Adapter.sent (Adapter.retried req attempt)) - 1))
                              (Adapter.tokens (Adapter.retried req attempt))).
Proof.
  intros Hattempt. unfold Adapter.retried, Retry.adapter_retry, Retry.withRetry.
  cbn [Adapter.returned Adapter.sent Adapter.tokens].
  destruct (loop_run (fun k => snd (attempt k)) 3 1000 4 0 {| message := EmptyString |})
    as (Hn & _ & Hr & _); [lia|lia|].
  rewrite repeat_length, Hr. cbn [Nat.add].
  set (n := Retry.attempts _) in *.
  rewrite (filter_attempts (fun k => fst (attempt k)) (n - 1)) by (try lia; apply Hattempt).
  apply Hattempt.
Qed.

(** X9.  What a streaming call returns is what it streamed: the returned
    text is the concatenation, in order, of the deltas handed to [onToken]
    during the attempt that succeeded (the last one), or the single token
    of the fallback call.  Deltas of earlier, failed attempts were handed
    over too, and are not part of the result. *)
Theorem streamed_text_is_its_deltas
    (db : Db) (net : Http.Net) (sched : Http.schedule)
    (providerId modelId : string) (messages : list ChatMessage) (text : string) :
  let c := Adapter.callModelWithStreaming db net sched providerId modelId messages in
  Adapter.returned c = Returned text ->
  text = text_of (List.filter (of_attempt (length (Adapter.sent c) - 1)) (Adapter.tokens c)).
Proof.
  cbv zeta. unfold Adapter.callModelWithStreaming.
  destruct (Sql.get _ (providers db)) as [provider|]; [|discriminate].
  destruct (Adapter.parameters_of db net providerId modelId) as [parameters|err]; [|discriminate].
  cbv zeta.
  destruct (existsb _ _).
  { apply retried_text. intros k. apply stream_attempt_adds. }
  destruct (String.eqb _ "anthropic").
  { apply retried_text. intros k. apply stream_attempt_adds. }
  destruct (Adapter.returned (Adapter.callModel db net sched providerId modelId messages))
    as [result|err] eqn:Hret.
  - cbn. intros H. injection H as <-. now rewrite append_empty_r.
  - rewrite Hret. discriminate.
Qed.

(** [streamed_text_is_its_deltas] for the OpenAI-style sample provider,
    which streams [Hello] and [ world]. *)
Lemma streamed_text_is_its_deltas_witness :
  let c := Adapter.callModelWithStreaming Sample.db Servers.openai never_aborted
             "prov-2" "vendor-b" hello in
  Adapter.returned c = Returned "Hello world" /\
  "Hello world"
  = text_of (List.filter (of_attempt (length (Adapter.sent c) - 1)) (Adapter.tokens c)).
Proof.
  split; [vm_compute; reflexivity|].
  apply (streamed_text_is_its_deltas Sample.db Servers.openai never_aborted
           "prov-2" "vendor-b" hello "Hello world").
  vm_compute. reflexivity.
Defined.

(** ** Lines across chunk boundaries *)

Lemma rev_app_append (s acc : string) : String.rev_app s acc = String.rev s +:+ acc.
Proof.
  revert acc. induction s as [|c s IH]; intros acc; [reflexivity|].
  unfold String.rev. cbn [String.rev_app]. rewrite (IH (String c acc)), (IH (String c EmptyString)).
  now rewrite append_assoc.
Qed.

Lemma rev_cons (c : ascii) (s : string) :
  String.rev (String c s) = String.rev s +:+ String c EmptyString.
Proof. unfold String.rev at 1. cbn [String.rev_app]. apply rev_app_append. Qed.

Lemma split_lines_acc_nonempty (cur s : string) : JsString.split_lines_acc cur s <> [].
Proof.
  revert cur. induction s as [|c s IH]; intros cur; cbn [JsString.split_lines_acc]; [discriminate|].
  destruct (Ascii.eqb c "010"); [discriminate|].
  destruct (Ascii.eqb c "013"); [|apply IH].
  destruct s as [|c' s']; [apply IH|].
  destruct (Ascii.eqb c' "010"); [discriminate | apply IH].
Qed.

Lemma split_lines_nonempty (s : string) : JsString.split_lines s <> [].
Proof. apply split_lines_acc_nonempty. Qed.

(** The text gathered so far goes in front of the first line. *)
Lemma split_lines_acc_prefix (cur s : string) :
  JsString.split_lines_acc cur s
  = match JsString.split_lines s with
    | l :: ls => (String.rev cur +:+ l) :: ls
    | [] => []
    end.
Proof.
  unfold JsString.split_lines. revert cur.
  induction s as [|c s IH]; intros cur.
  - cbn. now rewrite append_empty_r.
  - cbn [JsString.split_lines_acc].
    assert (Hpush : JsString.split_lines_acc (String c cur) s
                    = match JsString.split_lines_acc (String c EmptyString) s with
                      | l :: ls => (String.rev cur +:+ l) :: ls
                      | [] => []
                      end).
    { rewrite (IH (String c cur)), (IH (String c EmptyString)).
      destruct (JsString.split_lines_acc EmptyString s) as [|l ls]; [reflexivity|].
      rewrite rev_cons. cbn. now rewrite append_assoc. }
    destruct (Ascii.eqb c "010"); [cbn; now rewrite append_empty_r|].
    destruct (Ascii.eqb c "013"); [|exact Hpush].
    destruct s as [|c' s']; [exact Hpush|].
    destruct (Ascii.eqb c' "010"); [cbn; now rewrite append_empty_r | exact Hpush].
Qed.

Lemma split_lines_inside (c : ascii) (r : string) :
  inside_line c r = true ->
  JsString.split_lines (String c r) = prepend c (JsString.split_lines r).
Proof.
  unfold inside_line. intros Hin. apply andb_true_iff in Hin as [Hlf Hcr].
  apply negb_true_iff in Hlf. apply negb_true_iff in Hcr.
  assert (Hpush : JsString.split_lines_acc (String c EmptyString) r
                  = prepend c (JsString.split_lines r)).
  { rewrite split_lines_acc_prefix. unfold prepend.
    destruct (JsString.split_lines r); reflexivity. }
  unfold JsString.split_lines at 1. cbn [JsString.split_lines_acc]. rewrite Hlf.
  destruct (Ascii.eqb c "013"); [|exact Hpush].
  destruct r as [|c' r']; [exact Hpush|].
  cbn in Hcr. rewrite Hcr. exact Hpush.
Qed.

Lemma split_lines_break (c : ascii) (r : string) :
  inside_line c r = false ->
  exists r', (String.length r' <= String.length r)%nat /\
             JsString.split_lines (String c r) = EmptyString :: JsString.split_lines r' /\
             (forall b, JsString.split_lines (String c (r +:+ b))
                        = EmptyString :: JsString.split_lines (r' +:+ b)).
Proof.
  unfold inside_line. intros Hout.
  unfold JsString.split_lines. cbn [JsString.split_lines_acc].
  destruct (Ascii.eqb c "010") eqn:Hlf.
  - exists r. split; [lia|]. split; [reflexivity|]. intros b. reflexivity.
  - cbn in Hout. destruct (Ascii.eqb c "013"); [|discriminate].
    destruct r as [|c' r']; [discriminate|].
    cbn in Hout. apply negb_false_iff in Hout.
    exists r'. split; [cbn; lia|].
    change (String c' r' +:+ ?b) with (String c' (r' +:+ b)).
    rewrite Hout. split; [reflexivity|]. intros b. cbn. now rewrite Hout.
Qed.

(** A text that splits into one line is that line. *)
Lemma split_lines_single (s l : string) : JsString.split_lines s = [l] -> l = s.
Proof.
  revert l. induction s as [|c s IH]; intros l Hone.
  - cbn in Hone. now injection Hone as <-.
  - destruct (inside_line c s) eqn:Hin.
    + rewrite (split_lines_inside _ _ Hin) in Hone.
      destruct (JsString.split_lines s) as [|l' [|l2 ls]] eqn:Hs; try discriminate.
      cbn in Hone. injection Hone as <-. f_equal. now apply IH.
    + destruct (split_lines_break _ _ Hin) as (r' & _ & Heq & _). rewrite Heq in Hone.
      injection Hone as _ Hrest. now destruct (split_lines_nonempty r').
Qed.

Lemma last_cons_nonempty {A} (x d : A) (l : list A) :
  l <> [] -> List.last (x :: l) d = List.last l d.
Proof. destruct l; [congruence | reflexivity]. Qed.

Lemma removelast_cons_nonempty {A} (x : A) (l : list A) :
  l <> [] -> removelast (x :: l) = x :: removelast l.
Proof. destruct l; [congruence | reflexivity]. Qed.

Lemma last_app_nonempty {A} (l l' : list A) (d : A) :
  l' <> [] -> List.last (l ++ l') d = List.last l' d.
Proof.
  intros Hne. induction l as [|x l IH]; [reflexivity|].
  cbn [app]. rewrite last_cons_nonempty; [exact IH|].
  destruct l; [exact Hne | discriminate].
Qed.

(** Splitting a text cut in two: the lines completed in the first piece,
    then the lines of its unfinished last line followed by the second
    piece. *)
Lemma split_lines_app (a b : string) :
  JsString.split_lines (a +:+ b)
  = removelast (JsString.split_lines a)
    ++ JsString.split_lines (List.last (JsString.split_lines a) EmptyString +:+ b).
Proof.
  remember (String.length a) as n eqn:Hn.
  assert (Hle : (String.length a <= n)%nat) by lia. clear Hn.
  revert a Hle. induction n as [|n IH]; intros a Hle.
  { destruct a; [reflexivity | cbn in Hle; lia]. }
  destruct a as [|c a]; [reflexivity|].
  cbn in Hle.
  change (String c a +:+ b) with (String c (a +:+ b)).
  destruct (inside_line c a) eqn:Hin.
  - rewrite (split_lines_inside _ _ Hin).
    destruct (JsString.split_lines a) as [|l [|l2 ls]] eqn:Hs.
    + now destruct (split_lines_nonempty a).
    + apply split_lines_single in Hs. subst l. reflexivity.
    + assert (Hin' : inside_line c (a +:+ b) = true).
      { destruct a as [|c' a']; [discriminate Hs | exact Hin]. }
      rewrite (split_lines_inside _ _ Hin'), (IH a) by lia. rewrite Hs. reflexivity.
  - destruct (split_lines_break _ _ Hin) as (r' & Hlen & Heq & Happ).
    rewrite Happ, Heq.
    rewrite removelast_cons_nonempty, last_cons_nonempty by apply split_lines_nonempty.
    cbn [app]. f_equal. apply IH. lia.
Qed.

(** The unfinished last line holds no line break. *)
Lemma split_lines_last (s : string) :
  JsString.split_lines (List.last (JsString.split_lines s) EmptyString)
  = [List.last (JsString.split_lines s) EmptyString].
Proof.
  pose proof (split_lines_app s EmptyString) as Happ.
  rewrite !append_empty_r in Happ.
  rewrite (app_removelast_last EmptyString (split_lines_nonempty s)) in Happ at 1.
  now apply app_inv_head in Happ.
Qed.

(** ** The read loop on a body cut into chunks *)

Lemma process_lines_app (done_marks : list string) (delta : json -> jsval)
    (here : Adapter.moment) (l1 l2 : list string) :
  forall accumulated emitted,
  Adapter.process_lines done_marks delta here (l1 ++ l2) accumulated emitted
  = match Adapter.process_lines done_marks delta here l1 accumulated emitted with
    | (true, accumulated', emitted') => (true, accumulated', emitted')
    | (false, accumulated', emitted') =>
        Adapter.process_lines done_marks delta here l2 accumulated' emitted'
    end.
Proof.
  induction l1 as [|rawLine rest IH]; intros accumulated emitted; [reflexivity|].
  cbn [app Adapter.process_lines].
  repeat match goal with
         | |- context [if ?b then _ else _] => destruct b
         | |- context [match ?x with Some _ => _ | None => _ end] => destruct x
         end; try apply IH; reflexivity.
Qed.

(** The line loop, apart from the moments it stamps the deltas with. *)
Lemma process_lines_values (done_marks : list string) (delta : json -> jsval)
    (here here' : Adapter.moment) (lines : list string) :
  forall accumulated emitted emitted',
  List.map snd emitted = List.map snd emitted' ->
  fst (Adapter.process_lines done_marks delta here lines accumulated emitted)
  = fst (Adapter.process_lines done_marks delta here' lines accumulated emitted') /\
  List.map snd (snd (Adapter.process_lines done_marks delta here lines accumulated emitted))
  = List.map snd (snd (Adapter.process_lines done_marks delta here' lines accumulated emitted')).
Proof.
  induction lines as [|rawLine rest IH]; intros accumulated emitted emitted' Hsame;
    [now split|].
  cbn [Adapter.process_lines].
  repeat match goal with
         | |- context [if ?b then _ else _] => destruct b
         | |- context [match ?x with Some _ => _ | None => _ end] => destruct x
         end; try (now apply IH); try (now split).
  apply IH. rewrite !List.map_app. now rewrite Hsame.
Qed.

(** The outcome of reading a body, once all its lines are known. *)
Lemma read_loop_whole (sched : Http.schedule) (req : Http.Request) (done_marks : list string)
    (delta : json -> jsval) (k : nat) (coming : list string) (failure : option JsError) :
  unwired req ->
  forall step buf accumulated emitted emitted',
  JsString.split_lines buf = [buf] ->
  List.map snd emitted = List.map snd emitted' ->
  let r := Adapter.read_loop sched req done_marks delta k step coming failure buf accumulated
             emitted in
  let p := Adapter.process_lines done_marks delta Adapter.AfterFallback
             (removelast (JsString.split_lines
                (buf +:+ foldr String.append EmptyString coming)))
             accumulated emitted' in
  snd r = (if fst (fst p) then Returned (snd (fst p))
           else match failure with
                | Some e => Thrown e
                | None => Returned (snd (fst p))
                end) /\
  List.map snd (fst r) = List.map snd (snd p).
Proof.
  intros Hreq. induction coming as [|value coming IH];
    intros step buf accumulated emitted emitted' Hbuf Hsame; cbv zeta.
  - cbn [Adapter.read_loop foldr]. rewrite (interrupted_unwired req Hreq).
    rewrite append_empty_r, Hbuf. cbn. now destruct failure.
  - cbn [Adapter.read_loop foldr]. rewrite (interrupted_unwired req Hreq).
    rewrite <- (append_assoc buf value).
    rewrite (split_lines_app (buf +:+ value) (foldr String.append EmptyString coming)).
    rewrite removelast_app by apply split_lines_nonempty.
    rewrite process_lines_app.
    destruct (process_lines_values done_marks delta (Adapter.InStream k step)
                Adapter.AfterFallback (removelast (JsString.split_lines (buf +:+ value)))
                accumulated emitted emitted' Hsame) as [Hfst Hsnd].
    destruct (Adapter.process_lines done_marks delta (Adapter.InStream k step) _ _ _)
      as [[done accumulated1] emitted1].
    destruct (Adapter.process_lines done_marks delta Adapter.AfterFallback
                (removelast (JsString.split_lines (buf +:+ value))) _ _)
      as [[done' accumulated1'] emitted1'].
    cbn [fst snd] in Hfst, Hsnd. injection Hfst as <- <-.
    destruct done; [now split|].
    apply IH; [apply split_lines_last | exact Hsnd].
Qed.

Lemma stream_attempt_same_bytes (net net' : Http.Net) (sched : Http.schedule)
    (req : Http.Request) (label : string) (done_marks : list string) (delta : json -> jsval)
    (k : nat) :
  unwired req ->
  same_answer (Http.respond net req k) (Http.respond net' req k) ->
  snd (Adapter.stream_attempt net sched req label done_marks delta k)
  = snd (Adapter.stream_attempt net' sched req label done_marks delta k) /\
  List.map snd (fst (Adapter.stream_attempt net sched req label done_marks delta k))
  = List.map snd (fst (Adapter.stream_attempt net' sched req label done_marks delta k)).
Proof.
  intros Hreq Hsame. unfold Adapter.stream_attempt, Http.fetch, Http.text.
  rewrite !(interrupted_unwired req Hreq). unfold same_answer in Hsame.
  destruct (Http.respond net req k) as [r|e], (Http.respond net' req k) as [r'|e'];
    try contradiction; [|subst; now split].
  destruct Hsame as [Hstatus Hbody].
  assert (Hok : Http.ok r = Http.ok r') by (unfold Http.ok; now rewrite Hstatus).
  rewrite <- Hok, <- Hstatus.
  destruct (Http.body_of r) as [b|], (Http.body_of r') as [b'|]; try contradiction.
  - destruct Hbody as [Hwhole Hfail]. destruct (Http.ok r).
    + destruct (read_loop_whole sched req done_marks delta k (Http.chunks b) (Http.failure b)
                  Hreq 1%nat EmptyString EmptyString [] [] eq_refl eq_refl) as [H1 H2].
      destruct (read_loop_whole sched req done_marks delta k (Http.chunks b') (Http.failure b')
                  Hreq 1%nat EmptyString EmptyString [] [] eq_refl eq_refl) as [H1' H2'].
      cbv zeta in H1, H2, H1', H2'. unfold Http.whole in Hwhole.
      rewrite H1, H2, H1', H2', Hwhole, Hfail. now split.
    + now rewrite Hfail, Hwhole.
  - destruct (Http.ok r); now split.
Qed.

Lemma complete_attempt_same_bytes (net net' : Http.Net) (sched : Http.schedule)
    (req : Http.Request) (label first_prop : string) (extract : json -> option jsval) (k : nat) :
  unwired req ->
  same_answer (Http.respond net req k) (Http.respond net' req k) ->
  Http.syntax_error net = Http.syntax_error net' ->
  Adapter.complete_attempt net sched req label first_prop extract k
  = Adapter.complete_attempt net' sched req label first_prop extract k.
Proof.
  intros Hreq Hsame Hsyn.
  unfold Adapter.complete_attempt, Http.json_of, Http.fetch, Http.text.
  rewrite !(interrupted_unwired req Hreq). unfold same_answer in Hsame.
  destruct (Http.respond net req k) as [r|e], (Http.respond net' req k) as [r'|e'];
    try contradiction; [|now subst].
  destruct Hsame as [Hstatus Hbody].
  assert (Hok : Http.ok r = Http.ok r') by (unfold Http.ok; now rewrite Hstatus).
  rewrite <- Hok, <- Hstatus, <- Hsyn.
  destruct (Http.body_of r) as [b|], (Http.body_of r') as [b'|]; try contradiction;
    [|reflexivity].
  destruct Hbody as [Hwhole Hfail]. now rewrite Hwhole, Hfail.
Qed.

Lemma parameters_of_same (db : Db) (net net' : Http.Net) (providerId modelId : string) :
  Http.syntax_error net = Http.syntax_error net' ->
  Adapter.parameters_of db net providerId modelId
  = Adapter.parameters_of db net' providerId modelId.
Proof. intros Hsyn. unfold Adapter.parameters_of. now rewrite Hsyn. Qed.

Lemma retried_values (req : Http.Request)
    (f g : nat -> list (Adapter.moment * json) * outcome string) :
  (forall k, snd (f k) = snd (g k) /\ List.map snd (fst (f k)) = List.map snd (fst (g k))) ->
  Adapter.returned (Adapter.retried req f) = Adapter.returned (Adapter.retried req g) /\
  deltas (Adapter.retried req f) = deltas (Adapter.retried req g) /\
  Adapter.sent (Adapter.retried req f) = Adapter.sent (Adapter.retried req g) /\
  Adapter.slept (Adapter.retried req f) = Adapter.slept (Adapter.retried req g).
Proof.
  intros Hfg. unfold deltas, Adapter.retried, Retry.adapter_retry, Retry.withRetry.
  cbn [Adapter.returned Adapter.tokens Adapter.sent Adapter.slept].
  rewrite (loop_ext (fun k => snd (f k)) (fun k => snd (g k))) by (intros k; apply Hfg).
  repeat split.
  induction (seq 0 _) as [|k l IH]; [reflexivity|].
  cbn [flat_map]. rewrite !List.map_app, IH. f_equal. apply Hfg.
Qed.

Lemma post_unwired (url : string) (headers : list (string * string)) (body : json) :
  unwired (Adapter.post url headers body).
Proof. reflexivity. Qed.

Lemma callModel_same_bytes (db : Db) (net net' : Http.Net) (sched : Http.schedule)
    (providerId modelId : string) (messages : list ChatMessage) :
  (forall req k, same_answer (Http.respond net req k) (Http.respond net' req k)) ->
  Http.syntax_error net = Http.syntax_error net' ->
  Adapter.callModel db net sched providerId modelId messages
  = Adapter.callModel db net' sched providerId modelId messages.
Proof.
  intros Hsame Hsyn. unfold Adapter.callModel.
  rewrite (parameters_of_same db net net') by exact Hsyn.
  destruct (Sql.get _ (providers db)) as [provider|]; [|reflexivity].
  destruct (Adapter.parameters_of db net' providerId modelId) as [parameters|err];
    [|reflexivity].
  cbv zeta.
  repeat match goal with
         | |- (if ?b then _ else _) = (if ?b then _ else _) => destruct b
         end; try reflexivity;
    apply retried_ext; intros k; f_equal;
    apply complete_attempt_same_bytes; auto using post_unwired.
Qed.

(** X10.  How the provider's bytes are cut into chunks does not matter.
    Two providers whose answers carry the same status and the same bytes,
    whatever the chunk boundaries (also inside a line, or between the CR
    and the LF of a line end), make [callModelWithStreaming] return the
    same result, hand the same deltas to [onToken] in the same order, send
    the same requests and sleep the same delays. *)
Theorem chunking_does_not_matter
    (db : Db) (net net' : Http.Net) (sched : Http.schedule)
    (providerId modelId : string) (messages : list ChatMessage) :
  (forall req k, same_answer (Http.respond net req k) (Http.respond net' req k)) ->
  Http.syntax_error net = Http.syntax_error net' ->
  let c := Adapter.callModelWithStreaming db net sched providerId modelId messages in
  let c' := Adapter.callModelWithStreaming db net' sched providerId modelId messages in
  Adapter.returned c = Adapter.returned c' /\
  deltas c = deltas c' /\
  Adapter.sent c = Adapter.sent c' /\
  Adapter.slept c = Adapter.slept c'.
Proof.
  intros Hsame Hsyn. cbv zeta. unfold Adapter.callModelWithStreaming.
  rewrite (parameters_of_same db net net') by exact Hsyn.
  rewrite (callModel_same_bytes db net net') by assumption.
  destruct (Sql.get _ (providers db)) as [provider|]; [|now repeat split].
  destruct (Adapter.parameters_of db net' providerId modelId) as [parameters|err];
    [|now repeat split].
  cbv zeta.
  destruct (existsb _ _).
  { apply retried_values. intros k. apply stream_attempt_same_bytes; [reflexivity | apply Hsame]. }
  destruct (String.eqb _ "anthropic").
  { apply retried_values. intros k. apply stream_attempt_same_bytes; [reflexivity | apply Hsame]. }
  now repeat split.
Qed.

(** [chunking_does_not_matter] for the OpenAI-style sample provider, which
    answers in three chunks, and the same provider answering in one. *)
Lemma chunking_does_not_matter_witness :
  let c := Adapter.callModelWithStreaming Sample.db Servers.openai never_aborted
             "prov-2" "vendor-b" hello in
  let c' := Adapter.callModelWithStreaming Sample.db openai_unchunked never_aborted
              "prov-2" "vendor-b" hello in
  Adapter.returned c = Adapter.returned c' /\
  deltas c = deltas c' /\
  Adapter.sent c = Adapter.sent c' /\
  Adapter.slept c = Adapter.slept c'.
Proof.
  apply (chunking_does_not_matter Sample.db Servers.openai openai_unchunked never_aborted
           "prov-2" "vendor-b" hello).
  - intros req k. unfold openai_unchunked, Servers.openai. cbn [Http.respond].
    destruct (asks_to_stream req); cbn; repeat split; reflexivity.
  - reflexivity.
Defined.

Local Open Scope string_scope.

(** * One call of the worker, as a whole *)

Local Open Scope list_scope.

Lemma writes_of_app (a b : list effect) : writes_of (a ++ b) = writes_of a ++ writes_of b.
Proof. unfold writes_of. induction a as [|[w|ev d] a IH]; cbn; [reflexivity| |]; now rewrite ?IH. Qed.

Lemma exec_all_app (ws1 ws2 : list Sql.rr_write) (rows : list RunResult.t) :
  Sql.exec_all (ws1 ++ ws2) rows = Sql.exec_all ws2 (Sql.exec_all ws1 rows).
Proof. unfold Sql.exec_all. apply foldl_app. Qed.

(** An update by id on a table whose last row alone has that id. *)
Lemma update_last_row (rows : list RunResult.t) (row : RunResult.t) (id : string)
    (f : RunResult.t -> RunResult.t) :
  (forall r, In r rows -> RunResult.id r <> id) -> RunResult.id row = id ->
  Sql.update (Sql.result_by_id id) f (rows ++ [row]) = rows ++ [f row].
Proof.
  intros Hfresh Hid. unfold Sql.update. rewrite List.map_app. f_equal.
  - rewrite <- (List.map_id rows) at 2. apply List.map_ext_in. intros r Hin.
    unfold Sql.result_by_id. destruct (String.eqb (RunResult.id r) id) eqn:Heq; [|reflexivity].
    apply String.eqb_eq in Heq. now destruct (Hfresh r Hin).
  - cbn. unfold Sql.result_by_id. now rewrite Hid, String.eqb_refl.
Qed.

Section WorkerTrace.
Variable e : Worker.env.
Variable runId : string.
Variable problem : Problem.t.
Variables model judgeModel : ModelRef.
Variable run : Run.t.
Variable abortSignal : option nat.
Variable rows : list RunResult.t.
Hypothesis Hfresh : forall r, In r rows -> RunResult.id r <> Worker.rrId e.

Lemma tokens_labels (ts : list (Adapter.moment * json)) :
  writes_of (flat_map (Worker.onToken e runId problem model abortSignal) ts) = [] /\
  exists n, (n <= length ts)%nat /\
    List.map label_of (flat_map (Worker.onToken e runId problem model abortSignal) ts)
    = repeat "candidate_token"%string n.
Proof.
  induction ts as [|t ts [IHw (n & Hn & IH)]]; [split; [reflexivity | exists 0%nat; split; [lia|reflexivity]]|].
  cbn [flat_map]. rewrite writes_of_app, List.map_app, IHw, IH.
  unfold Worker.onToken. destruct (Worker.aborted e abortSignal _).
  - split; [reflexivity|]. exists n. split; [cbn; lia | reflexivity].
  - split; [reflexivity|]. exists (S n). split; [cbn; lia | reflexivity].
Qed.

Lemma on_error_trace (err : JsError) (row : RunResult.t) :
  RunResult.id row = Worker.rrId e ->
  In (List.map label_of (Worker.on_error e runId problem model run abortSignal err))
     failure_labels /\
  exists row',
    Sql.exec_all (writes_of (Worker.on_error e runId problem model run abortSignal err))
                 (rows ++ [row]) = rows ++ [row'] /\
    (row' = RunResult.set_cancelled (Worker.cancelled_time e) row \/
     row' = RunResult.set_error row).
Proof.
  intros Hid. unfold Worker.on_error. destruct (Worker.aborted e abortSignal Worker.InCatch).
  - split; [left; reflexivity|]. eexists. split; [|left; reflexivity].
    cbn. now apply update_last_row.
  - split; [right; left; reflexivity|]. eexists. split; [|right; reflexivity].
    cbn. now apply update_last_row.
Qed.

Lemma judge_trace (output : string) (row : RunResult.t) :
  RunResult.id row = Worker.rrId e ->
  In (List.map label_of (Worker.judge e runId problem model judgeModel run abortSignal output))
     judge_labels /\
  exists row',
    Sql.exec_all (writes_of (Worker.judge e runId problem model judgeModel run abortSignal output))
                 (rows ++ [row]) = rows ++ [row'] /\
    (row' = RunResult.set_cancelled (Worker.cancelled_time e) row \/
     row' = RunResult.set_error row \/
     exists score reasoning,
       score <> SqlNull /\
       row' = RunResult.set_judged output score (ref_id judgeModel) reasoning row).
Proof.
  intros Hid. unfold Worker.judge.
  assert (Herr : forall err,
    In (List.map label_of (Worker.on_error e runId problem model run abortSignal err))
       judge_labels /\
    exists row',
      Sql.exec_all (writes_of (Worker.on_error e runId problem model run abortSignal err))
                   (rows ++ [row]) = rows ++ [row'] /\
      (row' = RunResult.set_cancelled (Worker.cancelled_time e) row \/
       row' = RunResult.set_error row \/
       exists score reasoning,
         score <> SqlNull /\
         row' = RunResult.set_judged output score (ref_id judgeModel) reasoning row)).
  { intros err. destruct (on_error_trace err row Hid) as (Hl & row' & Hex & Hrow).
    split; [right; right; exact Hl|]. exists row'. split; [exact Hex | tauto]. }
  destruct (Worker.aborted e abortSignal Worker.BeforeJudge).
  { split; [left; reflexivity|]. eexists. split; [|left; reflexivity].
    cbn. now apply update_last_row. }
  destruct (Adapter.returned _) as [verdictText|err]; [|apply Herr].
  pose proof (parse_verdict_score_not_null verdictText) as Hscore.
  destruct (bind (Judge.score (Judge.parse_verdict verdictText))) as [score|] eqn:Hb;
    [|apply Herr].
  destruct (bind (Judge.reasoning (Judge.parse_verdict verdictText))) as [reasoning|];
    [|apply Herr].
  split; [right; left; reflexivity|]. eexists. split.
  - cbn. now apply update_last_row.
  - right. right. exists score, reasoning. split; [|reflexivity].
    intros ->. destruct (Judge.score (Judge.parse_verdict verdictText)); try discriminate.
    now apply Hscore.
Qed.

Lemma after_call_trace (output : string) (row : RunResult.t) :
  RunResult.id row = Worker.rrId e ->
  In (List.map label_of (Worker.after_call e runId problem model judgeModel run abortSignal output))
     (ending_labels (Problem.is_html problem)) /\
  exists row',
    Sql.exec_all (writes_of (Worker.after_call e runId problem model judgeModel run abortSignal
                               output))
                 (rows ++ [row]) = rows ++ [row'] /\
    (row' = RunResult.set_cancelled (Worker.cancelled_time e) row \/
     (Problem.is_html problem = true /\ row' = RunResult.set_output output row) \/
     (Problem.is_html problem = false /\
      (row' = RunResult.set_cancelled (Worker.cancelled_time e) (RunResult.set_output output row) \/
       row' = RunResult.set_error (RunResult.set_output output row) \/
       exists score reasoning,
         score <> SqlNull /\
         row' = RunResult.set_judged output score (ref_id judgeModel) reasoning
                  (RunResult.set_output output row)))).
Proof.
  intros Hid. unfold Worker.after_call.
  destruct (Worker.aborted e abortSignal Worker.AfterCall).
  { split; [left; reflexivity|]. eexists. split; [|left; reflexivity].
    cbn. now apply update_last_row. }
  destruct (Problem.is_html problem) eqn:Hhtml.
  - split; [cbn; tauto|]. eexists. split; [|right; left; split; reflexivity].
    cbn. now apply update_last_row.
  - destruct (judge_trace output (RunResult.set_output output row) Hid)
      as (Hl & row' & Hex & Hrow).
    split.
    + unfold ending_labels. right. apply in_or_app. right.
      cbn [List.map label_of]. apply (in_map (fun j => "SET output" :: "candidate_done" :: j)%string).
      exact Hl.
    + exists row'. split; [|right; right; split; [reflexivity | exact Hrow]].
      change (writes_of (Write (Sql.SetOutput (Worker.rrId e) output) ::
                Emit "candidate_done" (Worker.payload runId problem model
                                         [("text"%string, Some (JStr output))]) ::
                Worker.judge e runId problem model judgeModel run abortSignal output))
        with (Sql.SetOutput (Worker.rrId e) output ::
              writes_of (Worker.judge e runId problem model judgeModel run abortSignal output)).
      change (Sql.exec_all (?w :: ?ws) ?t) with (Sql.exec_all ws (Sql.exec w t)).
      cbn [Sql.exec]. rewrite update_last_row by assumption. exact Hex.
Qed.

Lemma attempt_problem_trace (provider : option Provider.t) (row : RunResult.t) :
  RunResult.id row = Worker.rrId e ->
  worker_trace (Problem.is_html problem) (Run.stream run)
    ("INSERT"%string ::
     List.map label_of (Worker.attempt_problem e runId problem model judgeModel run abortSignal
                          provider)) /\
  exists row',
    Sql.exec_all (writes_of (Worker.attempt_problem e runId problem model judgeModel run
                               abortSignal provider))
                 (rows ++ [row]) = rows ++ [row'] /\
    (row' = RunResult.set_cancelled (Worker.cancelled_time e) row \/
     row' = RunResult.set_error row \/
     exists output,
       (Problem.is_html problem = true /\ row' = RunResult.set_output output row) \/
       (Problem.is_html problem = false /\
        (row' = RunResult.set_cancelled (Worker.cancelled_time e)
                  (RunResult.set_output output row) \/
         row' = RunResult.set_error (RunResult.set_output output row) \/
         exists score reasoning,
           score <> SqlNull /\
           row' = RunResult.set_judged output score (ref_id judgeModel) reasoning
                    (RunResult.set_output output row)))).
Proof.
  intros Hid. unfold Worker.attempt_problem.
  destruct (Worker.aborted e abortSignal Worker.AtStart).
  { split; [left; reflexivity|]. eexists. split; [|left; reflexivity].
    cbn. now apply update_last_row. }
  assert (Hfail : forall err (n : nat),
    (Run.stream run = false -> n = 0%nat) ->
    worker_trace (Problem.is_html problem) (Run.stream run)
      ("INSERT"%string :: "model_started"%string ::
       (if Run.stream run then ["model_streaming_started"%string] else []) ++
       repeat "candidate_token"%string n ++
       List.map label_of (Worker.on_error e runId problem model run abortSignal err)) /\
    exists row',
      Sql.exec_all (writes_of (Worker.on_error e runId problem model run abortSignal err))
                   (rows ++ [row]) = rows ++ [row'] /\
      (row' = RunResult.set_cancelled (Worker.cancelled_time e) row \/
       row' = RunResult.set_error row \/
       exists output,
         (Problem.is_html problem = true /\ row' = RunResult.set_output output row) \/
         (Problem.is_html problem = false /\
          (row' = RunResult.set_cancelled (Worker.cancelled_time e)
                    (RunResult.set_output output row) \/
           row' = RunResult.set_error (RunResult.set_output output row) \/
           exists score reasoning,
             score <> SqlNull /\
             row' = RunResult.set_judged output score (ref_id judgeModel) reasoning
                      (RunResult.set_output output row))))).
  { intros err n Hn. destruct (on_error_trace err row Hid) as (Hl & row' & Hex & Hrow).
    split.
    - right. exists n, (List.map label_of
                          (Worker.on_error e runId problem model run abortSignal err)).
      split; [right; apply in_or_app; left; exact Hl|].
      split; [intros Hs; rewrite (Hn Hs); lia | reflexivity].
    - exists row'. split; [exact Hex | tauto]. }
  assert (Hdone : forall output (n : nat),
    (Run.stream run = false -> n = 1%nat) ->
    worker_trace (Problem.is_html problem) (Run.stream run)
      ("INSERT"%string :: "model_started"%string ::
       (if Run.stream run then ["model_streaming_started"%string] else []) ++
       repeat "candidate_token"%string n ++
       List.map label_of (Worker.after_call e runId problem model judgeModel run abortSignal
                            output)) /\
    exists row',
      Sql.exec_all (writes_of (Worker.after_call e runId problem model judgeModel run
                                 abortSignal output))
                   (rows ++ [row]) = rows ++ [row'] /\
      (row' = RunResult.set_cancelled (Worker.cancelled_time e) row \/
       row' = RunResult.set_error row \/
       exists output,
         (Problem.is_html problem = true /\ row' = RunResult.set_output output row) \/
         (Problem.is_html problem = false /\
          (row' = RunResult.set_cancelled (Worker.cancelled_time e)
                    (RunResult.set_output output row) \/
           row' = RunResult.set_error (RunResult.set_output output row) \/
           exists score reasoning,
             score <> SqlNull /\
             row' = RunResult.set_judged output score (ref_id judgeModel) reasoning
                      (RunResult.set_output output row))))).
  { intros output n Hn. destruct (after_call_trace output row Hid) as (Hl & row' & Hex & Hrow).
    split.
    - right. exists n, (List.map label_of
                          (Worker.after_call e runId problem model judgeModel run abortSignal
                             output)).
      split; [exact Hl|].
      split; [intros Hs; rewrite (Hn Hs); lia | reflexivity].
    - exists row'. split; [exact Hex|].
      destruct Hrow as [H|[H|H]]; [now left | right; right; exists output; now left
                                  | right; right; exists output; now right]. }
  cbn [List.map label_of writes_of omap]. rewrite List.map_app.
  change (writes_of (?a :: ?l)) with (writes_of ([a] ++ l)).
  rewrite !writes_of_app.
  assert (Hstart : writes_of (if Run.stream run
                              then [Emit "model_streaming_started"
                                      (Worker.payload runId problem model [])]
                              else []) = []) by now destruct (Run.stream run).
  assert (Hstart' : List.map label_of (if Run.stream run
                              then [Emit "model_streaming_started"
                                      (Worker.payload runId problem model [])]
                              else [])
                    = if Run.stream run then ["model_streaming_started"%string] else [])
    by now destruct (Run.stream run).
  rewrite Hstart, Hstart'. cbn [app writes_of omap].
  destruct provider as [p|].
  2:{ apply (Hfail _ 0%nat). reflexivity. }
  destruct (Run.stream run) eqn:Hstream.
  - destruct (tokens_labels (Adapter.tokens
                (Adapter.callModelWithStreaming (Worker.store e) (Worker.candidate_net e)
                   (fun c k s => Worker.flag e c (Worker.CandidateStep k s))
                   (Provider.id p) (ref_model_id model)
                   (Worker.candidate_messages problem)))) as (Hw & n & _ & Hl).
    rewrite List.map_app, writes_of_app, Hw, Hl. cbn [app].
    destruct (Adapter.returned _) as [output|err].
    + apply (Hdone output n). discriminate.
    + apply (Hfail err n). discriminate.
  - destruct (Adapter.returned _) as [output|err].
    + apply (Hdone output 1%nat). reflexivity.
    + apply (Hfail err 0%nat). reflexivity.
Qed.

End WorkerTrace.

Lemma existsb_false_fresh (rows : list RunResult.t) (id : string) :
  existsb (Sql.result_by_id id) rows = false ->
  forall r, In r rows -> RunResult.id r <> id.
Proof.
  intros Hex r Hin Heq.
  assert (Htrue : existsb (Sql.result_by_id id) rows = true).
  { apply existsb_exists. exists r. split; [exact Hin|].
    unfold Sql.result_by_id. now rewrite Heq, String.eqb_refl. }
  congruence.
Qed.

(** X11.  The trace of one call of the worker has a fixed shape.  A call
    that resolves inserts its row first; then either it only marks the row
    cancelled, or it publishes [model_started] (and
    [model_streaming_started] for a streaming run), then the candidate
    tokens (at most one without streaming), then exactly one ending: a
    cancellation, an error, the stored HTML answer, or the stored text
    answer followed by the judge's outcome.  [judge_done] never occurs for
    an HTML problem and never before [candidate_done].  A call that
    rejects did nothing, or inserted its row and nothing more. *)
Theorem worker_trace_shape
    (e : Worker.env) (runId : string) (problem : Problem.t) (model judgeModel : ModelRef)
    (run : Run.t) (abortSignal : option nat) :
  let did := Worker.processModelForProblem e runId problem model judgeModel run abortSignal in
  match snd did with
  | Returned _ =>
      worker_trace (Problem.is_html problem) (Run.stream run) (List.map label_of (fst did))
  | Thrown _ =>
      List.map label_of (fst did) = [] \/ List.map label_of (fst did) = ["INSERT"%string]
  end.
Proof.
  cbv zeta. unfold Worker.processModelForProblem.
  destruct (existsb _ _); [left; reflexivity|].
  destruct (negb _); [left; reflexivity|].
  destruct (Sql.get _ (models (Worker.store e))) as [m|]; [|right; reflexivity].
  cbn [fst snd List.map label_of].
  assert (Hnone : forall r : RunResult.t, In r [] -> RunResult.id r <> Worker.rrId e)
    by (intros r []).
  exact (proj1 (attempt_problem_trace e runId problem model judgeModel run abortSignal []
                  Hnone _ (Worker.new_row e runId problem model) eq_refl)).
Qed.

(** ** The worker's row while others write *)

Lemma get_update_by_id (id : string) (f : RunResult.t -> RunResult.t) (rows : list RunResult.t) :
  (forall r, RunResult.id (f r) = RunResult.id r) ->
  Sql.get (Sql.result_by_id id) (Sql.update (Sql.result_by_id id) f rows)
  = f <$> Sql.get (Sql.result_by_id id) rows.
Proof.
  intros Hid. unfold Sql.get, Sql.update.
  induction rows as [|r rows IH]; cbn; [reflexivity|].
  destruct (Sql.result_by_id id r) eqn:Hr.
  - unfold Sql.result_by_id in *. rewrite Hid, Hr. reflexivity.
  - rewrite Hr. exact IH.
Qed.

Lemma get_after_insert (id : string) (rows : list RunResult.t) (row r : RunResult.t) :
  Sql.get (Sql.result_by_id id) rows = Some r ->
  Sql.get (Sql.result_by_id id) (rows ++ [row]) = Some r.
Proof.
  unfold Sql.get. intros Hget. induction rows as [|x rows IH]; [discriminate|].
  cbn in *. destruct (Sql.result_by_id id x); [exact Hget | now apply IH].
Qed.

Lemma get_fresh_insert (id : string) (rows : list RunResult.t) (row : RunResult.t) :
  (forall r, In r rows -> RunResult.id r <> id) -> RunResult.id row = id ->
  Sql.get (Sql.result_by_id id) (rows ++ [row]) = Some row.
Proof.
  unfold Sql.get. intros Hfresh Hid. induction rows as [|x rows IH]; cbn.
  - unfold Sql.result_by_id. now rewrite Hid, String.eqb_refl.
  - unfold Sql.result_by_id at 1.
    destruct (String.eqb (RunResult.id x) id) eqn:Hx.
    + apply String.eqb_eq in Hx. destruct (Hfresh x); [now left | exact Hx].
    + apply IH. intros r Hin. apply Hfresh. now right.
Qed.

Lemma get_other_insert (id : string) (rows : list RunResult.t) (row : RunResult.t) :
  Sql.result_by_id id row = false ->
  Sql.get (Sql.result_by_id id) (rows ++ [row]) = Sql.get (Sql.result_by_id id) rows.
Proof.
  unfold Sql.get. intros Hother. induction rows as [|x rows IH]; cbn.
  - now rewrite Hother.
  - destruct (Sql.result_by_id id x); [reflexivity | exact IH].
Qed.

(** One statement of the worker, on a table that holds its row. *)
Lemma worker_write_on_row (e : Worker.env) (w : Sql.rr_write) (t : list RunResult.t)
    (r : RunResult.t) :
  worker_write e w ->
  Sql.get (Sql.result_by_id (Worker.rrId e)) t = Some r ->
  Sql.get (Sql.result_by_id (Worker.rrId e)) (Sql.exec w t) = Some (on_row w r).
Proof.
  intros Hw Hget.
  destruct Hw; cbn [Sql.exec on_row];
    [now apply get_after_insert | | | |];
    rewrite get_update_by_id, Hget by reflexivity; reflexivity.
Qed.

Lemma interleaved_on_row (e : Worker.env) (others : nat -> list RunResult.t -> list RunResult.t)
    (ws : list Sql.rr_write) (k : nat) (t : list RunResult.t) (r : RunResult.t) :
  leave_alone (Worker.rrId e) others ->
  Forall (worker_write e) ws ->
  Sql.get (Sql.result_by_id (Worker.rrId e)) t = Some r ->
  Sql.get (Sql.result_by_id (Worker.rrId e)) (interleaved others k ws t)
  = Some (foldl (fun r w => on_row w r) r ws).
Proof.
  intros Halone Hws. revert k t r.
  induction Hws as [|w ws Hw Hws IH]; intros k t r Hget; [exact Hget|].
  cbn [interleaved foldl]. apply IH. rewrite Halone. now apply worker_write_on_row.
Qed.

Lemma interleaved_alone (ws : list Sql.rr_write) (k : nat) (t : list RunResult.t) :
  interleaved (fun _ t => t) k ws t = Sql.exec_all ws t.
Proof.
  revert k t. induction ws as [|w ws IH]; intros k t; [reflexivity|].
  cbn [interleaved]. rewrite IH. reflexivity.
Qed.

Lemma in_writes_of (w : Sql.rr_write) (effects : list effect) :
  In w (writes_of effects) -> In (Write w) effects.
Proof.
  unfold writes_of. induction effects as [|[w'|ev d] effects IH]; cbn; [tauto| |].
  - intros [->|Hin]; [now left | right; now apply IH].
  - intros Hin. right. now apply IH.
Qed.

(** X12.  A call of the worker that resolves leaves its row settled,
    provided the other writers leave that row alone, whatever they do to
    the rest of the table between the worker's statements (a cancel of the
    run, a review or a delete that reaches the row in between is not
    covered).  The row carries the generated id, the run, the problem and
    the model; a text result ends completed, cancelled or in error, an
    HTML result ends manual, cancelled or in error, never pending; the
    score is set exactly on a completed row, which also names the judge
    model and holds the answer; a manual row holds the answer; a cancelled
    row has its cancellation time.  With no other writer at all, the
    statements add this one row at the end of the table the worker found
    and change no other. *)
Theorem worker_settles_its_row
    (e : Worker.env) (runId : string) (problem : Problem.t) (model judgeModel : ModelRef)
    (run : Run.t) (abortSignal : option nat)
    (others : nat -> list RunResult.t -> list RunResult.t) :
  let did := Worker.processModelForProblem e runId problem model judgeModel run abortSignal in
  leave_alone (Worker.rrId e) others ->
  snd did = Returned tt ->
  exists row,
    Sql.get (Sql.result_by_id (Worker.rrId e))
      (interleaved others 0 (writes_of (fst did)) (run_results (Worker.store e)))
    = Some row /\
    Sql.exec_all (writes_of (fst did)) (run_results (Worker.store e))
    = run_results (Worker.store e) ++ [row] /\
    RunResult.id row = Worker.rrId e /\
    RunResult.run_id row = runId /\
    RunResult.problem_id row = Problem.id problem /\
    RunResult.model_id row = ref_id model /\
    settled (Problem.is_html problem) (ref_id judgeModel) row.
Proof.
  cbv zeta. unfold Worker.processModelForProblem. intros Halone.
  destruct (existsb _ _) eqn:Hex; [discriminate|].
  destruct (negb _); [discriminate|].
  destruct (Sql.get _ (models (Worker.store e))) as [m|]; [|discriminate].
  intros _. cbn [fst].
  pose proof (existsb_false_fresh _ _ Hex) as Hfresh.
  set (provider := Sql.get (Sql.provider_by_id (Model.provider_id m))
                     (providers (Worker.store e))).
  set (new := Worker.new_row e runId problem model).
  set (ws := writes_of (Worker.attempt_problem e runId problem model judgeModel run
                          abortSignal provider)).
  destruct (attempt_problem_trace e runId problem model judgeModel run abortSignal
              (run_results (Worker.store e)) Hfresh provider new eq_refl)
    as (_ & row' & Hexec & Hrow).
  fold ws in Hexec.
  assert (Hws : Forall (worker_write e) ws).
  { apply List.Forall_forall. intros w Hin. apply in_writes_of in Hin.
    now apply attempt_problem_writes in Hin. }
  assert (Hnew : Sql.get (Sql.result_by_id (Worker.rrId e))
                   (run_results (Worker.store e) ++ [new]) = Some new)
    by now apply get_fresh_insert.
  assert (Hrow' : foldl (fun r w => on_row w r) new ws = row').
  { pose proof (interleaved_on_row e (fun _ t => t) ws 1 _ new (fun _ _ => eq_refl) Hws Hnew)
      as Hquiet.
    rewrite interleaved_alone, Hexec in Hquiet.
    assert (Hid' : RunResult.id row' = Worker.rrId e).
    { destruct Hrow
        as [->|[->|[output [[_ ->]|[_ [->|[->|(score & reasoning & _ & ->)]]]]]]]; reflexivity. }
    rewrite (get_fresh_insert _ _ _ Hfresh Hid') in Hquiet. congruence. }
  exists row'. split; [|split; [exact Hexec|]].
  - change (writes_of (Write (Sql.InsertResult new) :: ?l)) with (Sql.InsertResult new :: writes_of l).
    cbn [interleaved Sql.exec]. fold ws.
    rewrite (interleaved_on_row e others ws 1 _ new Halone Hws), Hrow'; [reflexivity|].
    now rewrite Halone.
  - unfold settled.
    destruct Hrow as [->|[->|[output [[Hhtml ->]|[Hhtml [->|[->|(score & reasoning & Hscore & ->)]]]]]]];
      cbn; rewrite ?Hhtml; cbn; repeat split; try discriminate; try assumption;
      destruct (Problem.is_html problem); cbn; repeat split; discriminate.
Qed.

(** [worker_settles_its_row] for the sample text problem [prob-a], a
    candidate that answers and a judge that passes the answer, while
    another worker inserts a row of its own. *)
Lemma worker_settles_its_row_witness :
  let did :=
    Worker.processModelForProblem
      (quiet Servers.anthropic
         (Servers.judge (JsString.quoting
            "'{\'verdict\':\'PASS\',\'reasoning\':\'fine\',\'score\':90}'")))
      "run-3" Sample.problemA (model_ref Sample.model1) (model_ref Sample.model2) Sample.run3
      (Some 1%nat) in
  exists row,
    Sql.get (Sql.result_by_id "rr-9")
      (interleaved another_worker 0 (writes_of (fst did)) (run_results Sample.db))
    = Some row /\
    Sql.exec_all (writes_of (fst did)) (run_results Sample.db)
    = run_results Sample.db ++ [row] /\
    RunResult.id row = "rr-9"%string /\
    RunResult.run_id row = "run-3"%string /\
    RunResult.problem_id row = "prob-a"%string /\
    RunResult.model_id row = "model-1"%string /\
    settled false "model-2" row.
Proof.
  apply (worker_settles_its_row
           (quiet Servers.anthropic
              (Servers.judge (JsString.quoting
                 "'{\'verdict\':\'PASS\',\'reasoning\':\'fine\',\'score\':90}'")))
           "run-3" Sample.problemA (model_ref Sample.model1) (model_ref Sample.model2)
           Sample.run3 (Some 1%nat) another_worker).
  - intros k t. unfold another_worker. destruct (k =? 1)%nat; [|reflexivity].
    now apply get_other_insert.
  - vm_compute. reflexivity.
Defined.

Local Open Scope string_scope.

(** * Cancelling and executing again *)

Lemma existsb_eqb_In (x : string) (l : list string) :
  existsb (String.eqb x) l = true <-> In x l.
Proof.
  rewrite existsb_exists. split.
  - intros (y & Hin & Heq). apply String.eqb_eq in Heq. now subst.
  - intros Hin. exists x. split; [exact Hin | apply String.eqb_refl].
Qed.

(** X13.  [POST /api/runs/:runId/models/:modelId/cancel] is accepted
    exactly for a run that exists, is running and lists the model.  A
    refused request changes nothing and publishes nothing.  An accepted
    one triggers the model's controller, publishes [model_cancelled],
    cancels the rows of that run and model that were pending or manual,
    and leaves every other row, every other table and the run itself (which
    stays running) as they were. *)
Theorem cancel_model_guard_and_effect
    (db : Db) (reg : Cancellation.registry) (runId modelId : string) (t : Z) :
  let out := Routes.cancel_model db reg runId modelId t in
  (accepted (reply_of out) <->
   exists r, Sql.get (Sql.run_by_id runId) (runs db) = Some r /\
             Run.status r = RunStatus.running /\ In modelId (Run.model_ids r)) /\
  (~ accepted (reply_of out) ->
   store_of out = db /\ registry_of out = reg /\ events_of out = []) /\
  (accepted (reply_of out) ->
   store_of out = with_run_results (run_results (store_of out)) db /\
   Forall2 (model_rows_cancelled runId modelId t) (run_results db) (run_results (store_of out)) /\
   registry_of out = fst (Cancellation.cancelModel runId modelId reg) /\
   List.map label_of (events_of out) = ["model_cancelled"]).
Proof.
  cbv zeta. unfold Routes.cancel_model, reply_of, store_of, registry_of, events_of.
  destruct (Sql.get (Sql.run_by_id runId) (runs db)) as [r|] eqn:Hget.
  2:{ cbn. repeat split; try tauto. intros (r & Hr & _). discriminate. }
  destruct (existsb (String.eqb modelId) (Run.model_ids r)) eqn:Hin.
  - apply existsb_eqb_In in Hin.
    destruct (Run.status r) eqn:Hst;
      try (cbn; repeat split; try tauto; intros (r' & Hr & Hrun & _);
           injection Hr as <-; congruence).
    cbn [negb]. destruct (Cancellation.cancelModel runId modelId reg) as [reg' cancelled].
    cbn [fst snd accepted]. split; [|split].
    + split; [intros _; exists r; now repeat split | tauto].
    + tauto.
    + intros _. split; [reflexivity|]. split; [|split; reflexivity].
      cbn [run_results with_run_results Sql.exec].
      eapply Forall2_impl; [apply update_Forall2|].
      intros old new Hrow. cbn beta in Hrow. unfold model_rows_cancelled. split.
      * intros Hrun Hmodel Hopen.
        apply is_open_true in Hopen. apply String.eqb_eq in Hrun. apply String.eqb_eq in Hmodel.
        now rewrite Hrun, Hmodel, Hopen in Hrow.
      * intros Hother.
        destruct (String.eqb (RunResult.run_id old) runId) eqn:Hrun; cbn in Hrow; [|exact Hrow].
        destruct (String.eqb (RunResult.model_id old) modelId) eqn:Hmodel; cbn in Hrow;
          [|exact Hrow].
        apply String.eqb_eq in Hrun. apply String.eqb_eq in Hmodel.
        destruct Hother as [Hne|[Hne|Hterm]]; [contradiction | contradiction |].
        apply is_open_false in Hterm. now rewrite Hterm in Hrow.
  - assert (Hnot : ~ In modelId (Run.model_ids r)).
    { intros H. apply existsb_eqb_In in H. congruence. }
    destruct (Run.status r); cbn; repeat split; try tauto;
      intros (r' & Hr & _ & Hmem); injection Hr as <-; contradiction.
Qed.

Lemma set_cancelled_id (t : Z) (by_ : string) (r : Run.t) :
  Run.id (Run.set_cancelled t by_ r) = Run.id r.
Proof. reflexivity. Qed.

Lemma set_status_id (s : RunStatus.t) (r : Run.t) : Run.id (Run.set_status s r) = Run.id r.
Proof. reflexivity. Qed.

(** X14.  After [POST /api/runs/:id/cancel] was accepted, the run is
    cancelled with the clock reading and [user] recorded; a second cancel
    request is refused with 400 and changes nothing; and, the judge id not
    being blank, [POST /api/runs/:id/execute] is accepted again: the run
    goes back to running, keeps [cancelled_at] and [cancelled_by] from
    the cancellation, and the results of the first execution stay in the
    table. *)
Theorem cancelled_run_can_be_executed_again
    (db : Db) (reg : Cancellation.registry) (id : string) (t1 t2 : Z) :
  let out := Routes.cancel_run db reg id t1 t2 in
  accepted (reply_of out) ->
  exists r,
    Sql.get (Sql.run_by_id id) (runs (store_of out)) = Some r /\
    Run.status r = RunStatus.cancelled /\
    Run.cancelled_at r = Some t1 /\ Run.cancelled_by r = Some "user" /\
    (forall t3 t4,
       Routes.cancel_run (store_of out) (registry_of out) id t3 t4
       = (Refuse 400 "Can only cancel running or queued runs", store_of out, registry_of out, [])) /\
    (String.eqb (JsString.trim (Run.judge_model_id r)) EmptyString = false ->
     let again := Scheduler.execute (store_of out) id in
     accepted (reply_of again) /\
     run_results (store_of again) = run_results (store_of out) /\
     exists r', Sql.get (Sql.run_by_id id) (runs (store_of again)) = Some r' /\
                Run.status r' = RunStatus.running /\
                Run.cancelled_at r' = Some t1 /\ Run.cancelled_by r' = Some "user").
Proof.
  cbv zeta. unfold Routes.cancel_run, reply_of, store_of, registry_of.
  destruct (Sql.get (Sql.run_by_id id) (runs db)) as [r|] eqn:Hget; [|intros []].
  assert (Hfound : Sql.get (Sql.run_by_id id)
                     (Sql.update (Sql.run_by_id id) (Run.set_cancelled t1 "user") (runs db))
                   = Some (Run.set_cancelled t1 "user" r)).
  { unfold Sql.get in *. rewrite find_update_by_id by apply set_cancelled_id.
    now rewrite Hget. }
  assert (Hgo : Run.status r = RunStatus.running \/ Run.status r = RunStatus.queued ->
    let out := let '(reg', cancelled) := Cancellation.cancelRun id reg in
               (Reply 200 (JObj [("id", JStr id); ("status", JStr "cancelled");
                                 ("cancelled", JBool cancelled)]),
                with_run_results
                  (Sql.exec (Sql.CancelOpenOfRun id t2)
                     (run_results (with_runs (Sql.update (Sql.run_by_id id)
                                                (Run.set_cancelled t1 "user") (runs db)) db)))
                  (with_runs (Sql.update (Sql.run_by_id id)
                                (Run.set_cancelled t1 "user") (runs db)) db),
                reg',
                [run_status_event id RunStatus.cancelled;
                 Emit "run_cancelled" (JObj [("run_id", JStr id); ("cancelled_by", JStr "user")])]) in
    exists r0,
      Sql.get (Sql.run_by_id id) (runs (snd (fst (fst out)))) = Some r0 /\
      Run.status r0 = RunStatus.cancelled /\
      Run.cancelled_at r0 = Some t1 /\ Run.cancelled_by r0 = Some "user" /\
      (forall t3 t4,
         Routes.cancel_run (snd (fst (fst out))) (snd (fst out)) id t3 t4
         = (Refuse 400 "Can only cancel running or queued runs",
            snd (fst (fst out)), snd (fst out), [])) /\
      (String.eqb (JsString.trim (Run.judge_model_id r0)) EmptyString = false ->
       let again := Scheduler.execute (snd (fst (fst out))) id in
       accepted (fst (fst (fst again))) /\
       run_results (snd (fst (fst again))) = run_results (snd (fst (fst out))) /\
       exists r', Sql.get (Sql.run_by_id id) (runs (snd (fst (fst again)))) = Some r' /\
                  Run.status r' = RunStatus.running /\
                  Run.cancelled_at r' = Some t1 /\ Run.cancelled_by r' = Some "user")).
  { intros _. destruct (Cancellation.cancelRun id reg) as [reg' cancelled]. cbv zeta.
    cbn [fst snd runs with_run_results with_runs].
    exists (Run.set_cancelled t1 "user" r). split; [exact Hfound|].
    split; [reflexivity|]. split; [reflexivity|]. split; [reflexivity|]. split.
    - intros t3 t4. unfold Routes.cancel_run. cbn [runs with_run_results with_runs].
      rewrite Hfound. reflexivity.
    - intros Hjudge. unfold Scheduler.execute. cbn [runs with_run_results with_runs].
      rewrite Hfound. cbn [Run.status Run.judge_model_id Run.set_cancelled].
      change (Run.judge_model_id (Run.set_cancelled t1 "user" r)) with (Run.judge_model_id r)
        in Hjudge.
      rewrite Hjudge. cbn [fst snd accepted].
      split; [exact I|]. split; [reflexivity|].
      exists (Run.set_status RunStatus.running (Run.set_cancelled t1 "user" r)).
      split; [|repeat split].
      cbn [runs with_runs]. unfold Sql.get in *.
      rewrite find_update_by_id by apply set_status_id. now rewrite Hfound. }
  destruct (Run.status r) eqn:Hst; try (intros []); intros _; apply Hgo; auto.
Qed.

(** [cancelled_run_can_be_executed_again] for the running sample run
    [run-1]. *)
Lemma cancelled_run_can_be_executed_again_witness :
  let out := Routes.cancel_run Sample.db working_registry "run-1" 50 51 in
  exists r,
    Sql.get (Sql.run_by_id "run-1") (runs (store_of out)) = Some r /\
    Run.status r = RunStatus.cancelled /\
    Run.cancelled_at r = Some 50 /\ Run.cancelled_by r = Some "user" /\
    (forall t3 t4,
       Routes.cancel_run (store_of out) (registry_of out) "run-1" t3 t4
       = (Refuse 400 "Can only cancel running or queued runs", store_of out, registry_of out, [])) /\
    (String.eqb (JsString.trim (Run.judge_model_id r)) EmptyString = false ->
     let again := Scheduler.execute (store_of out) "run-1" in
     accepted (reply_of again) /\
     run_results (store_of again) = run_results (store_of out) /\
     exists r', Sql.get (Sql.run_by_id "run-1") (runs (store_of again)) = Some r' /\
                Run.status r' = RunStatus.running /\
                Run.cancelled_at r' = Some 50 /\ Run.cancelled_by r' = Some "user").
Proof.
  apply (cancelled_run_can_be_executed_again Sample.db working_registry "run-1" 50 51).
  vm_compute. exact I.
Defined.

(** X15.  The candidates [execute] hands to the workers are the run's
    model ids that still name a model row, in the order of the run's list
    and as often as the list repeats them; ids without a row are dropped
    silently, and each candidate carries the columns of the first row with
    its id. *)
Theorem resolve_models_keeps_listed_order (db : Db) (ids : list string) :
  List.map ref_id (Scheduler.resolve_models db ids)
  = List.filter (fun mid => existsb (Sql.model_by_id mid) (models db)) ids /\
  Forall (fun ref => exists m, Sql.get (Sql.model_by_id (ref_id ref)) (models db) = Some m /\
                               ref = model_ref m)
         (Scheduler.resolve_models db ids).
Proof.
  unfold Scheduler.resolve_models.
  induction ids as [|mid ids [IH1 IH2]]; [split; [reflexivity | constructor]|].
  cbn [omap list_omap List.filter].
  destruct (Sql.get (Sql.model_by_id mid) (models db)) as [m|] eqn:Hget.
  - assert (Hid : Model.id m = mid).
    { unfold Sql.get in Hget. apply find_some in Hget as [_ Heq].
      now apply String.eqb_eq in Heq. }
    assert (Hex : existsb (Sql.model_by_id mid) (models db) = true).
    { unfold Sql.get in Hget. apply find_some in Hget as [Hin Heq].
      apply existsb_exists. now exists m. }
    rewrite Hex. cbn [fmap option_fmap option_map List.map]. split.
    + cbn [ref_id model_ref]. rewrite Hid. f_equal. exact IH1.
    + constructor; [|exact IH2].
      exists m. cbn [ref_id model_ref]. rewrite Hid. now split.
  - assert (Hex : existsb (Sql.model_by_id mid) (models db) = false).
    { apply not_true_is_false. intros Hex. apply existsb_exists in Hex as (m & Hin & Heq).
      unfold Sql.get in Hget. eapply find_none in Hget; [|exact Hin]. congruence. }
    rewrite Hex. cbn. split; [exact IH1 | exact IH2].
Qed.

(** * Deleting with a cascade *)

Local Open Scope list_scope.

(** The statements of a cascade over the runs [rs], run to the end. *)
Lemma foldl_delete_runs (rs : list Run.t) :
  forall d,
  let d' := foldl (fun d f => f d) d (flat_map Resources.delete_run_and_results rs) in
  providers d' = providers d /\ models d' = models d /\
  problem_sets d' = problem_sets d /\ problems d' = problems d /\
  foreign_keys d' = foreign_keys d /\
  (forall r, In r (runs d') <-> In r (runs d) /\ forall q, In q rs -> Run.id q <> Run.id r) /\
  (forall rr, In rr (run_results d') <->
              In rr (run_results d) /\ forall q, In q rs -> Run.id q <> RunResult.run_id rr).
Proof.
  induction rs as [|x rs IH]; intros d; cbv zeta.
  - cbn. repeat split; try tauto; intros [H _]; exact H.
  - cbn [flat_map Resources.delete_run_and_results app foldl].
    destruct (IH (with_runs (Sql.delete (Sql.run_by_id (Run.id x))
                               (runs (Routes.delete_results (Sql.DeleteOfRun (Run.id x)) d)))
                            (Routes.delete_results (Sql.DeleteOfRun (Run.id x)) d)))
      as (H1 & H2 & H3 & H4 & H5 & Hruns & Hres).
    cbv zeta in H1, H2, H3, H4, H5, Hruns, Hres.
    split; [exact H1|]. split; [exact H2|]. split; [exact H3|]. split; [exact H4|].
    split; [exact H5|]. split.
    + intros r. rewrite Hruns. cbn [runs with_runs Routes.delete_results with_run_results].
      rewrite in_delete. unfold Sql.run_by_id. rewrite String.eqb_neq. split.
      * intros [[Hin Hx] Hrest]. split; [exact Hin|].
        intros q [<-|Hq]; [congruence | now apply Hrest].
      * intros [Hin Hall]. split; [split; [exact Hin|]|].
        -- intros Heq. apply (Hall x); [now left | congruence].
        -- intros q Hq. apply Hall. now right.
    + intros rr. rewrite Hres.
      cbn [run_results with_runs Routes.delete_results with_run_results Sql.exec].
      rewrite in_delete, String.eqb_neq. split.
      * intros [[Hin Hx] Hrest]. split; [exact Hin|].
        intros q [<-|Hq]; [congruence | now apply Hrest].
      * intros [Hin Hall]. split; [split; [exact Hin|]|].
        -- intros Heq. apply (Hall x); [now left | congruence].
        -- intros q Hq. apply Hall. now right.
Qed.

(** ** Removing duplicates *)






Lemma transaction_cases (stmts : list (Db -> Db)) (fails_at : option nat) (d : Db) :
  Routes.transaction stmts fails_at d = Returned (foldl (fun d f => f d) d stmts) \/
  (exists err, Routes.transaction stmts fails_at d = Thrown err /\ fails_at <> None).
Proof.
  unfold Routes.transaction. destruct fails_at as [k|]; [|now left].
  destruct (k <? length stmts)%nat; [right; eexists; split; [reflexivity | discriminate] | now left].
Qed.




Lemma missing_false (v : option string) :
  Resources.missing v = false -> exists s, v = Some s /\ s <> EmptyString.
Proof.
  destruct v as [s|]; [|discriminate]. cbn. intros H. apply String.eqb_neq in H. eauto.
Qed.

Lemma missing_true (v : option string) :
  Resources.missing v = true -> v = None \/ v = Some EmptyString.
Proof.
  destruct v as [s|]; [|now left]. cbn. intros H. apply String.eqb_eq in H. right. now subst.
Qed.

(** X17.  [DELETE /api/runs?problemSetId=...] deletes all or nothing.
    When the transaction goes through, the answer counts the runs of the
    problem set, and the store has lost exactly the runs that share their
    id with a run of the set (no run of the set is left), the results of
    those runs, and the results recorded for a problem of the set; the
    problems, the problem sets, the models and the providers stay.  A
    missing or empty [problemSetId] is refused with 400, and a failing
    transaction deletes nothing. *)
Theorem delete_runs_of_a_set (db : Db) (problemSetId : option string) (fails_at : option nat) :
  let answer := fst (Resources.delete_runs db problemSetId fails_at) in
  let db' := snd (Resources.delete_runs db problemSetId fails_at) in
  match answer with
  | Returned (Reply code body) =>
      exists set,
        problemSetId = Some set /\ set <> EmptyString /\ code = 200%nat /\
        body = JObj [("deleted"%string,
                      JNum (Z.of_nat (length (List.filter (Sql.run_in_set set) (runs db)))) 0)] /\
        providers db' = providers db /\ models db' = models db /\
        problem_sets db' = problem_sets db /\ problems db' = problems db /\
        foreign_keys db' = foreign_keys db /\
        (forall r, In r (runs db') <->
                   In r (runs db) /\
                   forall q, In q (runs db) -> Run.problem_set_id q = set -> Run.id q <> Run.id r) /\
        (forall r, In r (runs db') -> Run.problem_set_id r <> set) /\
        (forall rr, In rr (run_results db') <->
                    In rr (run_results db) /\ ~ result_of_set db set rr)
  | Returned (Refuse code _) =>
      code = 400%nat /\ db' = db /\ (problemSetId = None \/ problemSetId = Some EmptyString)
  | Thrown _ => db' = db
  end /\
  (fails_at = None ->
   forall set, problemSetId = Some set -> set <> EmptyString ->
   exists body, answer = Returned (Reply 200 body)).
Proof.
  cbv zeta. unfold Resources.delete_runs.
  destruct (Resources.missing problemSetId) eqn:Hmiss.
  { cbn [fst snd]. split; [split; [reflexivity | split; [reflexivity | now apply missing_true]]|].
    intros _ set -> Hne. cbn in Hmiss. apply String.eqb_eq in Hmiss. contradiction. }
  destruct (missing_false _ Hmiss) as (set & -> & Hne).
  change (default EmptyString (Some set)) with set.
  match goal with
  | |- context [Routes.transaction ?s fails_at ?d] =>
      destruct (transaction_cases s fails_at d) as [Hrun|(err & Hrun & Hfail)]; rewrite Hrun
  end; cbn [fst snd].
  2:{ split; [reflexivity|]. intros Hnone. contradiction. }
  split; [|intros _ set' _ _; eexists; reflexivity].
  exists set. split; [reflexivity|]. split; [exact Hne|]. split; [reflexivity|].
  split; [reflexivity|].
  rewrite foldl_app.
  rewrite <- (List.map_map (fun p => Sql.DeleteOfProblem (Problem.id p)) Routes.delete_results).
  rewrite foldl_delete_results.
  match goal with
  | |- context [foldl ?f ?d0 (flat_map Resources.delete_run_and_results ?rs)] =>
      pose proof (foldl_delete_runs rs d0) as Hd; cbv zeta in Hd;
      set (d' := foldl f d0 (flat_map Resources.delete_run_and_results rs)) in *
  end.
  destruct Hd as (H1 & H2 & H3 & H4 & H5 & Hruns & Hres).
  cbn [providers models problem_sets problems foreign_keys runs run_results with_run_results]
    in H1, H2, H3, H4, H5, Hruns, Hres.
  split; [exact H1|]. split; [exact H2|]. split; [exact H3|]. split; [exact H4|].
  split; [exact H5|].
  assert (Hset : forall q, In q (Sql.all (Sql.run_in_set set) (runs db)) <->
                           In q (runs db) /\ Run.problem_set_id q = set).
  { intros q. unfold Sql.all, Sql.run_in_set. rewrite List.filter_In.
    now rewrite String.eqb_eq. }
  assert (Hkept : forall r, In r (runs d') <->
            In r (runs db) /\
            forall q, In q (runs db) -> Run.problem_set_id q = set -> Run.id q <> Run.id r).
  { intros r. rewrite Hruns. split; intros [Hin Hall]; (split; [exact Hin|]).
    - intros q Hq Hs. apply Hall. apply Hset. now split.
    - intros q Hq. apply Hset in Hq as [Hq Hs]. now apply Hall. }
  split; [exact Hkept|]. split.
  - intros r Hr Hs. apply Hkept in Hr as [Hin Hall]. now apply (Hall r).
  - intros rr. rewrite Hres, in_delete_of_problems. unfold result_of_set. split.
    + intros [[Hin Hp] Hr]. split; [exact Hin|].
      intros [(r & Hrin & Hrset & Hrid) | (p & Hpin & Hpset & Hpid)].
      * apply (Hr r); [|exact Hrid]. apply Hset. now split.
      * apply (Hp p); [|exact Hpid].
        unfold Sql.all, Sql.problem_in_set. apply List.filter_In. split; [exact Hpin|].
        now apply String.eqb_eq.
    + intros [Hin Hnone]. split; [split; [exact Hin|]|].
      * intros p Hp Hpid. unfold Sql.all, Sql.problem_in_set in Hp.
        apply List.filter_In in Hp as [Hpin Hpset]. apply String.eqb_eq in Hpset.
        apply Hnone. right. eauto.
      * intros q Hq Hrid. apply Hset in Hq as [Hq Hs]. apply Hnone. left. eauto.
Qed.

(** [delete_runs_of_a_set] on the sample store, for [set-1]. *)
Lemma delete_runs_of_a_set_witness :
  exists body, fst (Resources.delete_runs Sample.db (Some "set-1"%string) None)
               = Returned (Reply 200 body).
Proof.
  apply (proj2 (delete_runs_of_a_set Sample.db (Some "set-1"%string) None) eq_refl
           "set-1"%string eq_refl).
  discriminate.
Defined.









Local Open Scope string_scope.

(** * The CSV export *)

Local Open Scope list_scope.

Lemma rev_rev_app (s field : string) :
  String.rev (String.rev_app s field) = String.rev field +:+ s.
Proof.
  revert field. induction s as [|c s IH]; intros field.
  - cbn. now rewrite append_empty_r.
  - cbn [String.rev_app]. rewrite IH, rev_cons, append_assoc. reflexivity.
Qed.

Lemma plain_head (c : ascii) (s : string) :
  Resources.needs_quotes (String c s) = false ->
  Ascii.eqb c JsString.dquote = false /\ Ascii.eqb c "," = false /\
  Ascii.eqb c "010" = false /\ Resources.needs_quotes s = false.
Proof.
  cbn. intros H. apply orb_false_iff in H as [Hc Hs]. unfold Resources.is_special in Hc.
  apply orb_false_iff in Hc as [Hc Hlf]. apply orb_false_iff in Hc as [Hq Hcomma]. auto.
Qed.

(** The characters of an unquoted value are taken as they come. *)
Lemma unquoted_run (s rest field : string) (record : list string) (records : list (list string)) :
  Resources.needs_quotes s = false -> has_return s = false ->
  read_csv Unquoted field record records (s +:+ rest)
  = read_csv Unquoted (String.rev_app s field) record records rest.
Proof.
  revert field. induction s as [|c s IH]; intros field Hplain Hcr; [reflexivity|].
  apply plain_head in Hplain as (Hq & Hcomma & Hlf & Hplain).
  cbn in Hcr. apply orb_false_iff in Hcr as [Hc Hcr].
  change (String c s +:+ rest) with (String c (s +:+ rest)).
  cbn [read_csv String.rev_app]. rewrite Hq, Hcomma, Hlf, Hc. now apply IH.
Qed.

(** A field that does not start with a quote is an unquoted one. *)
Lemma start_unquoted (c : ascii) (r field : string) (record : list string)
    (records : list (list string)) :
  Ascii.eqb c JsString.dquote = false ->
  read_csv FieldStart field record records (String c r)
  = read_csv Unquoted field record records (String c r).
Proof. intros Hq. cbn [read_csv]. rewrite Hq. reflexivity. Qed.

(** Inside quotes, up to the closing quote. *)
Lemma quoted_run (s rest field : string) (record : list string) (records : list (list string)) :
  read_csv Quoted field record records
    (Resources.double_quotes s +:+ String JsString.dquote rest)
  = read_csv QuoteSeen (String.rev_app s field) record records rest.
Proof.
  revert field. induction s as [|c s IH]; intros field.
  - cbn [Resources.double_quotes String.rev_app].
    change (EmptyString +:+ ?x) with x. cbn [read_csv]. now rewrite Ascii.eqb_refl.
  - cbn [Resources.double_quotes String.rev_app].
    destruct (Ascii.eqb c JsString.dquote) eqn:Hq.
    + apply Ascii.eqb_eq in Hq. subst c.
      change (String JsString.dquote (String JsString.dquote (Resources.double_quotes s)) +:+ ?x)
        with (String JsString.dquote (String JsString.dquote (Resources.double_quotes s +:+ x))).
      cbn [read_csv]. rewrite !Ascii.eqb_refl. apply IH.
    + change (String c (Resources.double_quotes s) +:+ ?x)
        with (String c (Resources.double_quotes s +:+ x)).
      cbn [read_csv]. rewrite Hq. apply IH.
Qed.

(** After the closing quote, a comma, a line feed or the end of the text
    is taken as after an unquoted field. *)
Lemma quote_seen_delimiter (rest field : string) (record : list string)
    (records : list (list string)) :
  (rest = EmptyString \/ exists r, rest = String "," r \/ rest = String "010" r) ->
  read_csv QuoteSeen field record records rest = read_csv Unquoted field record records rest.
Proof.
  intros [->|(r & [->| ->])]; [|reflexivity|reflexivity].
  cbn [read_csv]. now destruct record.
Qed.

(** One escaped value in front of a comma, a line feed or the end of the
    text. *)
Lemma esc_reads_back (v : option string) (rest : string) (record : list string)
    (records : list (list string)) :
  bare_return v = false ->
  (rest = EmptyString \/ exists r, rest = String "," r \/ rest = String "010" r) ->
  (rest <> EmptyString \/ record <> []) ->
  read_csv FieldStart EmptyString record records (Resources.esc v +:+ rest)
  = read_csv Unquoted (String.rev_app (default EmptyString v) EmptyString) record records rest.
Proof.
  intros Hbare Hrest Hnonempty.
  assert (Hempty : read_csv FieldStart EmptyString record records rest
                   = read_csv Unquoted EmptyString record records rest).
  { destruct Hrest as [->|(r & [->| ->])]; [|reflexivity|reflexivity].
    destruct Hnonempty as [H|H]; [congruence|]. cbn [read_csv]. now destruct record. }
  destruct v as [s|]; [|exact Hempty].
  cbn [Resources.esc default]. change (default EmptyString (Some s)) with s.
  cbn [bare_return] in Hbare.
  destruct (Resources.needs_quotes s) eqn:Hq.
  - unfold JsString.in_quotes.
    change (String JsString.dquote (?a +:+ String JsString.dquote EmptyString) +:+ rest)
      with (String JsString.dquote ((a +:+ String JsString.dquote EmptyString) +:+ rest)).
    rewrite append_assoc.
    change (String JsString.dquote EmptyString +:+ rest) with (String JsString.dquote rest).
    cbn [read_csv]. rewrite Ascii.eqb_refl, quoted_run. now apply quote_seen_delimiter.
  - rewrite andb_true_r in Hbare.
    destruct s as [|c s]; [exact Hempty|].
    pose proof (plain_head _ _ Hq) as (Hc & _).
    change (String c s +:+ rest) with (String c (s +:+ rest)).
    rewrite (start_unquoted _ _ _ _ _ Hc).
    change (String c (s +:+ rest)) with (String c s +:+ rest).
    now apply unquoted_run.
Qed.

Lemma close_read_field (v : string) (record : list string) :
  close_field (String.rev_app v EmptyString) record = v :: record.
Proof. unfold close_field. now rewrite rev_rev_app. Qed.

(** A line in front of a line feed. *)
Lemma line_reads_back (v : option string) (vs : list (option string)) (more : string)
    (record : list string) (records : list (list string)) :
  Forall (fun v => bare_return v = false) (v :: vs) ->
  read_csv FieldStart EmptyString record records
    (Resources.csv_line (v :: vs) +:+ String "010" more)
  = read_csv FieldStart EmptyString []
      ((rev record ++ List.map (default EmptyString) (v :: vs)) :: records) more.
Proof.
  unfold Resources.csv_line.
  revert v record. induction vs as [|v' vs IH]; intros v record Hall;
    apply List.Forall_cons_iff in Hall as [Hv Hall].
  - cbn [List.map Js.join].
    rewrite esc_reads_back; [|exact Hv|right; eauto|left; discriminate].
    cbn [read_csv]. unfold close_record. rewrite close_read_field. reflexivity.
  - change (Js.join "," (List.map Resources.esc (v :: v' :: vs)))
      with (Resources.esc v +:+ "," +:+ Js.join "," (List.map Resources.esc (v' :: vs))).
    rewrite !append_assoc.
    change ("," +:+ ?x) with (String "," x).
    rewrite esc_reads_back; [|exact Hv|right; eauto|left; discriminate].
    cbn [read_csv]. rewrite close_read_field, (IH v' _ Hall).
    cbn [rev List.map]. now rewrite <- !app_assoc.
Qed.

(** The last line, which no line feed follows. *)
Lemma last_line_reads_back (v : option string) (vs : list (option string))
    (record : list string) (records : list (list string)) :
  Forall (fun v => bare_return v = false) (v :: vs) ->
  vs <> [] \/ record <> [] ->
  read_csv FieldStart EmptyString record records (Resources.csv_line (v :: vs))
  = Some (rev ((rev record ++ List.map (default EmptyString) (v :: vs)) :: records)).
Proof.
  unfold Resources.csv_line.
  revert v record. induction vs as [|v' vs IH]; intros v record Hall Hnonempty;
    apply List.Forall_cons_iff in Hall as [Hv Hall].
  - destruct Hnonempty as [H|Hrecord]; [congruence|].
    cbn [List.map Js.join]. rewrite <- (append_empty_r (Resources.esc v)).
    rewrite esc_reads_back; [|exact Hv|now left|now right].
    cbn [read_csv]. unfold close_record. rewrite close_read_field. reflexivity.
  - change (Js.join "," (List.map Resources.esc (v :: v' :: vs)))
      with (Resources.esc v +:+ "," +:+ Js.join "," (List.map Resources.esc (v' :: vs))).
    change ("," +:+ ?x) with (String "," x).
    rewrite esc_reads_back; [|exact Hv|right; eauto|left; discriminate].
    cbn [read_csv]. rewrite close_read_field, (IH v' _ Hall) by (right; discriminate).
    cbn [rev List.map]. now rewrite <- !app_assoc.
Qed.

(** Lines joined by line feeds. *)
Lemma lines_read_back (line : list (option string)) (lines : list (list (option string)))
    (records : list (list string)) :
  Forall readable (line :: lines) ->
  read_csv FieldStart EmptyString [] records
    (Js.join (String "010" EmptyString) (List.map Resources.csv_line (line :: lines)))
  = Some (rev records ++ List.map (List.map (default EmptyString)) (line :: lines)).
Proof.
  revert line records. induction lines as [|line' lines IH]; intros line records Hall;
    apply List.Forall_cons_iff in Hall as [[Hlen Hline] Hall].
  - destruct line as [|v [|v' vs]]; cbn in Hlen; try lia.
    cbn [List.map Js.join].
    rewrite last_line_reads_back; [|exact Hline|left; discriminate].
    cbn [rev app]. reflexivity.
  - destruct line as [|v vs]; cbn in Hlen; [lia|].
    change (Js.join (String "010" EmptyString) (List.map Resources.csv_line ((v :: vs) :: line' :: lines)))
      with (Resources.csv_line (v :: vs) +:+ String "010" EmptyString +:+
            Js.join (String "010" EmptyString) (List.map Resources.csv_line (line' :: lines))).
    change (String "010" EmptyString +:+ ?x) with (String "010" x).
    rewrite line_reads_back by exact Hline.
    rewrite (IH line' _ Hall). cbn [rev app List.map]. now rewrite <- !app_assoc.
Qed.

(** X20.  The CSV export reads back.  Take a reader of the usual
    convention: records end at a line break outside quotes (a line feed,
    a carriage return, or both), fields at a comma outside quotes, and a
    doubled quote inside quotes stands for one.  Whatever commas, double
    quotes and line feeds the values hold, this reader gets from the
    exported text the header and then every row, value for value, a
    missing value reading as the empty text, provided every row has at
    least two values (the export writes eleven) and no value holds a
    carriage return without also holding a comma, a double quote or a
    line feed: such a value is written without quotes, and the reader
    ends the record at it. *)
Theorem csv_export_reads_back (rows : list (list (option string))) :
  Forall readable rows ->
  read_export (Resources.export rows)
  = Some (Resources.header :: List.map (List.map (default EmptyString)) rows).
Proof.
  intros Hrows. unfold read_export, Resources.export.
  change (Js.join "," Resources.header :: List.map Resources.csv_line rows)
    with (List.map Resources.csv_line (List.map Some Resources.header :: rows)).
  rewrite lines_read_back; [reflexivity|].
  constructor; [|exact Hrows].
  split; [cbn; lia | repeat constructor].
Qed.

(** [csv_export_reads_back] for a row with a quoted prompt, a missing
    score, an answer that holds a line feed and one that holds a carriage
    return beside a comma. *)
Lemma csv_export_reads_back_witness :
  let rows := [ [Some "rr-1"; Some (JsString.quoting "say 'hi', twice"); None;
                 Some ("a" +:+ String "010" "b")];
                [Some "rr-2"; Some ("c," +:+ String "013" "d"); None; Some EmptyString] ]%string in
  read_export (Resources.export rows)
  = Some [ Resources.header;
           ["rr-1"; JsString.quoting "say 'hi', twice"; EmptyString; "a" +:+ String "010" "b"];
           ["rr-2"; "c," +:+ String "013" "d"; EmptyString; EmptyString] ]%string.
Proof.
  apply (csv_export_reads_back
           [ [Some "rr-1"; Some (JsString.quoting "say 'hi', twice"); None;
              Some ("a" +:+ String "010" "b")];
             [Some "rr-2"; Some ("c," +:+ String "013" "d"); None; Some EmptyString] ]%string).
  repeat constructor.
Defined.

(** The proviso is needed: an answer [a], carriage return, [b] is written
    without quotes, and the reader takes what follows the carriage return
    for a record of its own. *)
Example bare_return_ends_a_record :
  read_export (Resources.export [ [Some "rr-1"; Some ("a" +:+ String "013" "b")] ]%string)
  = Some [ Resources.header; ["rr-1"; "a"]; ["b"] ]%string.
Proof. vm_compute. reflexivity. Qed.

Local Open Scope string_scope.

(** * Creating providers and runs *)

Local Open Scope list_scope.

Lemma find_app_last {A} (p : A -> bool) (l : list A) (x : A) :
  existsb p l = false -> p x = true -> List.find p (l ++ [x]) = Some x.
Proof.
  induction l as [|a l IH]; cbn; intros Hex Hp; [now rewrite Hp|].
  apply orb_false_iff in Hex as [Ha Hl]. rewrite Ha. now apply IH.
Qed.

(** ** Trailing slashes *)

Lemma endsWith_slash_cons (c : ascii) (s : string) :
  s <> EmptyString ->
  JsString.endsWith (String c s) "/" = JsString.endsWith s "/".
Proof.
  intros Hne. unfold JsString.endsWith. destruct s as [|a s]; [congruence|].
  cbn [String.length]. rewrite !Nat.sub_succ, !Nat.sub_0_r. reflexivity.
Qed.

Lemma strip_has_no_trailing_slash (s : string) :
  JsString.endsWith (Adapter.strip_trailing_slashes s) "/" = false.
Proof.
  unfold Adapter.strip_trailing_slashes.
  induction s as [|c s IH]; [reflexivity|].
  cbn [JsString.drop_trailing].
  destruct (JsString.drop_trailing (fun c => Ascii.eqb c "/") s) as [|a d] eqn:Hd.
  - destruct (Ascii.eqb c "/") eqn:Hc; [reflexivity|].
    unfold JsString.endsWith. cbn. now rewrite Hc.
  - rewrite endsWith_slash_cons by discriminate. exact IH.
Qed.


(** ** The stream flag of a projected parameter object *)

Lemma obj_get_if_set (k k' : string) (c : bool) (v : jsval) (o : Adapter.obj) :
  k <> k' ->
  Adapter.obj_get k (if c then Adapter.obj_set k' v o else o) = Adapter.obj_get k o.
Proof. intros Hne. destruct c; [now apply obj_get_set_ne | reflexivity]. Qed.

Lemma buildApiParams_stream (parameters : json) (a : string) :
  Adapter.obj_get "stream" (Adapter.buildApiParams true parameters a) = Some (JBool true).
Proof.
  unfold Adapter.buildApiParams. cbv zeta.
  match goal with |- context [Adapter.obj_set "stop" _ ?p] => set (p6 := p) end.
  assert (H6 : Adapter.obj_get "stream" p6 = Some (JBool true)).
  { subst p6. rewrite !obj_get_if_set by discriminate.
    match goal with |- Adapter.obj_get _ (if ?c then _ else _) = _ => destruct c end.
    - destruct (String.eqb a "gemini"); rewrite obj_get_set_ne by discriminate;
        rewrite obj_get_if_set by discriminate; reflexivity.
    - rewrite obj_get_if_set by discriminate. reflexivity. }
  clearbody p6.
  destruct (Js.opt_prop _ "value") as [[| | | |[|x xs]|]|]; try exact H6.
  destruct (Js.truthy _); [|exact H6].
  destruct (negb true && String.eqb a "anthropic"); now rewrite obj_get_set_ne by discriminate.
Qed.

(** X21.  A provider created through [POST /api/providers] under one of
    the spellings [openaicompatible], [oai], [compatible] or [openai] (in
    any letter case and punctuation) is stored with the adapter
    [openai_compat] and its base URL without trailing slashes, and is
    therefore streamed: every request [callModelWithStreaming] sends for
    it asks for a streamed answer and goes to the base URL followed by
    [/chat/completions]. *)
Theorem created_openai_provider_is_streamed
    (db : Db) (body : Resources.provider_body) (id adapter baseUrl : string)
    (net : Http.Net) (sched : Http.schedule) (modelId : string) (messages : list ChatMessage) :
  Resources.pb_adapter body = Some adapter ->
  Resources.pb_baseUrl body = Some baseUrl ->
  In (Adapter.norm adapter) openai_aliases ->
  succeeded (fst (Resources.create_provider db body id)) ->
  let db' := snd (Resources.create_provider db body id) in
  (exists p, Sql.get (Sql.provider_by_id id) (providers db') = Some p /\
             providers db' = providers db ++ [p] /\
             Provider.adapter p = "openai_compat"%string /\
             Provider.base_url p = Adapter.strip_trailing_slashes baseUrl /\
             JsString.endsWith (Provider.base_url p) "/" = false /\
             Provider.api_key_enc p = Resources.pb_apiKey body) /\
  Forall (fun req => asks_to_stream req = true /\
                     Http.url req = Adapter.strip_trailing_slashes baseUrl +:+ "/chat/completions")
         (Adapter.sent (Adapter.callModelWithStreaming db' net sched id modelId messages)).
Proof.
  intros Hadapter Hbase Halias. unfold Resources.create_provider.
  destruct (_ || _); [intros []|].
  destruct (existsb (Sql.provider_by_id id) (providers db)) eqn:Hfresh; [intros []|].
  intros _. cbn [fst snd]. rewrite Hadapter, Hbase.
  change (default EmptyString (Some adapter)) with adapter.
  change (default EmptyString (Some baseUrl)) with baseUrl.
  assert (Hstored : Resources.stored_adapter adapter = "openai_compat"%string).
  { unfold Resources.stored_adapter.
    replace (existsb (String.eqb (Adapter.norm adapter))
               ["openaicompatible"; "oai"; "compatible"; "openai"]%string) with true;
      [reflexivity|].
    symmetry. apply existsb_exists. exists (Adapter.norm adapter).
    split; [exact Halias | apply String.eqb_refl]. }
  rewrite Hstored.
  set (p := {| Provider.id := id; Provider.name := _; Provider.adapter := _;
               Provider.base_url := _; Provider.api_key_enc := _ |}).
  assert (Hget : Sql.get (Sql.provider_by_id id) (providers db ++ [p]) = Some p).
  { unfold Sql.get. apply find_app_last; [exact Hfresh|].
    unfold Sql.provider_by_id. cbn. apply String.eqb_refl. }
  cbn [providers with_providers]. split.
  { exists p. split; [exact Hget|]. split; [reflexivity|]. split; [reflexivity|].
    split; [reflexivity|]. split; [apply strip_has_no_trailing_slash | reflexivity]. }
  unfold Adapter.callModelWithStreaming. cbn [providers with_providers]. rewrite Hget.
  destruct (Adapter.parameters_of _ net id modelId) as [parameters|err]; [|constructor].
  cbv zeta.
  change (existsb (String.eqb (Adapter.norm (Provider.adapter p)))
            ["openaicompat"; "openai_compat"; "openai"]%string) with true.
  cbv iota.
  apply List.Forall_forall. intros req Hin. apply sent_by_retried in Hin. subst req.
  cbn [Http.url Adapter.post Provider.base_url p].
  rewrite strip_has_no_trailing_slash. split; [|reflexivity].
  unfold asks_to_stream. cbn [Http.body Adapter.post].
  rewrite stringified_field.
  2:{ apply spread_NoDup. cbn. repeat constructor; cbn; intuition discriminate. }
  rewrite spread_get_in.
  - now rewrite buildApiParams_stream.
  - apply buildApiParams_NoDup.
  - destruct (in_dec string_dec "stream"%string
                (List.map fst (Adapter.buildApiParams true parameters "openai_compat")))
      as [Hin|Hout]; [exact Hin|].
    pose proof (buildApiParams_stream parameters "openai_compat") as Hs.
    rewrite (obj_get_notin _ _ Hout) in Hs. discriminate.
Qed.

(** [created_openai_provider_is_streamed] for a provider entered as
    [OpenAI-Compatible] with two trailing slashes, against the
    OpenAI-style sample server. *)
Lemma created_openai_provider_is_streamed_witness :
  let db' := snd (Resources.create_provider Sample.db new_provider "prov-3") in
  (exists p, Sql.get (Sql.provider_by_id "prov-3") (providers db') = Some p /\
             providers db' = providers Sample.db ++ [p] /\
             Provider.adapter p = "openai_compat"%string /\
             Provider.base_url p = Adapter.strip_trailing_slashes "http://localhost:1234/v1//" /\
             JsString.endsWith (Provider.base_url p) "/" = false /\
             Provider.api_key_enc p = Resources.pb_apiKey new_provider) /\
  Forall (fun req => asks_to_stream req = true /\
                     Http.url req = Adapter.strip_trailing_slashes "http://localhost:1234/v1//"
                                    +:+ "/chat/completions")
         (Adapter.sent (Adapter.callModelWithStreaming db' Servers.openai never_aborted
                          "prov-3" "vendor-c" hello)).
Proof.
  apply (created_openai_provider_is_streamed Sample.db new_provider "prov-3"
           "OpenAI-Compatible" "http://localhost:1234/v1//" Servers.openai never_aborted
           "vendor-c" hello).
  - reflexivity.
  - reflexivity.
  - vm_compute. tauto.
  - vm_compute. exact I.
Defined.

(** ** Trimming twice *)





(** [created_run_can_be_executed] is not empty: the sample body is
    accepted on the sample store, although one of its candidates does not
    exist. *)
Example create_run_accepts_unknown_candidates :
  fst (Resources.create_run Sample.db new_run "run-4" 60)
  = Returned (Reply 201 (JObj [("id"%string, JStr "run-4")])) /\
  List.map ref_id (Scheduler.resolve_models Sample.db ["model-1"; "model-gone"]%string)
  = ["model-1"%string].
Proof. vm_compute. split; reflexivity. Qed.

(** * Listings *)

Section OrderBy.
Context {A : Type} (before : relation A) `{!RelDecision before}.

Lemma insert_by_Permutation (x : A) (l : list A) : Sql.insert_by before x l ≡ₚ x :: l.
Proof.
  induction l as [|y l IH]; cbn [Sql.insert_by]; [reflexivity|].
  destruct (decide_rel before x y); [reflexivity|].
  rewrite IH. apply perm_swap.
Qed.

Lemma order_by_Permutation (l : list A) : Sql.order_by before l ≡ₚ l.
Proof.
  unfold Sql.order_by. induction l as [|x l IH]; cbn [foldr]; [reflexivity|].
  rewrite insert_by_Permutation. now rewrite IH.
Qed.

Context `{!Total before} `{!Transitive before}.

Lemma insert_by_sorted (x : A) (l : list A) :
  StronglySorted before l -> StronglySorted before (Sql.insert_by before x l).
Proof.
  induction 1 as [|y l Hsorted IH Hall]; cbn [Sql.insert_by].
  - repeat constructor.
  - destruct (decide_rel before x y) as [Hxy|Hxy].
    + constructor; [now constructor|].
      constructor; [exact Hxy|].
      eapply List.Forall_impl; [|exact Hall]. intros z Hz. now transitivity y.
    + constructor; [exact IH|].
      assert (Hyx : before y x) by (destruct (total before x y); tauto).
      apply List.Forall_forall. intros z Hz.
      apply (Permutation_in _ (insert_by_Permutation x l)) in Hz.
      destruct Hz as [<-|Hz]; [exact Hyx|].
      rewrite List.Forall_forall in Hall. now apply Hall.
Qed.

Lemma order_by_sorted (l : list A) : StronglySorted before (Sql.order_by before l).
Proof.
  unfold Sql.order_by. induction l as [|x l IH]; cbn [foldr]; [constructor|].
  now apply insert_by_sorted.
Qed.
End OrderBy.

#[local] Instance created_ge_total : Total Resources.created_ge.
Proof. intros a b. unfold Resources.created_ge. lia. Qed.

#[local] Instance created_ge_transitive : Transitive Resources.created_ge.
Proof. intros a b c. unfold Resources.created_ge. lia. Qed.

#[local] Instance created_le_total : Total Routes.created_le.
Proof. intros a b. unfold Routes.created_le. lia. Qed.

#[local] Instance created_le_transitive : Transitive Routes.created_le.
Proof. intros a b c. unfold Routes.created_le. lia. Qed.

(** X23.  [GET /api/runs] returns at most 200 rows, newest first.  The
    limit is the number given clamped into 1..200, and 50 when none could
    be read; the rows returned are rows of the table that pass the
    filters, every row in the answer is at least as new as the rows after
    it, and a [status] that is none of the five known names is ignored
    rather than refused. *)
Theorem list_runs_is_bounded_and_sorted
    (db : Db) (status : option string) (limitNum : option Z) (problemSetId : option string) :
  let rows := Resources.list_runs db status limitNum problemSetId in
  1 <= Resources.limit_of limitNum <= 200 /\
  (limitNum = None -> Resources.limit_of limitNum = 50) /\
  Z.of_nat (length rows) <= Resources.limit_of limitNum /\
  StronglySorted Resources.created_ge rows /\
  (forall r, In r rows ->
     In r (runs db) /\
     (forall s, status ≫= Resources.known_status = Some s -> Run.status r = s) /\
     (forall set, problemSetId = Some set -> set <> EmptyString ->
                  Run.problem_set_id r = set)) /\
  (status ≫= Resources.known_status = None ->
   rows = Resources.list_runs db None limitNum problemSetId).
Proof.
  cbv zeta. unfold Resources.list_runs.
  assert (Hlimit : 1 <= Resources.limit_of limitNum <= 200).
  { unfold Resources.limit_of. destruct limitNum; lia. }
  split; [exact Hlimit|]. split; [now intros ->|]. split; [|split; [|split]].
  - pose proof (firstn_le_length (Z.to_nat (Resources.limit_of limitNum))
                  (Sql.order_by Resources.created_ge
                     (Sql.all (fun r =>
                        match status ≫= Resources.known_status with
                        | Some s => Resources.status_eqb (Run.status r) s
                        | None => true
                        end &&
                        (if Resources.missing problemSetId then true
                         else String.eqb (Run.problem_set_id r)
                                (default EmptyString problemSetId))) (runs db)))) as Hlen.
    lia.
  - match goal with |- StronglySorted _ (take ?n ?l) =>
      apply (StronglySorted_app_1_l _ (take n l) (drop n l)); rewrite take_drop
    end.
    apply order_by_sorted; typeclasses eauto.
  - intros r Hin.
    assert (Hall : In r (Sql.all (fun r =>
                        match status ≫= Resources.known_status with
                        | Some s => Resources.status_eqb (Run.status r) s
                        | None => true
                        end &&
                        (if Resources.missing problemSetId then true
                         else String.eqb (Run.problem_set_id r)
                                (default EmptyString problemSetId))) (runs db))).
    { eapply Permutation_in; [apply (order_by_Permutation Resources.created_ge)|].
      rewrite <- (take_drop (Z.to_nat (Resources.limit_of limitNum))).
      apply in_or_app. left. exact Hin. }
    unfold Sql.all in Hall. apply List.filter_In in Hall as [Hrow Hpass].
    apply andb_true_iff in Hpass as [Hst Hset].
    split; [exact Hrow|]. split.
    + intros s Hs. rewrite Hs in Hst. unfold Resources.status_eqb in Hst.
      apply String.eqb_eq in Hst. destruct (Run.status r), s; try discriminate; reflexivity.
    + intros set -> Hne. cbn in Hset.
      destruct (String.eqb set EmptyString) eqn:Hempty;
        [apply String.eqb_eq in Hempty; contradiction|].
      now apply String.eqb_eq in Hset.
  - intros Hunknown. rewrite Hunknown. reflexivity.
Qed.

(** X24.  [GET /api/problems?problemSetId=...] lists problems oldest
    first: every problem in the answer was created no later than those
    after it.  With an id that is not empty the answer holds exactly the
    problems of that set, and the problems [execute] loads for a run over
    the set are the same problems, possibly in another order.  With an
    empty id, as with none, the answer holds the problems of every set. *)
Theorem list_problems_sorted_by_creation (db : Db) (problemSetId : string) :
  let rows := Routes.list_problems db problemSetId in
  StronglySorted Routes.created_le rows /\
  (problemSetId <> EmptyString ->
   rows ≡ₚ List.filter (Sql.problem_in_set problemSetId) (problems db) /\
   (forall p, In p rows <-> In p (problems db) /\ Problem.problem_set_id p = problemSetId) /\
   Scheduler.load_problems db problemSetId ≡ₚ rows) /\
  (problemSetId = EmptyString ->
   rows ≡ₚ problems db /\ forall p, In p rows <-> In p (problems db)).
Proof.
  cbv zeta. unfold Routes.list_problems, Scheduler.load_problems, Sql.all.
  split; [destruct (String.eqb _ _); apply order_by_sorted; typeclasses eauto|].
  split.
  - intros Hne. apply String.eqb_neq in Hne. rewrite Hne.
    assert (Hperm := order_by_Permutation Routes.created_le
                       (List.filter (Sql.problem_in_set problemSetId) (problems db))).
    split; [exact Hperm|]. split; [|now symmetry].
    intros p.
    assert (Hset : In p (List.filter (Sql.problem_in_set problemSetId) (problems db)) <->
                   In p (problems db) /\ Problem.problem_set_id p = problemSetId).
    { rewrite List.filter_In. unfold Sql.problem_in_set. now rewrite String.eqb_eq. }
    rewrite <- Hset.
    split; intros Hin.
    + eapply Permutation_in; [exact Hperm | exact Hin].
    + eapply Permutation_in; [symmetry; exact Hperm | exact Hin].
  - intros ->. cbn [String.eqb].
    assert (Hperm := order_by_Permutation Routes.created_le (problems db)).
    split; [exact Hperm|]. intros p. split; intros Hin.
    + eapply Permutation_in; [exact Hperm | exact Hin].
    + eapply Permutation_in; [symmetry; exact Hperm | exact Hin].
Qed.

(** On the sample store: the problems of [set-1] by their id, and all
    three problems by an empty one. *)
Example list_problems_of_one_set_and_of_all :
  Routes.list_problems Sample.db "set-1" = [Sample.problemB; Sample.problemA] /\
  Routes.list_problems Sample.db EmptyString
  = [Sample.problemB; Sample.problemA; Sample.problemH].
Proof. vm_compute. split; reflexivity. Qed.

Local Open Scope string_scope.

(** * The judge prompt *)

Lemma includes_here (s p : string) : JsString.includes (p +:+ s) p = true.
Proof.
  destruct p as [|c p]; [destruct s; reflexivity|].
  change (String c p +:+ s) with (String c (p +:+ s)).
  cbn [JsString.includes].
  change (String c (p +:+ s)) with (String c p +:+ s).
  now rewrite startsWith_append.
Qed.

Lemma includes_after (a t p : string) :
  JsString.includes t p = true -> JsString.includes (a +:+ t) p = true.
Proof.
  intros Ht. induction a as [|c a IH]; [exact Ht|].
  change (String c a +:+ t) with (String c (a +:+ t)).
  cbn [JsString.includes]. rewrite IH. apply orb_true_r.
Qed.

Lemma includes_here3 (a b c rest : string) :
  JsString.includes (a +:+ b +:+ c +:+ rest) (a +:+ b +:+ c) = true.
Proof.
  rewrite <- (append_assoc b c rest), <- (append_assoc a (b +:+ c) rest).
  apply includes_here.
Qed.

Ltac find_part := repeat first [ apply includes_here3 | apply includes_after ].

(** X25.  The message sent to the judge holds the case in full: the
    problem prompt after [PROBLEM: ], the candidate's answer after
    [CANDIDATE ANSWER: ], and after [EXPECTED ANSWER: ] the expected
    answer, or, when the problem has none or an empty one, the notice that
    none was provided.  It goes out as the user message after a system
    message. *)
Theorem judge_prompt_holds_the_case (prompt : string) (expected : option string) (output : string) :
  let text := Judge.judgePrompt prompt expected output in
  JsString.includes text ("PROBLEM: " +:+ prompt +:+ Judge.nl) = true /\
  JsString.includes text ("CANDIDATE ANSWER: " +:+ output +:+ Judge.nl) = true /\
  JsString.includes text
    ("EXPECTED ANSWER: " +:+
     match expected with
     | Some answer => if String.eqb answer EmptyString then no_expected_answer else answer
     | None => no_expected_answer
     end +:+ Judge.nl) = true /\
  List.map (fun m => (msg_role m, content m)) (Judge.judge_messages prompt expected output)
  = [(system, "You are an expert AI evaluator. Always respond with valid JSON in the exact format requested.");
     (user, text)].
Proof.
  cbv zeta. split; [|split; [|split; [|reflexivity]]];
    unfold Judge.judgePrompt, no_expected_answer;
    set (expected_text := match expected with Some t => _ | None => _ end);
    clearbody expected_text; find_part.
Qed.

(** * The Gemini request *)

Lemma hex_digit_safe (n : N) : (n < 16)%N -> url_safe (Adapter.hex_digit n) = true.
Proof.
  intros Hn.
  assert (Hcases : In n [0; 1; 2; 3; 4; 5; 6; 7; 8; 9; 10; 11; 12; 13; 14; 15]%N).
  { cbn. lia. }
  cbn in Hcases.
  repeat (destruct Hcases as [<-|Hcases]; [reflexivity|]).
  destruct Hcases.
Qed.

Lemma code_below_256 (c : ascii) : (JsString.code c < 256)%N.
Proof. destruct c as [[] [] [] [] [] [] [] []]; reflexivity. Qed.

Lemma encodeURIComponent_safe (s : string) :
  all_chars url_safe (Adapter.encodeURIComponent s) = true.
Proof.
  induction s as [|c s IH]; [reflexivity|].
  cbn [Adapter.encodeURIComponent].
  destruct (JsString.is_word c || existsb (Ascii.eqb c) _) eqn:Hplain.
  - cbn [all_chars]. rewrite IH, andb_true_r.
    unfold url_safe. apply orb_true_iff in Hplain as [Hword|Hmark].
    + now rewrite Hword.
    + apply orb_true_iff. right.
      cbn [existsb] in *. rewrite !orb_true_iff in *. tauto.
  - cbn [all_chars]. rewrite IH, andb_true_r.
    pose proof (code_below_256 c) as Hc.
    rewrite !hex_digit_safe; [reflexivity| |].
    + apply N.mod_lt. discriminate.
    + apply N.Div0.div_lt_upper_bound. exact Hc.
Qed.

(** X26.  Every request [callModel] sends to a Gemini provider (adapter
    [google], [gemini], [googlegenai] or [googleai]) goes to the provider's
    base URL without its trailing slashes, followed by [/v1beta/models/],
    the model id as [encodeURIComponent] writes it, [:generateContent?key=]
    and the key as [encodeURIComponent] writes it (the empty text when the
    provider has no key).  What [encodeURIComponent] writes holds only
    letters, digits, the unreserved marks and percent escapes, so neither
    the model id nor the key can add a path segment or a second parameter.
    The key travels in the URL only: the one header is the content type. *)
Theorem gemini_request_url_is_escaped
    (db : Db) (net : Http.Net) (sched : Http.schedule)
    (providerId modelId : string) (messages : list ChatMessage) (provider : Provider.t) :
  Sql.get (Sql.provider_by_id providerId) (providers db) = Some provider ->
  In (Adapter.norm (Provider.adapter provider))
     ["google"; "gemini"; "googlegenai"; "googleai"]%string ->
  let model := Adapter.encodeURIComponent modelId in
  let key := Adapter.encodeURIComponent (default EmptyString (Provider.api_key_enc provider)) in
  all_chars url_safe model = true /\
  all_chars url_safe key = true /\
  forall req,
    In req (Adapter.sent (Adapter.callModel db net sched providerId modelId messages)) ->
    Http.url req = Adapter.strip_trailing_slashes (Provider.base_url provider) +:+
                   "/v1beta/models/" +:+ model +:+ ":generateContent?key=" +:+ key /\
    Http.headers req = [("Content-Type", "application/json")].
Proof.
  intros Hget Halias model key.
  split; [apply encodeURIComponent_safe|]. split; [apply encodeURIComponent_safe|].
  intros req. unfold Adapter.callModel. rewrite Hget.
  destruct (Adapter.parameters_of db net providerId modelId) as [parameters|err];
    [|intros []].
  assert (Hbranch :
    existsb (String.eqb (Adapter.norm (Provider.adapter provider)))
      ["openai"; "openaicompatible"; "openai_compat"; "openaicompat"; "oai"; "compatible"]%string
    = false /\
    existsb (String.eqb (Adapter.norm (Provider.adapter provider)))
      ["anthropic"; "claude"]%string = false /\
    existsb (String.eqb (Adapter.norm (Provider.adapter provider)))
      ["google"; "gemini"; "googlegenai"; "googleai"]%string = true).
  { destruct Halias as [H|[H|[H|[H|[]]]]]; rewrite <- H; repeat split; reflexivity. }
  destruct Hbranch as (Hno1 & Hno2 & Hyes). cbv zeta. rewrite Hno1, Hno2, Hyes.
  intros Hin. apply sent_by_retried in Hin. subst req. split; reflexivity.
Qed.

(** [gemini_request_url_is_escaped] for the sample provider with its
    adapter stored as [Google-GenAI] and a model id that holds a slash and
    a question mark. *)
Lemma gemini_request_url_is_escaped_witness :
  let c := Adapter.callModel (store_with_adapter "Google-GenAI") Servers.anthropic
             never_aborted "prov-1" "tuned/a?b" hello in
  Adapter.encodeURIComponent "tuned/a?b" = "tuned%2Fa%3Fb" /\
  hd_error (List.map Http.url (Adapter.sent c))
  = Some "https://api.example.test/v1beta/models/tuned%2Fa%3Fb:generateContent?key=k" /\
  Forall (fun req =>
            Http.url req
            = Adapter.strip_trailing_slashes "https://api.example.test/" +:+
              "/v1beta/models/" +:+ Adapter.encodeURIComponent "tuned/a?b" +:+
              ":generateContent?key=" +:+ Adapter.encodeURIComponent "k" /\
            Http.headers req = [("Content-Type", "application/json")])
         (Adapter.sent c).
Proof.
  split; [vm_compute; reflexivity|]. split; [vm_compute; reflexivity|].
  apply List.Forall_forall. intros req Hin.
  apply (gemini_request_url_is_escaped (store_with_adapter "Google-GenAI") Servers.anthropic
           never_aborted "prov-1" "tuned/a?b" hello
           {| Provider.id := "prov-1"; Provider.name := "Claude";
              Provider.adapter := "Google-GenAI";
              Provider.base_url := "https://api.example.test/";
              Provider.api_key_enc := Some "k" |}).
  - reflexivity.
  - right. right. left. reflexivity.
  - exact Hin.
Defined.
